(** * prereview: suggestion protocol, change filter and review session

  A shallow embedding of the Go sources
    - [internal/review] (reviewer, prompt builder, response parser),
    - [internal/ui/session.go] (interactive session, patch applier),
    - [cmd/review.go] (change filter),
    - [internal/copilot] (model names), [internal/git] (staged changes),
      [internal/standards] (detection of coding standards),
  together with the properties stated about them.

  Conventions.  A Go [string] is a byte sequence and is modelled by
  [string] (a list of 8-bit [ascii]).  A Go [int] is taken to be 64 bits
  wide and is modelled by [Z]; arithmetic that the code performs on it is
  wrapped explicitly.  A nil-pointer dereference or an index out of range
  is a run-time panic and is modelled by the [Panic] outcome, so that the
  absence of panics is something to prove and not something assumed. *)

From Stdlib Require Import ZArith Ascii String Lia.
From stdpp Require Import gmap strings list.

Local Open Scope string_scope.
Local Open Scope list_scope.
Local Open Scope Z_scope.

(** [simpl] may unfold the concatenation of strings on a constructor. *)
Local Arguments String.append !_ _ / : simpl nomatch.

(** ** Outcomes of Go calls *)

Inductive GoResult (A : Type) : Type :=
| Ok (a : A)            (* normal return, [err == nil] *)
| Err (e : string)      (* normal return with a non-nil error *)
| Panic.                (* run-time panic *)
Arguments Ok {A} a.
Arguments Err {A} e.
Arguments Panic {A}.

(** ** The parts of Go's standard library that the code calls *)

Module GoStrings.

(** A line feed, a double quote. *)
Definition LF : ascii := "010"%char.
Definition nl : string := String LF "".
Definition DQ : string := String "034"%char "".

(** [len(s)] *)
Definition len (s : string) : nat := String.length s.

(** [s[n:]], for [n <= len(s)] (beyond that Go panics; see the callers). *)
Fixpoint slice_from (n : nat) (s : string) : string :=
  match n, s with
  | O, _ => s
  | S _, "" => ""
  | S n', String _ s' => slice_from n' s'
  end.

(** [s[:n]], for [n <= len(s)]. *)
Fixpoint slice_to (n : nat) (s : string) : string :=
  match n, s with
  | O, _ => ""
  | S _, "" => ""
  | S n', String c s' => String c (slice_to n' s')
  end.

(** [strings.HasPrefix(s, prefix)] *)
Fixpoint HasPrefix (s prefix : string) {struct prefix} : bool :=
  match prefix with
  | "" => true
  | String b p' =>
      match s with
      | "" => false
      | String a s' => Ascii.eqb a b && HasPrefix s' p'
      end
  end.

(** [strings.HasSuffix(s, suffix)] *)
Definition HasSuffix (s suffix : string) : bool :=
  (len suffix <=? len s)%nat
  && String.eqb (slice_from (len s - len suffix) s) suffix.

(** [strings.Index(s, substr)]: the byte offset of the first occurrence of
    [substr] in [s]; [None] stands for Go's [-1]. *)
Fixpoint Index (s substr : string) : option nat :=
  if HasPrefix s substr then Some O
  else match s with
       | "" => None
       | String _ s' => option_map S (Index s' substr)
       end.

(** [strings.Contains(s, substr)], which is [Index(s, substr) >= 0]. *)
Definition Contains (s substr : string) : bool :=
  match Index s substr with Some _ => true | None => false end.

(** [strings.Replace(s, old, new, 1)].  The library returns [s] itself when
    [old == new] or when [old] does not occur; otherwise it copies [s] up
    to the first occurrence of [old], then [new], then what follows that
    occurrence. *)
Definition ReplaceFirst (s old new : string) : string :=
  if String.eqb old new then s
  else match Index s old with
       | None => s
       | Some j => slice_to j s +:+ new +:+ slice_from (j + len old) s
       end.

(** [strings.Split(s, "\n")]: one more piece than there are line feeds. *)
Fixpoint SplitLF (s : string) : list string :=
  match s with
  | "" => [""]
  | String c s' =>
      if Ascii.eqb c LF then "" :: SplitLF s'
      else match SplitLF s' with
           | l :: ls => String c l :: ls
           | [] => [String c ""]
           end
  end.

(** [strings.Join(lines, "\n")] *)
Fixpoint JoinLF (lines : list string) : string :=
  match lines with
  | [] => ""
  | [l] => l
  | l :: ls => l +:+ nl +:+ JoinLF ls
  end.

(** *** [strings.TrimSpace]

    White space "as defined by Unicode": the six ASCII characters tab,
    line feed, vertical tab, form feed, carriage return and space, and the
    code points U+0085, U+00A0, U+1680, U+2000..U+200A, U+2028, U+2029,
    U+202F, U+205F and U+3000.  On a byte string a rune is white space
    exactly when the bytes at hand are its UTF-8 encoding, so both trims
    are written on bytes: the left one strips encodings from the front,
    the right one strips them from the back. *)

Definition byte (n : N) : ascii := ascii_of_N n.
Definition isb (c : ascii) (n : N) : bool := N.eqb (N_of_ascii c) n.

Definition asciiSpace (c : ascii) : bool :=
  let n := N_of_ascii c in
  (N.leb 9 n && N.leb n 13) || N.eqb n 32.

(** Third byte of the encodings E2 80 xx of U+2000..U+200A, U+2028,
    U+2029 and U+202F. *)
Definition e280_space (c : ascii) : bool :=
  let n := N_of_ascii c in
  (N.leb 128 n && N.leb n 138) || N.eqb n 168 || N.eqb n 169 || N.eqb n 175.

Fixpoint trimLeftBytes (l : list ascii) : list ascii :=
  match l with
  | [] => []
  | c :: r =>
      if asciiSpace c then trimLeftBytes r
      else match r with
           | d :: r2 =>
               if isb c 194 && (isb d 133 || isb d 160) then trimLeftBytes r2
               else match r2 with
                    | e :: r3 =>
                        if (isb c 225 && isb d 154 && isb e 128)
                           || (isb c 226 && isb d 128 && e280_space e)
                           || (isb c 226 && isb d 129 && isb e 159)
                           || (isb c 227 && isb d 128 && isb e 128)
                        then trimLeftBytes r3
                        else l
                    | [] => l
                    end
           | [] => l
           end
  end.

(** The same on the reversed byte sequence: the last byte comes first. *)
Fixpoint trimRightBytesRev (l : list ascii) : list ascii :=
  match l with
  | [] => []
  | c :: r =>
      if asciiSpace c then trimRightBytesRev r
      else match r with
           | d :: r2 =>
               if isb d 194 && (isb c 133 || isb c 160) then trimRightBytesRev r2
               else match r2 with
                    | e :: r3 =>
                        if (isb e 225 && isb d 154 && isb c 128)
                           || (isb e 226 && isb d 128 && e280_space c)
                           || (isb e 226 && isb d 129 && isb c 159)
                           || (isb e 227 && isb d 128 && isb c 128)
                        then trimRightBytesRev r3
                        else l
                    | [] => l
                    end
           | [] => l
           end
  end.

Definition TrimSpace (s : string) : string :=
  let trimmed := trimLeftBytes (list_ascii_of_string s) in
  string_of_list_ascii (rev (trimRightBytesRev (rev trimmed))).

(** *** [strconv.Atoi], for a 64-bit [int]

    An optional sign, then one or more decimal digits and nothing else;
    the value has to fit the type.  [None] stands for a non-nil error. *)

Definition digit (c : ascii) : option Z :=
  let n := N_of_ascii c in
  if N.leb 48 n && N.leb n 57 then Some (Z.of_N n - 48) else None.

Fixpoint digits (acc : Z) (s : string) : option Z :=
  match s with
  | "" => Some acc
  | String c s' =>
      match digit c with
      | Some d => digits (acc * 10 + d) s'
      | None => None
      end
  end.

Definition minInt : Z := - 2 ^ 63.
Definition maxInt : Z := 2 ^ 63 - 1.

Definition Atoi (s : string) : option Z :=
  match s with
  | "" => None
  | String c s' =>
      let neg := isb c 45 in
      let body := if neg || isb c 43 then s' else s in
      match body with
      | "" => None
      | _ =>
          match digits 0 body with
          | Some n =>
              let v := if neg then - n else n in
              if (minInt <=? v) && (v <=? maxInt) then Some v else None
          | None => None
          end
      end
  end.

(** [n + m] on a 64-bit [int]. *)
Definition wrap (z : Z) : Z := (z + 2 ^ 63) mod 2 ^ 64 - 2 ^ 63.
Definition int_add (a b : Z) : Z := wrap (a + b).

End GoStrings.
Import GoStrings.

(** ** Package [git]: what the reviewer consumes *)

Module Git.

(** [type FileChange struct] *)
Record FileChange := mkFileChange {
  Path : string;
  Status : string;
  OldPath : string;
  Diff : string;
  Content : string;
  IsBinary : bool }.

End Git.

(** ** Package [review]: suggestions and the response parser *)

Module Review.

(** [type Suggestion struct].  [Severity] and [Confidence] are string types
    in the source; the parser stores whatever text the reply carries. *)
Record Suggestion := mkSuggestion {
  File : string;
  Line : Z;
  EndLine : Z;
  Severity : string;
  Confidence : string;
  Title : string;
  Description : string;
  OriginalCode : string;
  SuggestFix : string;
  Category : string }.

(** [&Suggestion{File: file}]: every other field has its zero value. *)
Definition newSuggestion (file : string) : Suggestion :=
  mkSuggestion file 0 0 "" "" "" "" "" "" "".

Definition set_Line (v : Z) (s : Suggestion) : Suggestion :=
  mkSuggestion (File s) v (EndLine s) (Severity s) (Confidence s) (Title s)
    (Description s) (OriginalCode s) (SuggestFix s) (Category s).
Definition set_EndLine (v : Z) (s : Suggestion) : Suggestion :=
  mkSuggestion (File s) (Line s) v (Severity s) (Confidence s) (Title s)
    (Description s) (OriginalCode s) (SuggestFix s) (Category s).
Definition set_Severity (v : string) (s : Suggestion) : Suggestion :=
  mkSuggestion (File s) (Line s) (EndLine s) v (Confidence s) (Title s)
    (Description s) (OriginalCode s) (SuggestFix s) (Category s).
Definition set_Confidence (v : string) (s : Suggestion) : Suggestion :=
  mkSuggestion (File s) (Line s) (EndLine s) (Severity s) v (Title s)
    (Description s) (OriginalCode s) (SuggestFix s) (Category s).
Definition set_Title (v : string) (s : Suggestion) : Suggestion :=
  mkSuggestion (File s) (Line s) (EndLine s) (Severity s) (Confidence s) v
    (Description s) (OriginalCode s) (SuggestFix s) (Category s).
Definition set_Description (v : string) (s : Suggestion) : Suggestion :=
  mkSuggestion (File s) (Line s) (EndLine s) (Severity s) (Confidence s)
    (Title s) v (OriginalCode s) (SuggestFix s) (Category s).
Definition set_OriginalCode (v : string) (s : Suggestion) : Suggestion :=
  mkSuggestion (File s) (Line s) (EndLine s) (Severity s) (Confidence s)
    (Title s) (Description s) v (SuggestFix s) (Category s).
Definition set_SuggestFix (v : string) (s : Suggestion) : Suggestion :=
  mkSuggestion (File s) (Line s) (EndLine s) (Severity s) (Confidence s)
    (Title s) (Description s) (OriginalCode s) v (Category s).
Definition set_Category (v : string) (s : Suggestion) : Suggestion :=
  mkSuggestion (File s) (Line s) (EndLine s) (Severity s) (Confidence s)
    (Title s) (Description s) (OriginalCode s) (SuggestFix s) v.

Definition joinLines (lines : list string) : string := JoinLF lines.
Definition splitLines (s : string) : list string := SplitLF s.
Definition hasPrefix (s prefix : string) : bool := HasPrefix s prefix.

Definition parseStringValue (line prefix : string) : string :=
  if (len line <=? len prefix)%nat then ""
  else TrimSpace (slice_from (len prefix) line).

Definition parseIntValue (line prefix : string) : Z :=
  match Atoi (parseStringValue line prefix) with
  | Some n => n
  | None => 0
  end.

(** The local variables of [parseStructuredResponse].  [current] is a
    pointer in the source: [None] is the nil pointer. *)
Record ParserState := mkState {
  suggestions : list Suggestion;
  current : option Suggestion;
  multiLineField : string;
  multiLineContent : list string;
  inMultiLine : bool;
  lastField : string }.

Definition initState : ParserState := mkState [] None "" [] false "".

(** [if current != nil && current.Title != "" { append }] *)
Definition flush (sugs : list Suggestion) (cur : option Suggestion)
  : list Suggestion :=
  match cur with
  | Some c => if String.eqb (Title c) "" then sugs else sugs ++ [c]
  | None => sugs
  end.

(** The chain of field tests on a line of a record (the last part of the
    loop body).  It updates [*current] and [lastField]. *)
Definition parseField (line : string) (c : Suggestion) (lf : string)
  : Suggestion * string :=
  if hasPrefix line "LINE:" then
    (set_Line (parseIntValue line "LINE:") c, lf)
  else if hasPrefix line "END_LINE:" then
    (set_EndLine (parseIntValue line "END_LINE:") c, lf)
  else if hasPrefix line "SEVERITY:" then
    (set_Severity (parseStringValue line "SEVERITY:") c, lf)
  else if hasPrefix line "CONFIDENCE:" then
    (set_Confidence (parseStringValue line "CONFIDENCE:") c, lf)
  else if hasPrefix line "CATEGORY:" then
    (set_Category (parseStringValue line "CATEGORY:") c, lf)
  else if hasPrefix line "TITLE:" then
    (set_Title (parseStringValue line "TITLE:") c, lf)
  else if hasPrefix line "DESCRIPTION:" then
    (set_Description (parseStringValue line "DESCRIPTION:") c, lf)
  else if hasPrefix line "ORIGINAL:" then
    let rest := parseStringValue line "ORIGINAL:" in
    if negb (String.eqb rest "") && negb (String.eqb rest "N/A") then
      (set_OriginalCode rest c, "ORIGINAL")
    else if String.eqb rest "N/A" then
      (set_OriginalCode "" c, "ORIGINAL")
    else (c, "ORIGINAL")
  else if hasPrefix line "FIX:" then
    let rest := parseStringValue line "FIX:" in
    if negb (String.eqb rest "") && negb (String.eqb rest "N/A") then
      (set_SuggestFix rest c, "FIX")
    else if String.eqb rest "N/A" then
      (set_SuggestFix "" c, "FIX")
    else (c, "FIX")
  else (c, lf).

(** One iteration of [for _, line := range lines].  A write through a nil
    [current] is a panic. *)
Definition step (file : string) (st : ParserState) (line : string)
  : GoResult ParserState :=
  if inMultiLine st && String.eqb line ">>>" then
    let content := joinLines (multiLineContent st) in
    if String.eqb (multiLineField st) "ORIGINAL" then
      match current st with
      | Some c =>
          Ok (mkState (suggestions st) (Some (set_OriginalCode content c))
                "" [] false (lastField st))
      | None => Panic
      end
    else if String.eqb (multiLineField st) "FIX" then
      match current st with
      | Some c =>
          Ok (mkState (suggestions st) (Some (set_SuggestFix content c))
                "" [] false (lastField st))
      | None => Panic
      end
    else Ok (mkState (suggestions st) (current st) "" [] false (lastField st))
  else if inMultiLine st then
    Ok (mkState (suggestions st) (current st) (multiLineField st)
          (multiLineContent st ++ [line]) true (lastField st))
  else if String.eqb line "---" then
    Ok (mkState (flush (suggestions st) (current st))
          (Some (newSuggestion file))
          (multiLineField st) (multiLineContent st) false "")
  else
    match current st with
    | None => Ok st
    | Some c =>
        if String.eqb line "<<<" then
          Ok (mkState (suggestions st) (Some c) (lastField st) [] true
                (lastField st))
        else
          let '(c', lf') := parseField line c (lastField st) in
          Ok (mkState (suggestions st) (Some c') (multiLineField st)
                (multiLineContent st) false lf')
    end.

(** The whole loop, from a given state. *)
Fixpoint run (file : string) (st : ParserState) (lines : list string)
  : GoResult ParserState :=
  match lines with
  | [] => Ok st
  | line :: rest =>
      match step file st line with
      | Ok st' => run file st' rest
      | Err e => Err e
      | Panic => Panic
      end
  end.

(** What is returned once the loop is over: "Don't forget the last one". *)
Definition finish (st : ParserState) : list Suggestion :=
  flush (suggestions st) (current st).

Definition parseStructuredResponse (response file : string)
  : GoResult (list Suggestion) :=
  match run file initState (splitLines response) with
  | Ok st => Ok (finish st)
  | Err e => Err e
  | Panic => Panic
  end.

Definition parseReviewResponse (response file : string)
  : GoResult (list Suggestion) :=
  if String.eqb response "NO_ISSUES" || String.eqb response "" then Ok []
  else parseStructuredResponse response file.

(** *** The prompt builder

    The raw string literals of [buildReviewPrompt], byte for byte. *)

Definition strictGuidance : string :=
"
TOLERANCE: STRICT
- Report all potential issues including style nitpicks
- Mark uncertain issues with CONFIDENCE: low
- Only mark as CONFIDENCE: high when you are 100% certain of an issue".

Definition relaxedGuidance : string :=
"
TOLERANCE: RELAXED
- Only report definite bugs, security vulnerabilities, or critical performance issues
- Skip style suggestions, minor improvements, and best-practice recommendations
- If you're not at least 90% confident about an issue, don't report it
- Skip issues that might be intentional design decisions or framework-specific patterns
- When in doubt, assume the developer knows what they're doing".

Definition moderateGuidance : string :=
"
TOLERANCE: MODERATE
- Report bugs, security issues, and significant code quality concerns
- Skip minor style nitpicks unless they affect readability significantly
- Mark uncertain issues with CONFIDENCE: low or medium
- Consider framework-specific patterns - what looks wrong might be idiomatic".

Definition promptHead : string :=
"You are a pragmatic code reviewer. Your goal is to be HELPFUL, not pedantic.

IMPORTANT GUIDELINES:
1. AVOID FALSE POSITIVES - When uncertain, don't report. Users hate being blocked by incorrect suggestions.
2. UNDERSTAND CONTEXT - A function that returns multiple types based on input is common (e.g., factory patterns, polymorphism).
3. TRUST THE DEVELOPER - If code works and is reasonable, don't suggest rewrites for minor improvements.
4. FRAMEWORK AWARENESS - Many frameworks have patterns that look wrong but are correct:
   - Factory methods returning different subtypes based on input parameters
   - Type hints may be broader than actual runtime types - this is often intentional
   - Data may be sanitized/escaped at storage time, not output time
   - Different color formats (hex, rgba, hsl) are all valid depending on context
5. DON'T CREATE LOOPS - If suggesting a change would create a new issue, reconsider the suggestion.
".

Definition promptFormat : string :=
"

For each GENUINE issue found, respond in this exact format:
---
LINE: <line number where issue starts>
END_LINE: <end line number if multi-line, otherwise same as LINE>
SEVERITY: <error|warning|info|hint>
CONFIDENCE: <high|medium|low>
CATEGORY: <security|performance|style|bug|best-practice>
TITLE: <short title>
DESCRIPTION: <detailed description explaining WHY this is an issue and the RISK if not fixed>
ORIGINAL:
<<<
the exact original code lines copied verbatim from the file
include multiple lines if needed, preserving all whitespace and indentation
>>>
FIX:
<<<
the exact replacement code
include multiple lines if needed, preserving all whitespace and indentation
>>>
---

CONFIDENCE LEVELS:
- high: You are certain this is a bug, security issue, or definite problem (>95% confident)
- medium: This is likely an issue but could be intentional (~70-95% confident)  
- low: This might be an issue, or might be a valid pattern (<70% confident)

CRITICAL RULES:
1. ORIGINAL must be copied EXACTLY from the file content - character for character
2. Include enough context (2-3 lines before/after) to make the match unique
3. Preserve ALL whitespace, tabs, and indentation exactly as they appear
4. For multi-line code, include all lines between <<< and >>>
5. If no code fix is applicable, use: N/A (without <<< >>>)
6. NEVER suggest a fix that would cause a different issue
7. If the code is already sanitized/escaped upstream, don't flag it again
8. Consider the full context - a " +:+ DQ +:+ "wrong type" +:+ DQ +:+ " might be polymorphic

Focus on:
- Security vulnerabilities (CONFIDENCE: high only for definite issues)
- Actual bugs that will cause runtime errors
- Performance issues with measurable impact
- Error handling gaps that could cause crashes
".

Definition promptNoIssues : string :=
"
If no issues are found (or only uncertain low-confidence issues in relaxed mode), respond with: NO_ISSUES

File: ".

Definition promptDiff : string :=
"

Diff:
".

Definition promptContent : string :=
"

Full staged content:
".

Definition toleranceGuidance (tolerance : string) : string :=
  if String.eqb tolerance "strict" then strictGuidance
  else if String.eqb tolerance "relaxed" then relaxedGuidance
  else moderateGuidance.

(** [for _, hint := range projectHints { basePrompt += "- " + hint + "\n" }] *)
Fixpoint appendHints (prompt : string) (hints : list string) : string :=
  match hints with
  | [] => prompt
  | hint :: rest => appendHints (prompt +:+ "- " +:+ hint +:+ nl) rest
  end.

Definition buildReviewPrompt (change : Git.FileChange)
    (standardsContext : string) (projectHints : list string)
    (tolerance : string) : string :=
  let p0 := promptHead +:+ toleranceGuidance tolerance +:+ promptFormat in
  let p1 := if String.eqb standardsContext "" then p0
            else p0 +:+ standardsContext in
  let p2 := match projectHints with
            | [] => p1
            | _ => appendHints
                     (p1 +:+ nl +:+ nl +:+
                      "PROJECT-SPECIFIC CONTEXT (trust these hints from the developer):"
                      +:+ nl)
                     projectHints
            end in
  p2 +:+ promptNoIssues +:+ Git.Path change +:+ promptDiff +:+ Git.Diff change
     +:+ promptContent +:+ Git.Content change.

(** *** The reviewer

    The assistant is outside the program: [Client.Chat] is a call whose
    reply, or failure, the program does not control, and which may answer
    the same prompt differently at each call.  It is a parameter here, a
    function of the client's state, the model name and the prompt. *)

Inductive ChatReply :=
  | Reply (response : string)
  | Failure (err : string).

(** [type ReviewResult struct] *)
Record ReviewResult := mkReviewResult {
  Files : list string;
  Suggestions : list Suggestion;
  Summary : string }.

(** [type Reviewer struct], without the client. *)
Record Reviewer := mkReviewer {
  model : string;
  standardsContext : string;
  projectHints : list string;
  tolerance : string }.

Section Reviewing.

Variable ClientState : Type.
Variable Chat : ClientState -> string -> string -> ChatReply * ClientState.

Definition reviewFile (r : Reviewer) (cs : ClientState)
    (change : Git.FileChange) : GoResult (list Suggestion) * ClientState :=
  let prompt := buildReviewPrompt change (standardsContext r)
                  (projectHints r) (tolerance r) in
  match Chat cs (model r) prompt with
  | (Failure err, cs') => (Err err, cs')
  | (Reply response, cs') =>
      (parseReviewResponse response (Git.Path change), cs')
  end.

(** The loop of [Review], from the result built so far.  The progress lines
    it prints are left out. *)
Fixpoint reviewLoop (r : Reviewer) (cs : ClientState)
    (changes : list Git.FileChange) (result : ReviewResult)
    : GoResult (ReviewResult * ClientState) :=
  match changes with
  | [] => Ok (result, cs)
  | change :: rest =>
      let result1 := mkReviewResult (Files result ++ [Git.Path change])
                       (Suggestions result) (Summary result) in
      if Git.IsBinary change then reviewLoop r cs rest result1
      else
        match reviewFile r cs change with
        | (Err _, cs') => reviewLoop r cs' rest result1
        | (Ok sugs, cs') =>
            reviewLoop r cs' rest
              (mkReviewResult (Files result1) (Suggestions result1 ++ sugs)
                 (Summary result1))
        | (Panic, _) => Panic
        end
  end.

Definition Review (r : Reviewer) (cs : ClientState)
    (changes : list Git.FileChange) : GoResult (ReviewResult * ClientState) :=
  reviewLoop r cs changes (mkReviewResult [] [] "").

End Reviewing.

End Review.

(** ** The files and the staging area, as [applyFix] uses them *)

Module OS.

(** A file: its bytes, its permission bits, whether this process can read
    it, and whether a write to it goes through. *)
Record FileEntry := mkFile {
  content : string;
  mode : Z;
  readable : bool;
  writable : bool }.

(** The world outside the process: the files of the working tree by
    path, the staged content by path (what git keeps in its own directory
    is seen through it), and two things that the process does not decide.

    [torn] says how a write that fails leaves the file: [os.WriteFile]
    opens the file with truncation and then writes, so that a failure after
    the opening (a full disk, an input/output error) leaves the first [n]
    bytes of the new content, none of them for [n = 0].  A path without an
    entry is one where the opening itself fails, and nothing changes.

    [git_add] is what [git add] makes of the staging area when it is given
    an argument, the files and the staging area being as they are; [None]
    when it fails (outside a repository, a locked index, an argument it
    rejects).  The argument is passed as the program passes it, and git
    reads it as a pathspec or as an option: which paths are staged, and
    with what content, is git's business. *)
Record World := mkWorld {
  files : gmap string FileEntry;
  index : gmap string string;
  torn : gmap string nat;
  git_add : string -> gmap string FileEntry -> gmap string string
            -> option (gmap string string) }.

(** [os.ReadFile(path)] *)
Definition ReadFile (w : World) (path : string) : option string :=
  match files w !! path with
  | Some f => if readable f then Some (content f) else None
  | None => None
  end.

(** [os.Stat(path)]: the permission bits, when the file is there. *)
Definition StatPerm (w : World) (path : string) : option Z :=
  match files w !! path with
  | Some f => Some (mode f)
  | None => None
  end.

(** [os.WriteFile(path, data, perm)]: the world afterwards, and whether the
    call succeeded.  An existing file keeps its mode and gets the new
    bytes; a missing one is created with [perm].  A file that cannot be
    written makes the call fail: at the opening, and nothing changes, or
    after it, and the file is left with a part of the new bytes. *)
Definition WriteFile (w : World) (path data : string) (perm : Z)
    : World * bool :=
  match files w !! path with
  | Some f =>
      if writable f then
        (mkWorld
           (<[path := mkFile data (mode f) (readable f) (writable f)]>
              (files w))
           (index w) (torn w) (git_add w), true)
      else
        match torn w !! path with
        | Some n =>
            (mkWorld
               (<[path := mkFile (slice_to n data) (mode f) (readable f)
                            (writable f)]> (files w))
               (index w) (torn w) (git_add w), false)
        | None => (w, false)
        end
  | None =>
      (mkWorld (<[path := mkFile data perm true true]> (files w))
         (index w) (torn w) (git_add w), true)
  end.

(** [exec.Command("git", "add", arg).Run()] *)
Definition GitAdd (w : World) (arg : string) : option World :=
  match git_add w arg (files w) (index w) with
  | Some staged => Some (mkWorld (files w) staged (torn w) (git_add w))
  | None => None
  end.

End OS.

(** ** Package [ui]: the patch applier and the review session *)

Module UI.

Import Review OS.

(** [type Action int] *)
Inductive Action := ActionCommit | ActionAbort | ActionReReview.

(** [type SessionOutcome struct] *)
Record SessionOutcome := mkOutcome {
  Action_ : Action;
  Fixed : Z;
  Skipped : Z }.

(** [type ReviewSession struct] ([result] is only kept, never read). *)
Record ReviewSession := mkSession {
  current : Z;
  fixed : Z;
  skipped : Z;
  suggestions : list Suggestion;
  skippedMap : gmap Z bool }.

(** [NewReviewSession(result)] *)
Definition NewReviewSession (result : ReviewResult) : ReviewSession :=
  mkSession 0 0 0 (Suggestions result) ∅.

(** [applyFix]: whether the fix was applied, and the world afterwards. *)
Definition applyFix (sug : Suggestion) (w : World) : bool * World :=
  if String.eqb (SuggestFix sug) "" || String.eqb (SuggestFix sug) "N/A" then
    (false, w)
  else if String.eqb (OriginalCode sug) ""
          || String.eqb (OriginalCode sug) "N/A" then
    (false, w)
  else
    match ReadFile w (File sug) with
    | None => (false, w)
    | Some fileContent =>
        if negb (Contains fileContent (OriginalCode sug)) then (false, w)
        else
          let newContent :=
            ReplaceFirst fileContent (OriginalCode sug) (SuggestFix sug) in
          if String.eqb newContent fileContent then (false, w)
          else
            let perm := match StatPerm w (File sug) with
                        | Some p => p
                        | None => 420 (* 0644 *)
                        end in
            match WriteFile w (File sug) newContent perm with
            | (w1, false) => (false, w1)
            | (w1, true) =>
                match GitAdd w1 (File sug) with
                | Some w2 => (true, w2)
                | None => (true, w1)
                end
            end
    end.

(** [bufio.Reader.ReadString('\n')] on the bytes that standard input still
    holds: the line with its line feed, or, when no line feed is left, what
    remains together with an error ([io.EOF]).  Standard input is here a
    file or a pipe, whose end is final; module [Terminal] below has the
    input whose end is not. *)
Fixpoint ReadString (input : string) : string * bool * string :=
  match input with
  | "" => ("", true, "")
  | String c rest =>
      if Ascii.eqb c LF then (nl, false, rest)
      else let '(line, err, rest') := ReadString rest in
           (String c line, err, rest')
  end.

Definition isASCII (c : ascii) : bool := N.ltb (N_of_ascii c) 128.

Fixpoint allASCII (s : string) : bool :=
  match s with
  | "" => true
  | String c s' => isASCII c && allASCII s'
  end.

Definition lowerByte (c : ascii) : ascii :=
  let n := N_of_ascii c in
  if N.leb 65 n && N.leb n 90 then ascii_of_N (n + 32) else c.

Fixpoint lowerASCII (s : string) : string :=
  match s with
  | "" => ""
  | String c s' => String (lowerByte c) (lowerASCII s')
  end.

Section Session.

(** [strings.Map(unicode.ToLower, s)], which [strings.ToLower] falls back on
    for a string that holds a byte outside ASCII.  The Unicode case tables
    are not part of this repository. *)
Variable unicodeToLower : string -> string.

(** [strings.ToLower(s)] *)
Definition ToLower (s : string) : string :=
  if allASCII s then lowerASCII s else unicodeToLower s.

(** [strings.TrimSpace(strings.ToLower(input))] *)
Definition command (input : string) : string := TrimSpace (ToLower input).

Definition is_cmd (input a b : string) : bool :=
  String.eqb (command input) a || String.eqb (command input) b.

(** How the loop of [Run] ends. *)
Inductive LoopEnd :=
  | Returned (o : SessionOutcome) (w : World) (input : string)
  | Finished (s : ReviewSession) (w : World) (input : string)
  | IndexPanic
  | NoFuel.

Definition total (s : ReviewSession) : Z := Z.of_nat (length (suggestions s)).

(** [s.suggestions[s.current]] *)
Definition at_current (s : ReviewSession) : option Suggestion :=
  if current s <? 0 then None else suggestions s !! Z.to_nat (current s).

Definition advance (s : ReviewSession) : ReviewSession :=
  mkSession (int_add (current s) 1) (fixed s) (skipped s) (suggestions s)
    (skippedMap s).

Definition count_fixed (s : ReviewSession) : ReviewSession :=
  mkSession (current s) (int_add (fixed s) 1) (skipped s) (suggestions s)
    (skippedMap s).

(** [s.skipped++; s.skippedMap[s.current] = true] *)
Definition count_skipped (s : ReviewSession) : ReviewSession :=
  mkSession (current s) (fixed s) (int_add (skipped s) 1) (suggestions s)
    (<[current s := true]> (skippedMap s)).

(** [for s.current < total { ... }]: each unit of fuel is one iteration. *)
Fixpoint loop (fuel : nat) (s : ReviewSession) (w : World) (input : string)
    : LoopEnd :=
  match fuel with
  | O => NoFuel
  | S fuel' =>
      if negb (current s <? total s) then Finished s w input
      else
        match at_current s with
        | None => IndexPanic
        | Some suggestion =>
            let '(line, err, input1) := ReadString input in
            if err then loop fuel' (advance s) w input1
            else if is_cmd line "f" "fix" then
              let '(applied, w1) := applyFix suggestion w in
              if applied then loop fuel' (advance (count_fixed s)) w1 input1
              else
                let '(confirm, _, input2) := ReadString input1 in
                if String.eqb (command confirm) "y" then
                  loop fuel' (advance (count_skipped s)) w1 input2
                else loop fuel' s w1 input2
            else if is_cmd line "s" "skip" then
              loop fuel' (advance (count_skipped s)) w input1
            else if is_cmd line "v" "view" then loop fuel' s w input1
            else if is_cmd line "q" "quit" then
              Returned (mkOutcome ActionAbort (fixed s) (skipped s)) w input1
            else loop fuel' s w input1
        end
  end.

(** [printSummary]: [remaining := total - s.fixed - s.skipped] *)
Definition remaining (s : ReviewSession) : Z :=
  wrap (wrap (total s - fixed s) - skipped s).

(** The commit prompt after the loop. *)
Definition decide_commit (s : ReviewSession) (w : World) (input : string)
    : LoopEnd :=
  let '(line, _, input1) := ReadString input in
  if is_cmd line "y" "yes" then
    Returned (mkOutcome ActionCommit (fixed s) (skipped s)) w input1
  else if is_cmd line "r" "re-review" then
    Returned (mkOutcome ActionReReview (fixed s) (skipped s)) w input1
  else Returned (mkOutcome ActionAbort (fixed s) (skipped s)) w input1.

(** Every iteration reads a byte or moves to the next suggestion, so this
    many iterations are enough (see [loop_fuel_enough]). *)
Definition iterations (s : ReviewSession) (input : string) : nat :=
  S (String.length input + Z.to_nat (total s - current s)).

(** [Run] *)
Definition Run (s : ReviewSession) (w : World) (input : string) : LoopEnd :=
  if total s =? 0 then Returned (mkOutcome ActionCommit 0 0) w input
  else
    match loop (iterations s input) s w input with
    | Finished s' w' input' => decide_commit s' w' input'
    | other => other
    end.

End Session.

End UI.

(** ** The review session on a standard input whose end is not final

    [UI.ReadString] takes standard input as the bytes that are still to
    come: once they are read, every further read meets the end of input.
    That is a file or a pipe.  On a terminal the end of input is an event:
    the reader is told so once, [bufio.Reader] hands the error on and
    forgets it, and the next read waits for what is typed next.  Here
    standard input is the list of its parts, an end of input after each;
    after the last part the end is final.  A file or a pipe is a single
    part.  The session is the one of [UI], read from such an input. *)

Module Terminal.

Import Review OS UI.

(** [reader.ReadString('\n')]: a line of the first part; or, when that
    part has no line feed left, what remains of it together with the error
    of the end of input, the reader going on to the next part. *)
Definition ReadString (stdin : list string) : string * bool * list string :=
  match stdin with
  | [] => ("", true, [])
  | part :: more =>
      let '(line, err, rest) := UI.ReadString part in
      if err then (line, true, more) else (line, false, rest :: more)
  end.

(** The bytes still to come, and the ends of input between them. *)
Fixpoint size (stdin : list string) : nat :=
  match stdin with
  | [] => O
  | part :: more => S (String.length part + size more)
  end.

Section Session.

Variable unicodeToLower : string -> string.

(** How the loop of [Run] ends. *)
Inductive LoopEnd :=
  | Returned (o : SessionOutcome) (w : World) (stdin : list string)
  | Finished (s : ReviewSession) (w : World) (stdin : list string)
  | IndexPanic
  | NoFuel.

(** [for s.current < total { ... }]: each unit of fuel is one iteration. *)
Fixpoint loop (fuel : nat) (s : ReviewSession) (w : World)
    (stdin : list string) : LoopEnd :=
  match fuel with
  | O => NoFuel
  | S fuel' =>
      if negb (current s <? total s) then Finished s w stdin
      else
        match at_current s with
        | None => IndexPanic
        | Some suggestion =>
            let '(line, err, stdin1) := ReadString stdin in
            if err then loop fuel' (advance s) w stdin1
            else if is_cmd unicodeToLower line "f" "fix" then
              let '(applied, w1) := applyFix suggestion w in
              if applied then loop fuel' (advance (count_fixed s)) w1 stdin1
              else
                let '(confirm, _, stdin2) := ReadString stdin1 in
                if String.eqb (command unicodeToLower confirm) "y" then
                  loop fuel' (advance (count_skipped s)) w1 stdin2
                else loop fuel' s w1 stdin2
            else if is_cmd unicodeToLower line "s" "skip" then
              loop fuel' (advance (count_skipped s)) w stdin1
            else if is_cmd unicodeToLower line "v" "view" then
              loop fuel' s w stdin1
            else if is_cmd unicodeToLower line "q" "quit" then
              Returned (mkOutcome ActionAbort (fixed s) (skipped s)) w stdin1
            else loop fuel' s w stdin1
        end
  end.

(** The commit prompt after the loop. *)
Definition decide_commit (s : ReviewSession) (w : World)
    (stdin : list string) : LoopEnd :=
  let '(line, _, stdin1) := ReadString stdin in
  if is_cmd unicodeToLower line "y" "yes" then
    Returned (mkOutcome ActionCommit (fixed s) (skipped s)) w stdin1
  else if is_cmd unicodeToLower line "r" "re-review" then
    Returned (mkOutcome ActionReReview (fixed s) (skipped s)) w stdin1
  else Returned (mkOutcome ActionAbort (fixed s) (skipped s)) w stdin1.

(** Every iteration reads a byte, meets an end of input or moves to the
    next suggestion, so this many iterations are enough. *)
Definition iterations (s : ReviewSession) (stdin : list string) : nat :=
  S (size stdin + Z.to_nat (total s - current s)).

(** [Run] *)
Definition Run (s : ReviewSession) (w : World) (stdin : list string)
    : LoopEnd :=
  if total s =? 0 then Returned (mkOutcome ActionCommit 0 0) w stdin
  else
    match loop (iterations s stdin) s w stdin with
    | Finished s' w' stdin' => decide_commit s' w' stdin'
    | other => other
    end.

End Session.

End Terminal.

(** ** Package [cmd]: the change filter of [runReview] *)

Module Cmd.

Import Git.

(** [const DefaultMaxFileSize int64 = 100000] *)
Definition DefaultMaxFileSize : Z := 100000.

(** [filepath.ToSlash] where the separator is the slash (every system but
    Windows): the identity. *)
Definition ToSlash (path : string) : string := path.

Definition SLASH : ascii := "047"%char.

(** Bytes of [s], reversed, without the leading run of slashes. *)
Fixpoint dropSlashes (l : list ascii) : list ascii :=
  match l with
  | c :: r => if Ascii.eqb c SLASH then dropSlashes r else l
  | [] => []
  end.

(** The bytes up to the first slash. *)
Fixpoint uptoSlash (l : list ascii) : list ascii :=
  match l with
  | c :: r => if Ascii.eqb c SLASH then [] else c :: uptoSlash r
  | [] => []
  end.

(** [filepath.Base(path)], same systems: ["."] for the empty path, the last
    element once trailing slashes are gone, ["/"] for a path of slashes. *)
Definition Base (path : string) : string :=
  if String.eqb path "" then "."
  else
    let stripped := dropSlashes (rev (list_ascii_of_string path)) in
    let last := string_of_list_ascii (rev (uptoSlash stripped)) in
    if String.eqb last "" then "/" else last.

(** What the filter prints when [verbose] is set. *)
Inductive LogLine :=
  | InvalidPattern (pattern : string)
  | SkippingIgnored (path : string)
  | SkippingLarge (path : string) (size : Z).

Section Filter.

(** [filepath.Match(pattern, name)]: whether the name matches the shell
    pattern, and whether the pattern was reported malformed
    ([ErrBadPattern]).  The matcher belongs to Go's library; the filter is
    modelled for any matcher. *)
Variable Match : string -> string -> bool * bool.

(** [viper.GetBool("verbose")] *)
Variable verbose : bool.

Definition warn (err : bool) (pattern : string) : list LogLine :=
  if err && verbose then [InvalidPattern pattern] else [].

(** The two textual rules for directories: a pattern [dir/*], and a pattern
    [**/dir/*] or [**/glob]. *)
Definition dirRule (normalizedPattern normalizedPath : string) : bool :=
  HasSuffix normalizedPattern "/*"
  && (let dir := slice_to (len normalizedPattern - 2) normalizedPattern in
      HasPrefix normalizedPath (dir +:+ "/")
      || Contains normalizedPath ("/" +:+ dir +:+ "/")).

Definition starRule (normalizedPattern normalizedPath baseName pattern : string)
    : bool * list LogLine :=
  if Contains normalizedPattern "**" && HasPrefix normalizedPattern "**/" then
    let suffix := slice_from 3 normalizedPattern in
    if HasSuffix suffix "/*" then
      let dir := slice_to (len suffix - 2) suffix in
      (Contains normalizedPath ("/" +:+ dir +:+ "/")
       || HasPrefix normalizedPath (dir +:+ "/"), [])
    else
      let '(matched, err) := Match suffix baseName in
      (matched, warn err pattern)
  else (false, []).

(** The body of the loop of [shouldIgnoreFile] for one pattern: whether it
    returns [true], and what it prints. *)
Definition patternIgnores (normalizedPath baseName pattern : string)
    : bool * list LogLine :=
  let normalizedPattern := ToSlash pattern in
  let '(matched1, err1) := Match normalizedPattern normalizedPath in
  if matched1 then (true, warn err1 pattern)
  else
    let '(matched2, err2) := Match normalizedPattern baseName in
    if matched2 then (true, warn err1 pattern ++ warn err2 pattern)
    else if dirRule normalizedPattern normalizedPath then
      (true, warn err1 pattern ++ warn err2 pattern)
    else
      let '(hit, out) :=
        starRule normalizedPattern normalizedPath baseName pattern in
      (hit, warn err1 pattern ++ warn err2 pattern ++ out).

Fixpoint ignoreLoop (normalizedPath baseName : string) (patterns : list string)
    : bool * list LogLine :=
  match patterns with
  | [] => (false, [])
  | pattern :: rest =>
      let '(hit, out) := patternIgnores normalizedPath baseName pattern in
      if hit then (true, out)
      else let '(hit', out') := ignoreLoop normalizedPath baseName rest in
           (hit', out ++ out')
  end.

(** [shouldIgnoreFile(filePath, patterns)] *)
Definition shouldIgnoreFile (filePath : string) (patterns : list string)
    : bool * list LogLine :=
  ignoreLoop (ToSlash filePath) (Base filePath) patterns.

(** [maxFileSize := viper.GetInt64("max_file_size")], with its default. *)
Definition maxFileSize (configured : Z) : Z :=
  if configured =? 0 then DefaultMaxFileSize else configured.

(** The filtering loop of [runReview]: the changes kept, and what is
    printed. *)
Fixpoint filterLoop (ignorePatterns : list string) (maxSize : Z)
    (changes : list FileChange) : list FileChange * list LogLine :=
  match changes with
  | [] => ([], [])
  | change :: rest =>
      let '(ignored, out) := shouldIgnoreFile (Path change) ignorePatterns in
      let '(kept, out') := filterLoop ignorePatterns maxSize rest in
      if ignored then
        (kept, out ++ (if verbose then [SkippingIgnored (Path change)] else [])
               ++ out')
      else if Z.of_nat (len (Content change)) >? maxSize then
        (kept, out ++ (if verbose
                       then [SkippingLarge (Path change)
                               (Z.of_nat (len (Content change)))]
                       else [])
               ++ out')
      else (change :: kept, out ++ out')
  end.

(** Lines 54 to 78 of [runReview]. *)
Definition filterChanges (ignorePatterns : list string) (configuredMax : Z)
    (changes : list FileChange) : list FileChange * list LogLine :=
  filterLoop ignorePatterns (maxFileSize configuredMax) changes.

End Filter.

End Cmd.

(** ** Package [copilot]: the model names *)

Module Copilot.

Section Names.

(** The Unicode part of [strings.ToLower], as in the session. *)
Variable unicodeToLower : string -> string.

(** [mapModelName(model)]: the [switch] on [strings.ToLower(model)], its
    cases in the order of the source, then the default. *)
Definition mapModelName (model : string) : string :=
  let m := UI.ToLower unicodeToLower model in
  if String.eqb m "gpt-4" || String.eqb m "gpt4" || String.eqb m "gpt-4o" then
    "gpt-4o"
  else if String.eqb m "gpt-4o-mini" || String.eqb m "gpt-4-mini" then
    "gpt-4o-mini"
  else if String.eqb m "gpt-4.1" then
    "gpt-4.1"
  else if String.eqb m "gpt-5" then
    "gpt-5"
  else if String.eqb m "gpt-5-mini" then
    "gpt-5-mini"
  else if String.eqb m "gpt-5.1" then
    "gpt-5.1"
  else if String.eqb m "gpt-5.2" then
    "gpt-5.2"
  else if String.eqb m "o1" || String.eqb m "o1-preview" then
    "o1-preview"
  else if String.eqb m "o1-mini" then
    "o1-mini"
  else if String.eqb m "claude" || String.eqb m "claude-sonnet"
          || String.eqb m "claude-sonnet-4" then
    "claude-sonnet-4"
  else if String.eqb m "claude-sonnet-4.5" then
    "claude-sonnet-4.5"
  else if String.eqb m "claude-opus" || String.eqb m "claude-opus-4.5" then
    "claude-opus-4.5"
  else if String.eqb m "claude-haiku" || String.eqb m "claude-haiku-4.5" then
    "claude-haiku-4.5"
  else if String.eqb m "gemini" || String.eqb m "gemini-2.5-pro" then
    "gemini-2.5-pro"
  else if String.eqb m "gemini-3-flash" then
    "gemini-3-flash"
  else if String.eqb m "gemini-3-pro" then
    "gemini-3-pro"
  else if String.eqb m "grok" || String.eqb m "grok-code-fast" then
    "grok-code-fast-1"
  else "gpt-4o-mini".

End Names.

End Copilot.

(** ** Package [git]: the staged changes *)

Module GitStaged.

Import Git.

(** [strings.Fields(s)]: the maximal runs of bytes between white space, as
    [unicode.IsSpace] defines it.  As for [TrimSpace], a rune is white space
    exactly when the bytes at hand are its encoding; a byte that starts no
    such encoding belongs to a field.  [cur] holds the bytes of the field
    being read, last byte first. *)
Definition emit (cur : list ascii) : list string :=
  match cur with
  | [] => []
  | _ => [string_of_list_ascii (rev cur)]
  end.

Fixpoint fieldsFrom (cur : list ascii) (l : list ascii) : list string :=
  match l with
  | [] => emit cur
  | c :: r =>
      if asciiSpace c then emit cur ++ fieldsFrom [] r
      else match r with
           | d :: r2 =>
               if isb c 194 && (isb d 133 || isb d 160) then
                 emit cur ++ fieldsFrom [] r2
               else match r2 with
                    | e :: r3 =>
                        if (isb c 225 && isb d 154 && isb e 128)
                           || (isb c 226 && isb d 128 && e280_space e)
                           || (isb c 226 && isb d 129 && isb e 159)
                           || (isb c 227 && isb d 128 && isb e 128)
                        then emit cur ++ fieldsFrom [] r3
                        else fieldsFrom (c :: cur) r
                    | [] => fieldsFrom (c :: cur) r
                    end
           | [] => fieldsFrom (c :: cur) r
           end
  end.

Definition Fields (s : string) : list string :=
  fieldsFrom [] (list_ascii_of_string s).

(** [filepath.Ext(path)], where the separator is the slash: the path from
    the last dot of its last element on, or nothing.  [l] is the path read
    from its end, [acc] what has been read. *)
Fixpoint extFrom (l : list ascii) (acc : list ascii) : list ascii :=
  match l with
  | [] => []
  | c :: r =>
      if Ascii.eqb c Cmd.SLASH then []
      else if Ascii.eqb c "."%char then c :: acc
      else extFrom r (c :: acc)
  end.

Definition Ext (path : string) : string :=
  string_of_list_ascii (extFrom (rev (list_ascii_of_string path)) []).

Definition binaryExtensions : list string :=
  [".png"; ".jpg"; ".jpeg"; ".gif"; ".ico"; ".webp";
   ".pdf"; ".zip"; ".tar"; ".gz"; ".exe"; ".dll";
   ".so"; ".dylib"; ".woff"; ".woff2"; ".ttf"; ".eot"].

Definition TAB : string := String "009"%char "".

Section Staged.

(** The Unicode part of [strings.ToLower]. *)
Variable unicodeToLower : string -> string.

(** What git answers, for a path: the output of
    [git diff --cached --numstat -- path], of
    [git diff --cached -- path] and of [git show :path];
    [None] stands for a command that fails. *)
Variable numstat : string -> option string.
Variable stagedDiff : string -> option string.
Variable stagedContent : string -> option string.

(** [isBinaryFile(path)] *)
Definition isBinaryFile (path : string) : bool :=
  let ext := UI.ToLower unicodeToLower (Ext path) in
  if existsb (String.eqb ext) binaryExtensions then true
  else match numstat path with
       | None => false
       | Some output => HasPrefix output ("-" +:+ TAB +:+ "-" +:+ TAB)
       end.

(** [getStagedDiff(path)], [getStagedContent(path)] *)
Definition getStagedDiff (path : string) : option string := stagedDiff path.
Definition getStagedContent (path : string) : option string :=
  stagedContent path.

(** The body of the loop of [GetStagedChanges] for one line: the change it
    appends, or [None] where it goes on to the next line. *)
Definition stagedChange (line : string) : option FileChange :=
  if String.eqb line "" then None
  else
    match Fields line with
    | p0 :: p1 :: rest =>
        let parts := p0 :: p1 :: rest in
        let status0 := p0 in
        let path0 := List.last parts "" in
        let '(status, oldPath, path) :=
          if HasPrefix status0 "R" then
            match rest with
            | p2 :: _ => ("R", p1, p2)
            | [] => ("R", "", path0)
            end
          else (status0, "", path0) in
        if String.eqb status "D" then None
        else
          let binary := isBinaryFile path in
          if binary then Some (mkFileChange path status oldPath "" "" true)
          else
            let diff := match getStagedDiff path with
                        | Some d => d
                        | None => ""
                        end in
            let content := match getStagedContent path with
                           | Some c => c
                           | None => ""
                           end in
            Some (mkFileChange path status oldPath diff content false)
    | _ => None
    end.

Fixpoint stagedLoop (lines : list string) : list FileChange :=
  match lines with
  | [] => []
  | line :: rest =>
      match stagedChange line with
      | Some change => change :: stagedLoop rest
      | None => stagedLoop rest
      end
  end.

(** [GetStagedChanges()], for what [git diff --cached --name-status]
    gives: its output, or the text of its error. *)
Definition GetStagedChanges (nameStatus : string + string)
    : GoResult (list FileChange) :=
  match nameStatus with
  | inr err => Err ("failed to get staged files: " +:+ err)
  | inl output =>
      if (len output =? 0)%nat then Ok []
      else Ok (stagedLoop (SplitLF (TrimSpace output)))
  end.

End Staged.

End GitStaged.

(** ** Package [standards]: the detection of coding standards *)

Module Standards.

(** [type CodingStandard struct] *)
Record CodingStandard := mkStandard {
  Name : string;
  Type_ : string;
  ConfigFile : string;
  Description : string;
  Rules : list string }.

(** [var KnownStandards = map[string]CodingStandard{...}]: the entries of
    the map, in the order of the source.  (A Go map has no order; see
    [DetectStandards].) *)
Definition KnownStandards : list (string * CodingStandard) :=
  [
   (".eslintrc",
    mkStandard "ESLint" "linter" "" "JavaScript/TypeScript linting rules" []);
   (".eslintrc.js",
    mkStandard "ESLint" "linter" "" "JavaScript/TypeScript linting rules" []);
   (".eslintrc.json",
    mkStandard "ESLint" "linter" "" "JavaScript/TypeScript linting rules" []);
   (".eslintrc.yaml",
    mkStandard "ESLint" "linter" "" "JavaScript/TypeScript linting rules" []);
   (".eslintrc.yml",
    mkStandard "ESLint" "linter" "" "JavaScript/TypeScript linting rules" []);
   ("eslint.config.js",
    mkStandard "ESLint" "linter" "" "JavaScript/TypeScript linting rules (flat config)" []);
   ("eslint.config.mjs",
    mkStandard "ESLint" "linter" "" "JavaScript/TypeScript linting rules (flat config)" []);
   (".prettierrc",
    mkStandard "Prettier" "formatter" "" "Code formatting rules" []);
   (".prettierrc.json",
    mkStandard "Prettier" "formatter" "" "Code formatting rules" []);
   (".prettierrc.js",
    mkStandard "Prettier" "formatter" "" "Code formatting rules" []);
   ("prettier.config.js",
    mkStandard "Prettier" "formatter" "" "Code formatting rules" []);
   ("biome.json",
    mkStandard "Biome" "linter" "" "JavaScript/TypeScript linting and formatting" []);
   ("biome.jsonc",
    mkStandard "Biome" "linter" "" "JavaScript/TypeScript linting and formatting" []);
   ("phpcs.xml",
    mkStandard "PHP_CodeSniffer" "linter" "" "PHP coding standards" []);
   ("phpcs.xml.dist",
    mkStandard "PHP_CodeSniffer" "linter" "" "PHP coding standards" []);
   (".php-cs-fixer.php",
    mkStandard "PHP-CS-Fixer" "formatter" "" "PHP code style fixer" []);
   (".php-cs-fixer.dist.php",
    mkStandard "PHP-CS-Fixer" "formatter" "" "PHP code style fixer" []);
   ("phpstan.neon",
    mkStandard "PHPStan" "analyzer" "" "PHP static analysis" []);
   ("phpstan.neon.dist",
    mkStandard "PHPStan" "analyzer" "" "PHP static analysis" []);
   ("psalm.xml",
    mkStandard "Psalm" "analyzer" "" "PHP static analysis" []);
   ("pyproject.toml",
    mkStandard "Python Project" "config" "" "Python project configuration (may include ruff, black, mypy settings)" []);
   (".flake8",
    mkStandard "Flake8" "linter" "" "Python style guide enforcement" []);
   (".pylintrc",
    mkStandard "Pylint" "linter" "" "Python code analysis" []);
   ("pylintrc",
    mkStandard "Pylint" "linter" "" "Python code analysis" []);
   (".mypy.ini",
    mkStandard "Mypy" "type-checker" "" "Python static type checker" []);
   ("mypy.ini",
    mkStandard "Mypy" "type-checker" "" "Python static type checker" []);
   ("ruff.toml",
    mkStandard "Ruff" "linter" "" "Fast Python linter" []);
   (".ruff.toml",
    mkStandard "Ruff" "linter" "" "Fast Python linter" []);
   (".golangci.yml",
    mkStandard "golangci-lint" "linter" "" "Go linters aggregator" []);
   (".golangci.yaml",
    mkStandard "golangci-lint" "linter" "" "Go linters aggregator" []);
   ("golangci.yml",
    mkStandard "golangci-lint" "linter" "" "Go linters aggregator" []);
   (".rubocop.yml",
    mkStandard "RuboCop" "linter" "" "Ruby static code analyzer" []);
   (".rubocop.yaml",
    mkStandard "RuboCop" "linter" "" "Ruby static code analyzer" []);
   ("rustfmt.toml",
    mkStandard "rustfmt" "formatter" "" "Rust code formatting" []);
   (".rustfmt.toml",
    mkStandard "rustfmt" "formatter" "" "Rust code formatting" []);
   ("clippy.toml",
    mkStandard "Clippy" "linter" "" "Rust linting" []);
   (".editorconfig",
    mkStandard "EditorConfig" "editor" "" "Cross-editor coding style settings" []);
   (".stylelintrc",
    mkStandard "Stylelint" "linter" "" "CSS/SCSS linting rules" []);
   (".stylelintrc.json",
    mkStandard "Stylelint" "linter" "" "CSS/SCSS linting rules" []);
   ("stylelint.config.js",
    mkStandard "Stylelint" "linter" "" "CSS/SCSS linting rules" [])
  ].

(** [var FrameworkIndicators = map[string]CodingStandard{...}] *)
Definition FrameworkIndicators : list (string * CodingStandard) :=
  [
   ("wp-config.php",
    mkStandard "WordPress" "framework" "" "WordPress Coding Standards (WPCS)" []);
   ("wp-content",
    mkStandard "WordPress" "framework" "" "WordPress Coding Standards (WPCS)" []);
   ("artisan",
    mkStandard "Laravel" "framework" "" "Laravel/PSR coding standards" []);
   ("composer.json",
    mkStandard "Composer/PHP" "package-manager" "" "PHP project - check for framework-specific standards" []);
   ("package.json",
    mkStandard "Node.js" "package-manager" "" "Node.js project - check for eslint/prettier configs" []);
   ("Gemfile",
    mkStandard "Ruby/Rails" "package-manager" "" "Ruby project - check for rubocop config" []);
   ("Cargo.toml",
    mkStandard "Rust" "package-manager" "" "Rust project - rustfmt and clippy standards" []);
   ("go.mod",
    mkStandard "Go" "package-manager" "" "Go project - gofmt and effective go standards" []);
   ("requirements.txt",
    mkStandard "Python" "package-manager" "" "Python project - PEP8 standards" []);
   ("setup.py",
    mkStandard "Python" "package-manager" "" "Python project - PEP8 standards" [])
  ].

(** [std := standard; std.ConfigFile = filename] *)
Definition set_ConfigFile (v : string) (s : CodingStandard) : CodingStandard :=
  mkStandard (Name s) (Type_ s) v (Description s) (Rules s).

Definition wpIndicators : list string :=
  ["wp-config.php"; "wp-content"; "wp-includes"; "wp-admin"; "style.css"].

Section Detect.

(** Whether [os.Stat(filepath.Join(d.repoRoot, name))] succeeds. *)
Variable present : string -> bool.

(** What the two header checks of [isWordPressProject] answer: whether
    [style.css] can be opened and holds [Theme Name:] in its first 8192
    bytes, and whether one of the first fifty [*.php] files of the root
    holds [Plugin Name:] there. *)
Variable themeHeader : bool.
Variable pluginHeader : bool.

(** The order in which [range] yields the entries of the two maps, which
    Go leaves open. *)
Variable knownOrder : list (string * CodingStandard).
Variable frameworkOrder : list (string * CodingStandard).

(** The loop over [wpIndicators], from the [count] so far. *)
Fixpoint countLoop (names : list string) (count : Z) : Z :=
  match names with
  | [] => count
  | name :: rest =>
      countLoop rest (if present name then int_add count 1 else count)
  end.

(** [isWordPressProject()] *)
Definition isWordPressProject : bool :=
  let count := countLoop wpIndicators 0 in
  if count =? 0 then
    if themeHeader then true
    else if pluginHeader then true
    else count >=? 2
  else count >=? 2.

(** The local variables [standards] and [seen] of [DetectStandards]. *)
Definition Found : Type := list CodingStandard * gset string.

Fixpoint customLoop (customs : list string) (acc : Found) : Found :=
  match customs with
  | [] => acc
  | customFile :: rest =>
      if present customFile then
        let std := mkStandard (Cmd.Base customFile) "custom" customFile
                     "User-specified coding standard configuration" [] in
        customLoop rest (fst acc ++ [std], {[Name std]} ∪ snd acc)
      else customLoop rest acc
  end.

Fixpoint knownLoop (entries : list (string * CodingStandard)) (acc : Found)
    : Found :=
  match entries with
  | [] => acc
  | (filename, standard) :: rest =>
      if bool_decide (Name standard ∈ snd acc) then knownLoop rest acc
      else if present filename then
        let std := set_ConfigFile filename standard in
        knownLoop rest (fst acc ++ [std], {[Name std]} ∪ snd acc)
      else knownLoop rest acc
  end.

Fixpoint frameworkLoop (entries : list (string * CodingStandard))
    (acc : Found) : Found :=
  match entries with
  | [] => acc
  | (indicator, framework) :: rest =>
      if bool_decide (Name framework ∈ snd acc) then frameworkLoop rest acc
      else if present indicator then
        if String.eqb (Name framework) "WordPress" then
          if isWordPressProject then
            frameworkLoop rest
              (fst acc ++ [framework], {[Name framework]} ∪ snd acc)
          else frameworkLoop rest acc
        else
          frameworkLoop rest
            (fst acc ++ [framework], {[Name framework]} ∪ snd acc)
      else frameworkLoop rest acc
  end.

(** [DetectStandards()] *)
Definition DetectStandards (customStandards : list string)
    : list CodingStandard :=
  fst (frameworkLoop frameworkOrder
         (knownLoop knownOrder (customLoop customStandards ([], ∅)))).

End Detect.

End Standards.

(** * Notions and inputs of the statements *)

Module StringNotions.

(** The substring relation, and the first place where it holds. *)
Definition occurs (sub s : string) : Prop :=
  exists pre post, s = pre +:+ sub +:+ post.

Definition first_occurrence (sub s pre post : string) : Prop :=
  s = pre +:+ sub +:+ post
  /\ forall pre' post', s = pre' +:+ sub +:+ post' ->
                        (String.length pre <= String.length pre')%nat.

End StringNotions.

Module ParserNotions.

Import Review.

(** A block is only ever open inside a record. *)
Definition wf (st : ParserState) : Prop :=
  inMultiLine st = true -> exists c, current st = Some c.

Ltac split_ifs :=
  repeat match goal with
         | |- context [if ?b then _ else _] => destruct b eqn:?
         end.

(** One record in the format the prompt documents. *)
Definition roundtrip_reply : string :=
"---
LINE: 10
END_LINE: 12
SEVERITY: warning
CONFIDENCE: medium
CATEGORY: bug
TITLE: t
DESCRIPTION: d
ORIGINAL:
<<<
foo
bar
>>>
FIX:
<<<
foo
baz
>>>
---".

Definition roundtrip_suggestion (file : string) : Suggestion :=
  mkSuggestion file 10 12 "warning" "medium" "t" "d"
    ("foo" +:+ nl +:+ "bar") ("foo" +:+ nl +:+ "baz") "bug".

(** A record without its TITLE field, then one with it. *)
Definition untitled_reply : string :=
"---
LINE: 3
SEVERITY: info
DESCRIPTION: d
---
LINE: 4
TITLE: kept".

(** A record whose LINE value is not a number. *)
Definition bad_line_reply : string :=
"---
LINE: abc
TITLE: t".

(** A record without END_LINE, and one whose END_LINE is below LINE. *)
Definition no_end_line_reply : string :=
"---
LINE: 10
TITLE: t".

Definition low_end_line_reply : string :=
"---
LINE: 10
END_LINE: 3
TITLE: t".

(** The record that a closed block leaves behind: the joined lines go to
    the remembered field, and nothing goes anywhere when none is remembered. *)
Definition writeField (field content : string) (c : Suggestion) : Suggestion :=
  if String.eqb field "ORIGINAL" then set_OriginalCode content c
  else if String.eqb field "FIX" then set_SuggestFix content c
  else c.

(** What follows the separator in a record: a line read outside a block,
    or a whole block, from [<<<] to [>>>]. *)
Inductive Item :=
  | Plain (line : string)
  | Block (body : list string).

Definition item_lines (it : Item) : list string :=
  match it with
  | Plain line => [line]
  | Block body => "<<<" :: body ++ [">>>"]
  end.

Fixpoint items_lines (items : list Item) : list string :=
  match items with
  | [] => []
  | it :: rest => item_lines it ++ items_lines rest
  end.

(** A line outside a block neither starts a record nor opens a block; no
    line inside a block closes it. *)
Definition item_ok (it : Item) : Prop :=
  match it with
  | Plain line => line <> "---" /\ line <> "<<<"
  | Block body => Forall (fun l => l <> ">>>") body
  end.

(** The field that the lines of a record name: that of the last line
    outside a block that starts with [ORIGINAL:] or [FIX:]; [lf] when there
    is no such line. *)
Fixpoint remembered_from (lf : string) (items : list Item) : string :=
  match items with
  | [] => lf
  | Plain line :: rest =>
      remembered_from
        (if hasPrefix line "ORIGINAL:" then "ORIGINAL"
         else if hasPrefix line "FIX:" then "FIX" else lf)
        rest
  | Block _ :: rest => remembered_from lf rest
  end.

(** For a record, from its separator on: nothing at first. *)
Definition remembered (items : list Item) : string :=
  remembered_from "" items.

(** A block opened after a TITLE line, with no ORIGINAL or FIX line before
    it in the record; and a block opened two lines after ORIGINAL. *)
Definition stray_block_reply : string :=
"---
TITLE: t
<<<
LINE: 5
>>>
LINE: 7".

Definition late_block_reply : string :=
"---
ORIGINAL:
TITLE: t
<<<
x
>>>".

(** A reply that stops inside its FIX block. *)
Definition unclosed_reply : string :=
"---
TITLE: t
FIX: old
<<<
new
LINE: 5".

End ParserNotions.

Module PatchNotions.

Import Review OS UI.

(** The file of the example: three lines, the middle one to be replaced. *)
Definition example_file : FileEntry :=
  mkFile ("abc" +:+ nl +:+ "foo" +:+ nl +:+ "xyz") 420 true true.

(** [git add] as it answers for the plain path of a file that is there, in
    a repository without filters: it stages the content of the file. *)
Definition plain_add (arg : string) (fs : gmap string FileEntry)
    (staged : gmap string string) : option (gmap string string) :=
  match fs !! arg with
  | Some f => Some (<[arg := content f]> staged)
  | None => None
  end.

Definition example_world : World :=
  mkWorld {[ "a.txt" := example_file ]} ∅ ∅ plain_add.


Definition example_fix (original : string) : Suggestion :=
  mkSuggestion "a.txt" 2 2 "warning" "high" "t" "d" original "bar" "bug".

End PatchNotions.

Module SessionNotions.

Import Review OS UI.

(** What the user types: the two answers of the trace, and the answers to
    the prompts. *)
Definition typed_fix_skip : string :=
"fix
skip
".

Definition typed_yes : string :=
"yes
".

Definition typed_quit : string :=
"quit
".

Definition typed_q : string :=
"q
".

(** The session over two suggestions, as [NewReviewSession] builds it. *)
Definition two (s1 s2 : Suggestion) : ReviewSession :=
  NewReviewSession (mkReviewResult [File s1; File s2] [s1; s2] "").

End SessionNotions.

Module ReviewerNotions.

Import Review.

Section WithClientState.

Variable ClientState : Type.

(** The result of the rest of the batch, with one more file in front. *)
Definition prepend (path : string) (sugs : list Suggestion)
    (rest : GoResult (ReviewResult * ClientState))
    : GoResult (ReviewResult * ClientState) :=
  match rest with
  | Ok (result, cs) =>
      Ok (mkReviewResult (path :: Files result) (sugs ++ Suggestions result)
            (Summary result), cs)
  | Err e => Err e
  | Panic => Panic
  end.

End WithClientState.

Arguments prepend {ClientState} path sugs rest.

(** The prompt that [reviewFile] sends for a change. *)
Definition prompt_of (r : Reviewer) (change : Git.FileChange) : string :=
  buildReviewPrompt change (standardsContext r) (projectHints r) (tolerance r).

End ReviewerNotions.

Module FilterNotions.

Import Git Cmd.

(** A matcher that answers as Go's does on the pattern [[/*]: a character
    class that is never closed is reported malformed (and unmatched)
    whatever the name is.  Every other pattern is taken as not matching. *)
Definition unclosed_class_matcher (pattern name : string) : bool * bool :=
  if String.eqb pattern "[/*" then (false, true) else (false, false).

Definition bracket_change : FileChange :=
  mkFileChange "[/x.go" "M" "" "" "package x" false.

Definition small_change : FileChange :=
  mkFileChange "main.go" "M" "" "" "hello" false.

(** Whether a pattern makes [shouldIgnoreFile] answer [true], the printing
    left aside: one of the two glob tests, or one of the directory rules. *)
Definition patternHit (Match : string -> string -> bool * bool)
    (normalizedPath baseName pattern : string) : bool :=
  let p := ToSlash pattern in
  fst (Match p normalizedPath)
  || fst (Match p baseName)
  || dirRule p normalizedPath
  || (Contains p "**" && HasPrefix p "**/"
      && (let suffix := slice_from 3 p in
          if HasSuffix suffix "/*" then
            let dir := slice_to (len suffix - 2) suffix in
            Contains normalizedPath ("/" +:+ dir +:+ "/")
            || HasPrefix normalizedPath (dir +:+ "/")
          else fst (Match suffix baseName))).

(** The test that keeps a change. *)
Definition keeps (Match : string -> string -> bool * bool)
    (patterns : list string) (maxSize : Z) (change : FileChange) : bool :=
  negb (existsb (patternHit Match (ToSlash (Path change)) (Base (Path change)))
          patterns)
  && negb (Z.of_nat (len (Content change)) >? maxSize).

End FilterNotions.

Module RecordNotions.

Import Review.

(** No line feed in the string. *)
Fixpoint noLF (s : string) : bool :=
  match s with
  | "" => true
  | String c s' => negb (Ascii.eqb c LF) && noLF s'
  end.

(** A value as it stands after a field name: on one line, with no white
    space around it. *)
Definition field_value (v : string) : Prop :=
  noLF v = true /\ TrimSpace v = v.

(** A text that can stand in a block: none of its lines closes the block. *)
Definition block_text (t : string) : Prop :=
  Forall (fun l => l <> ">>>") (SplitLF t).

(** The lines of one record in the format that [buildReviewPrompt] asks
    for, the two line numbers given as the texts [line] and [endLine]. *)
Definition record_lines (line endLine : string) (s : Suggestion)
    : list string :=
  ["---";
   "LINE: " +:+ line;
   "END_LINE: " +:+ endLine;
   "SEVERITY: " +:+ Severity s;
   "CONFIDENCE: " +:+ Confidence s;
   "CATEGORY: " +:+ Category s;
   "TITLE: " +:+ Title s;
   "DESCRIPTION: " +:+ Description s;
   "ORIGINAL:";
   "<<<"]
  ++ SplitLF (OriginalCode s)
  ++ [">>>"; "FIX:"; "<<<"]
  ++ SplitLF (SuggestFix s)
  ++ [">>>"; "---"].

(** The bytes a numeral is made of: a sign or a decimal digit. *)
Definition numc (c : ascii) : bool :=
  isb c 45 || isb c 43 || match digit c with Some _ => true | None => false end.

(** Such a byte is no white space and no part of the encoding of one. *)
Definition plain (c : ascii) : Prop :=
  asciiSpace c = false /\ Ascii.eqb c LF = false
  /\ isb c 194 = false /\ isb c 225 = false /\ isb c 226 = false
  /\ isb c 227 = false /\ isb c 133 = false /\ isb c 160 = false
  /\ isb c 128 = false /\ isb c 159 = false /\ e280_space c = false.

(** What the parser needs of a record to give it back: the two numerals
    read as the two line numbers, the one-line fields are values, the title
    is not empty, and no line of the two code texts closes a block. *)
Definition writable (file : string) (r : string * string * Suggestion) : Prop :=
  let '(line, endLine, s) := r in
  File s = file
  /\ Atoi line = Some (Line s) /\ Atoi endLine = Some (EndLine s)
  /\ field_value (Severity s) /\ field_value (Confidence s)
  /\ field_value (Category s) /\ field_value (Title s)
  /\ field_value (Description s) /\ Title s <> ""
  /\ block_text (OriginalCode s) /\ block_text (SuggestFix s).

Definition lines_of (r : string * string * Suggestion) : list string :=
  let '(line, endLine, s) := r in record_lines line endLine s.

(** The reply that lists the records one after the other. *)
Definition reply_of (rs : list (string * string * Suggestion)) : string :=
  JoinLF (concat (map lines_of rs)).

End RecordNotions.

Module AccountNotions.

Import Review UI.

(** An end of input has been met since standard input was [stdin0]: a
    part is gone, or none is left. *)
Definition spent (stdin0 stdin : list string) : Prop :=
  (length stdin < length stdin0)%nat \/ stdin = [].

(** Every suggestion passed so far has been counted once. *)
Definition counted (s : ReviewSession) : Prop :=
  0 <= fixed s /\ 0 <= skipped s
  /\ fixed s + skipped s = current s /\ current s <= total s.

(** The session goes through the suggestions [L]; no part of standard
    input comes back; and either an end of input has been met, or every
    suggestion passed so far has been counted once. *)
Definition accounted (L : list Suggestion) (stdin0 : list string)
    (s : ReviewSession) (stdin : list string) : Prop :=
  suggestions s = L
  /\ (length stdin <= length stdin0)%nat
  /\ (spent stdin0 stdin \/ counted s).

(** The bytes still to come, as parts: one part, or nothing after its
    end. *)
Definition as_parts (input : string) (stdin : list string) : Prop :=
  stdin = [input] \/ (input = "" /\ stdin = []).

(** The loop on the bytes and the loop on the parts end alike. *)
Definition ends_alike (e : UI.LoopEnd) (t : Terminal.LoopEnd) : Prop :=
  match e with
  | UI.Returned o w input =>
      exists stdin, t = Terminal.Returned o w stdin /\ as_parts input stdin
  | UI.Finished s w input =>
      exists stdin, t = Terminal.Finished s w stdin /\ as_parts input stdin
  | UI.IndexPanic => t = Terminal.IndexPanic
  | UI.NoFuel => True
  end.

End AccountNotions.

Module BoundNotions.

Import Review.

(** How many of the lines are the separator. *)
Fixpoint separators (lines : list string) : nat :=
  match lines with
  | [] => O
  | l :: rest => ((if String.eqb l "---" then 1 else 0) + separators rest)%nat
  end.

(** The records in hand: those emitted and the one being filled. *)
Definition records (st : ParserState) : nat :=
  (length (suggestions st)
   + match current st with Some _ => 1 | None => 0 end)%nat.

End BoundNotions.

Module LineEndNotions.

(** A carriage return. *)
Definition CR : string := String "013"%char "".

(** The lines of [strings.Join(lines, "\r\n")], as splitting at the line
    feeds gives them: all but the last end in a carriage return. *)
Fixpoint withCR (lines : list string) : list string :=
  match lines with
  | [] => []
  | [l] => [l]
  | l :: rest => (l +:+ CR) :: withCR rest
  end.

End LineEndNotions.

Module RequestNotions.

Import Review.

Section WithClient.

Variable ClientState : Type.
Variable Chat : ClientState -> string -> string -> ChatReply * ClientState.

(** The same assistant, with a record of the calls made to it: each call
    adds the model name and the prompt it was given. *)
Definition recorded (st : ClientState * list (string * string))
    (model prompt : string)
    : ChatReply * (ClientState * list (string * string)) :=
  let '(reply, cs') := Chat (fst st) model prompt in
  (reply, (cs', snd st ++ [(model, prompt)])).

End WithClient.

(** The changes that are sent for review. *)
Definition reviewed (changes : list Git.FileChange) : list Git.FileChange :=
  List.filter (fun c => negb (Git.IsBinary c)) changes.

End RequestNotions.

Module ModelNotions.

(** The names that [mapModelName] returns. *)
Definition apiNames : list string :=
  ["gpt-4o"; "gpt-4o-mini"; "gpt-4.1"; "gpt-5"; "gpt-5-mini"; "gpt-5.1";
   "gpt-5.2"; "o1-preview"; "o1-mini"; "claude-sonnet-4";
   "claude-sonnet-4.5"; "claude-opus-4.5"; "claude-haiku-4.5";
   "gemini-2.5-pro"; "gemini-3-flash"; "gemini-3-pro"; "grok-code-fast-1"].

End ModelNotions.

Module StagedNotions.

Import Git GitStaged.

(** The bytes at hand encode a white-space rune, as [unicode.IsSpace] has
    it: one of the six ASCII characters, or U+0085, U+00A0, U+1680,
    U+2000..U+200A, U+2028, U+2029, U+202F, U+205F, U+3000. *)
Definition space_at (l : list ascii) : bool :=
  match l with
  | [] => false
  | c :: r =>
      asciiSpace c
      || match r with
         | [] => false
         | d :: r2 =>
             (isb c 194 && (isb d 133 || isb d 160))
             || match r2 with
                | [] => false
                | e :: _ =>
                    (isb c 225 && isb d 154 && isb e 128)
                    || (isb c 226 && isb d 128 && e280_space e)
                    || (isb c 226 && isb d 129 && isb e 159)
                    || (isb c 227 && isb d 128 && isb e 128)
                end
         end
  end.

(** White space somewhere in the bytes. *)
Fixpoint has_space (l : list ascii) : bool :=
  match l with
  | [] => false
  | _ :: r => space_at l || has_space r
  end.

(** No white space in the string, ASCII or not. *)
Definition no_space (s : string) : bool :=
  negb (has_space (list_ascii_of_string s)).

(** White space that starts among the bytes [a], when [l] follows them. *)
Fixpoint spaces_in (a l : list ascii) : bool :=
  match a with
  | [] => false
  | _ :: a' => space_at (a ++ l) || spaces_in a' l
  end.

(** The change that a line of the listing stands for.  The line has two
    fields at least, the first being the status as git lists it.  A listed
    status that starts with R gives the status [R], the second field as
    the old path and the third as the path (the second, when there is no
    third); any other status is kept, with the last field as the path. *)
Definition listed (line : string) (c : FileChange) : Prop :=
  exists p0 p1 rest,
    Fields line = p0 :: p1 :: rest
    /\ if HasPrefix p0 "R" then
         Status c = "R"
         /\ match rest with
            | p2 :: _ => OldPath c = p1 /\ Path c = p2
            | [] => OldPath c = "" /\ Path c = p1
            end
       else
         Status c = p0 /\ OldPath c = ""
         /\ Path c = List.last (p0 :: p1 :: rest) "".

(** What every change that [GetStagedChanges] returns satisfies. *)
Definition staged_ok (c : FileChange) : Prop :=
  Status c <> "D"
  /\ Status c <> "" /\ no_space (Status c) = true
  /\ Path c <> "" /\ no_space (Path c) = true
  /\ (IsBinary c = true -> Diff c = "" /\ Content c = "").

End StagedNotions.

Module StandardsNotions.

Import Standards.

(** How many of the five WordPress indicators are there. *)
Definition indicators (present : string -> bool) : Z :=
  countLoop present wpIndicators 0.

(** A root that holds [wp-content] and [wp-includes], and an ESLint
    configuration under two names. *)
Definition wp_root (name : string) : bool :=
  String.eqb name "wp-content" || String.eqb name "wp-includes"
  || String.eqb name ".eslintrc" || String.eqb name ".eslintrc.json".

(** The standards found so far that are WordPress as a framework are
    backed by two indicators. *)
Definition backed (present : string -> bool) (acc : Found) : Prop :=
  forall s, In s (fst acc) -> Name s = "WordPress" ->
            Type_ s = "framework" -> 2 <= indicators present.

(** A standard that the detection took from one of the two maps: the
    standard of a known configuration file that is there, with the name of
    that file, or the framework of an indicator that is there. *)
Definition found (present : string -> bool)
    (knownOrder frameworkOrder : list (string * CodingStandard))
    (s : CodingStandard) : Prop :=
  (exists filename standard,
      In (filename, standard) knownOrder /\ present filename = true
      /\ s = set_ConfigFile filename standard)
  \/ (exists indicator,
        In (indicator, s) frameworkOrder /\ present indicator = true).

(** The names marked as seen are the names of the standards found. *)
Definition names_seen (acc : Found) : Prop :=
  forall x, x ∈ snd acc <-> In x (map Name (fst acc)).

(** The standards found so far: the custom ones, then standards taken
    from the maps, with names of their own. *)
Definition listed (present : string -> bool)
    (knownOrder frameworkOrder : list (string * CodingStandard))
    (custom : list CodingStandard) (acc : Found) : Prop :=
  exists detected,
    fst acc = custom ++ detected
    /\ NoDup (map Name detected)
    /\ Forall (fun s => ~ In (Name s) (map Name custom)) detected
    /\ Forall (found present knownOrder frameworkOrder) detected
    /\ names_seen acc.

End StandardsNotions.

Module ConsentNotions.

Import UI.

(** No line of the input asks for a fix: none reads as [f] or [fix] once
    lowered and trimmed. *)
Definition never_fix (unicodeToLower : string -> string) (input : string)
    : Prop :=
  Forall (fun l => is_cmd unicodeToLower (l +:+ nl) "f" "fix" = false)
    (SplitLF input).

End ConsentNotions.

(** * Facts about the string primitives *)

Module StringProps.

Import StringNotions.

Lemma sapp_assoc (a b c : string) : (a +:+ b) +:+ c = a +:+ (b +:+ c).
Proof. induction a as [|x a IH]; simpl; [reflexivity | now rewrite IH]. Qed.

Lemma sapp_nil_r (a : string) : a +:+ "" = a.
Proof. induction a as [|x a IH]; simpl; [reflexivity | now rewrite IH]. Qed.

Lemma slength_app (a b : string) :
  String.length (a +:+ b) = (String.length a + String.length b)%nat.
Proof. induction a as [|x a IH]; simpl; [reflexivity | now rewrite IH]. Qed.

Lemma sapp_inv_head (a b c : string) : a +:+ b = a +:+ c -> b = c.
Proof.
  induction a as [|x a IH]; simpl; intros H; [assumption|].
  inversion H. auto.
Qed.

Lemma sapp_inv_tail (a b c : string) : a +:+ c = b +:+ c -> a = b.
Proof.
  revert b. induction a as [|x a IH]; intros [|y b] H; simpl in H.
  - reflexivity.
  - apply (f_equal String.length) in H. simpl in H.
    rewrite slength_app in H. lia.
  - apply (f_equal String.length) in H. simpl in H.
    rewrite slength_app in H. lia.
  - inversion H. f_equal. auto.
Qed.

Lemma HasPrefix_app (p t : string) : HasPrefix (p +:+ t) p = true.
Proof.
  induction p as [|x p IH]; simpl; [reflexivity|].
  now rewrite Ascii.eqb_refl, IH.
Qed.

Lemma HasPrefix_inv (p : string) : forall s,
  HasPrefix s p = true -> exists t, s = p +:+ t.
Proof.
  induction p as [|x p IH]; intros s H; simpl in *.
  - now exists s.
  - destruct s as [|y s]; [discriminate|].
    apply andb_true_iff in H as [Hx Hp].
    apply Ascii.eqb_eq in Hx. subst y.
    destruct (IH s Hp) as [t ->]. now exists t.
Qed.

Lemma slice_to_app (a b : string) : slice_to (String.length a) (a +:+ b) = a.
Proof. induction a as [|x a IH]; simpl; [now destruct b | now rewrite IH]. Qed.

Lemma slice_from_app (a b : string) :
  slice_from (String.length a) (a +:+ b) = b.
Proof. induction a as [|x a IH]; simpl; [reflexivity | assumption]. Qed.

(** [Index] finds an occurrence, and no occurrence starts before it. *)
Lemma Index_Some (sub : string) : forall s j,
  Index s sub = Some j ->
  exists pre post,
    s = pre +:+ sub +:+ post /\ String.length pre = j
    /\ forall pre' post', s = pre' +:+ sub +:+ post' ->
                          (j <= String.length pre')%nat.
Proof.
  induction s as [|x s IH]; intros j H; simpl in H.
  - destruct (HasPrefix "" sub) eqn:Hp; [|discriminate].
    inversion H; subst j. apply HasPrefix_inv in Hp as [t Ht].
    exists "", t. repeat split; auto. intros; lia.
  - destruct (HasPrefix (String x s) sub) eqn:Hp.
    + inversion H; subst j. apply HasPrefix_inv in Hp as [t Ht].
      exists "", t. repeat split; auto. intros; lia.
    + destruct (Index s sub) as [k|] eqn:Hk; [|discriminate].
      simpl in H. inversion H; subst j.
      destruct (IH k eq_refl) as (pre & post & -> & Hlen & Hmin).
      exists (String x pre), post. simpl. repeat split; auto.
      intros pre' post' E. destruct pre' as [|y pre'].
      * simpl in E. rewrite E, HasPrefix_app in Hp. discriminate.
      * simpl in E. inversion E. simpl.
        apply le_n_S. eapply Hmin. eassumption.
Qed.

Lemma Index_None (sub : string) : forall s,
  Index s sub = None -> forall pre post, s <> pre +:+ sub +:+ post.
Proof.
  induction s as [|x s IH]; intros H pre post E; simpl in H.
  - destruct (HasPrefix "" sub) eqn:Hp; [discriminate|].
    destruct pre; [|discriminate]. simpl in E.
    rewrite E, HasPrefix_app in Hp. discriminate.
  - destruct (HasPrefix (String x s) sub) eqn:Hp; [discriminate|].
    destruct (Index s sub) eqn:Hk; [discriminate|].
    destruct pre as [|y pre]; simpl in E.
    + rewrite E, HasPrefix_app in Hp. discriminate.
    + inversion E. eapply IH; eauto.
Qed.

Lemma same_length_prefix (a b c d : string) :
  a +:+ b = c +:+ d -> String.length a = String.length c -> a = c /\ b = d.
Proof.
  revert c. induction a as [|x a IH]; intros [|y c] E L; simpl in *;
    try discriminate; auto.
  inversion E. destruct (IH c) as [-> ->]; auto.
Qed.

Lemma Index_first (sub s pre post : string) :
  first_occurrence sub s pre post -> Index s sub = Some (String.length pre).
Proof.
  intros [E Hmin].
  destruct (Index s sub) as [j|] eqn:Hj.
  - destruct (Index_Some _ _ _ Hj) as (pre1 & post1 & E1 & L1 & Hmin1).
    f_equal. specialize (Hmin _ _ E1). specialize (Hmin1 _ _ E). lia.
  - exfalso. eapply Index_None; eauto.
Qed.

Lemma Index_first_inv (sub s : string) (j : nat) :
  Index s sub = Some j ->
  first_occurrence sub s (slice_to j s) (slice_from (j + len sub) s).
Proof.
  intros Hj.
  destruct (Index_Some _ _ _ Hj) as (pre & post & E & L & Hmin).
  subst j s. rewrite slice_to_app.
  replace (String.length pre + len sub)%nat
    with (String.length (pre +:+ sub)) by apply slength_app.
  rewrite <- (sapp_assoc pre sub post), slice_from_app, sapp_assoc.
  split; [reflexivity | assumption].
Qed.

Lemma Contains_occurs (s sub : string) :
  Contains s sub = true <-> occurs sub s.
Proof.
  unfold Contains, occurs. split.
  - destruct (Index s sub) as [j|] eqn:Hj; [|discriminate]. intros _.
    destruct (Index_Some _ _ _ Hj) as (pre & post & E & _). eauto.
  - intros (pre & post & E).
    destruct (Index s sub) eqn:Hj; [reflexivity|].
    exfalso. eapply Index_None; eauto.
Qed.

(** [ReplaceFirst] rewrites the first occurrence and nothing else. *)
Lemma ReplaceFirst_first (s old new pre post : string) :
  first_occurrence old s pre post ->
  ReplaceFirst s old new = pre +:+ new +:+ post.
Proof.
  intros Hf. unfold ReplaceFirst.
  destruct (String.eqb old new) eqn:En.
  - apply String.eqb_eq in En. subst new. destruct Hf as [-> _]. reflexivity.
  - rewrite (Index_first _ _ _ _ Hf). destruct Hf as [-> _].
    rewrite slice_to_app.
    replace (String.length pre + len old)%nat
      with (String.length (pre +:+ old)) by apply slength_app.
    now rewrite <- (sapp_assoc pre old post), slice_from_app.
Qed.

Lemma ReplaceFirst_absent (s old new : string) :
  ~ occurs old s -> ReplaceFirst s old new = s.
Proof.
  intros Hno. unfold ReplaceFirst.
  destruct (String.eqb old new); [reflexivity|].
  destruct (Index s old) as [j|] eqn:Hj; [|reflexivity].
  exfalso. apply Hno.
  destruct (Index_Some _ _ _ Hj) as (pre & post & E & _). red; eauto.
Qed.

End StringProps.

(** * Properties of the response parser *)

Module ParserProps.

Import Review ParserNotions.

Local Arguments hasPrefix : simpl never.

Lemma wf_init : wf initState.
Proof. intros H; discriminate H. Qed.

Lemma step_total file st line :
  wf st -> exists st', step file st line = Ok st' /\ wf st'.
Proof.
  intros Hwf. unfold step.
  destruct (inMultiLine st) eqn:Hin; simpl.
  - destruct (Hwf Hin) as [c Hc]. rewrite Hc.
    destruct (String.eqb line ">>>");
      [ destruct (String.eqb (multiLineField st) "ORIGINAL");
        [ | destruct (String.eqb (multiLineField st) "FIX") ] | ];
      eexists; (split; [reflexivity | intros H; simpl in *; eauto; discriminate]).
  - destruct (String.eqb line "---").
    + eexists; split; [reflexivity | intros H; discriminate H].
    + destruct (current st) as [c|] eqn:Hc.
      * destruct (String.eqb line "<<<").
        -- eexists; split; [reflexivity | intros _; simpl; eauto].
        -- destruct (parseField line c (lastField st)) as [c' lf'].
           eexists; split; [reflexivity | intros H; discriminate H].
      * eexists; split; [reflexivity | intros H; congruence].
Qed.

Lemma run_total file lines : forall st,
  wf st -> exists st', run file st lines = Ok st' /\ wf st'.
Proof.
  induction lines as [|line rest IH]; intros st Hwf; simpl.
  - eauto.
  - destruct (step_total file st line Hwf) as (st1 & -> & Hwf1). auto.
Qed.

Lemma run_app file l1 : forall st l2,
  run file st (l1 ++ l2) =
  match run file st l1 with
  | Ok st' => run file st' l2
  | Err e => Err e
  | Panic => Panic
  end.
Proof.
  induction l1 as [|a l1 IH]; intros st l2; simpl; [reflexivity|].
  destruct (step file st a); auto.
Qed.

(** A property of states that every step keeps holds after the loop. *)
Lemma run_invariant (P : ParserState -> Prop) file :
  (forall st line st', P st -> step file st line = Ok st' -> P st') ->
  forall lines st st', P st -> run file st lines = Ok st' -> P st'.
Proof.
  intros Hstep. induction lines as [|line rest IH]; intros st st' HP Hrun;
    simpl in Hrun.
  - congruence.
  - destruct (step file st line) as [st1| |] eqn:Hs; try discriminate.
    eapply IH; [eapply Hstep; eauto | exact Hrun].
Qed.

(** The same for a property that only the lines of a given kind keep. *)
Lemma run_invariant_on (P : ParserState -> Prop) (Q : string -> Prop) file :
  (forall st line st', Q line -> P st -> step file st line = Ok st' -> P st') ->
  forall lines st st',
    Forall Q lines -> P st -> run file st lines = Ok st' -> P st'.
Proof.
  intros Hstep. induction lines as [|line rest IH]; intros st st' HQ HP Hrun;
    simpl in Hrun.
  - congruence.
  - destruct (step file st line) as [st1| |] eqn:Hs; try discriminate.
    inversion HQ; subst.
    eapply IH; [assumption | eapply Hstep; eauto | exact Hrun].
Qed.

(** What a step can do to the pair (emitted suggestions, current record). *)
Lemma step_cases file st line st' :
  step file st line = Ok st' ->
  (suggestions st' = suggestions st /\
   (current st' = current st \/
    exists c c', current st = Some c /\ current st' = Some c' /\
      (c' = set_OriginalCode (joinLines (multiLineContent st)) c \/
       c' = set_SuggestFix (joinLines (multiLineContent st)) c \/
       (inMultiLine st = false /\
        c' = fst (parseField line c (lastField st))))))
  \/ (inMultiLine st = false /\ line = "---" /\
      suggestions st' = flush (suggestions st) (current st) /\
      current st' = Some (newSuggestion file)).
Proof.
  unfold step. intros H.
  destruct (inMultiLine st) eqn:Hin; simpl in H.
  - destruct (String.eqb line ">>>").
    + destruct (String.eqb (multiLineField st) "ORIGINAL").
      * destruct (current st) as [c|] eqn:Hc; inversion H; subst; simpl.
        left; split; [reflexivity|]. right. exists c; eexists; eauto.
      * destruct (String.eqb (multiLineField st) "FIX").
        -- destruct (current st) as [c|] eqn:Hc; inversion H; subst; simpl.
           left; split; [reflexivity|]. right. exists c; eexists; eauto.
        -- inversion H; subst; simpl. left; auto.
    + inversion H; subst; simpl. left; auto.
  - destruct (String.eqb line "---") eqn:Hsep.
    + apply String.eqb_eq in Hsep. inversion H; subst; simpl. right; auto.
    + destruct (current st) as [c|] eqn:Hc.
      * destruct (String.eqb line "<<<").
        -- inversion H; subst; simpl. left; auto.
        -- destruct (parseField line c (lastField st)) as [c' lf'] eqn:Hp.
           inversion H; subst; simpl. left; split; [reflexivity|].
           right. exists c, c'. repeat split; auto.
           right; right. split; [reflexivity|]. now rewrite Hp.
      * inversion H; subst. left; auto.
Qed.

Lemma parseField_File line c lf : File (fst (parseField line c lf)) = File c.
Proof. unfold parseField. split_ifs; reflexivity. Qed.

Lemma parseField_Title line c lf :
  hasPrefix line "TITLE:" = false ->
  Title (fst (parseField line c lf)) = Title c.
Proof. intros H. unfold parseField. rewrite H. split_ifs; reflexivity. Qed.

Lemma parseField_EndLine line c lf :
  hasPrefix line "END_LINE:" = false ->
  EndLine (fst (parseField line c lf)) = EndLine c.
Proof. intros H. unfold parseField. rewrite H. split_ifs; reflexivity. Qed.

(** A line cannot start with two of the field names at once. *)
Lemma prefix_first line p a q :
  hasPrefix line (String a p) = true ->
  forall b, Ascii.eqb a b = false -> hasPrefix line (String b q) = false.
Proof.
  unfold hasPrefix. destruct line as [|x line]; simpl; [discriminate|].
  intros H b Hab. apply andb_true_iff in H as [Hx _].
  apply Ascii.eqb_eq in Hx. subst x. now rewrite Hab.
Qed.

Lemma parseField_lastField line c lf :
  snd (parseField line c lf) =
  if hasPrefix line "ORIGINAL:" then "ORIGINAL"
  else if hasPrefix line "FIX:" then "FIX" else lf.
Proof.
  unfold parseField.
  destruct (hasPrefix line "ORIGINAL:") eqn:HO.
  - rewrite !(prefix_first _ _ _ _ HO) by reflexivity.
    split_ifs; reflexivity.
  - destruct (hasPrefix line "FIX:") eqn:HF.
    + rewrite !(prefix_first _ _ _ _ HF) by reflexivity.
      split_ifs; reflexivity.
    + split_ifs; reflexivity.
Qed.

(** Inside a block every line but the closing one is kept as it is. *)
Lemma run_in_block file body : forall st,
  inMultiLine st = true ->
  Forall (fun l => l <> ">>>") body ->
  run file st body =
  Ok (mkState (suggestions st) (current st) (multiLineField st)
        (multiLineContent st ++ body) true (lastField st)).
Proof.
  induction body as [|l body IH]; intros st Hin Hall; simpl.
  - rewrite app_nil_r. destruct st; simpl in *; subst; reflexivity.
  - inversion Hall as [|? ? Hl Hall']; subst.
    unfold step. rewrite Hin. simpl.
    apply String.eqb_neq in Hl. rewrite Hl.
    rewrite IH by (simpl; auto). simpl. now rewrite <- app_assoc.
Qed.

(** The parser neither panics nor fails. *)
Lemma parseReviewResponse_total (response file : string) :
  exists l, parseReviewResponse response file = Ok l.
Proof.
  unfold parseReviewResponse, parseStructuredResponse.
  destruct (String.eqb response "NO_ISSUES" || String.eqb response "");
    [eauto|].
  destruct (run_total file (splitLines response) initState wf_init)
    as (st & -> & _).
  eauto.
Qed.

(** Every record carries the file name the parser was given. *)
Lemma run_File file lines st st' :
  Forall (fun s => File s = file) (suggestions st)
  /\ (forall c, current st = Some c -> File c = file) ->
  run file st lines = Ok st' ->
  Forall (fun s => File s = file) (suggestions st')
  /\ (forall c, current st' = Some c -> File c = file).
Proof.
  apply (run_invariant
           (fun st => Forall (fun s => File s = file) (suggestions st)
                      /\ (forall c, current st = Some c -> File c = file))).
  clear. intros st line st' [HS HC] Hs.
  destruct (step_cases _ _ _ _ Hs)
    as [[E [Hc|(c & c' & Hc & Hc' & Hw)]]|(_ & _ & E & Hc)].
  - rewrite E, Hc. auto.
  - rewrite E. split; [assumption|].
    intros c0 H0. rewrite Hc' in H0. inversion H0; subst c0.
    specialize (HC _ Hc).
    destruct Hw as [->|[->|[_ ->]]]; simpl; auto.
    now rewrite parseField_File.
  - split.
    + rewrite E. unfold flush. destruct (current st) as [c|]; auto.
      destruct (String.eqb (Title c) ""); auto.
      apply Forall_app. split; auto.
    + intros c0 H0. rewrite Hc in H0. inversion H0; reflexivity.
Qed.

Lemma parseReviewResponse_File (response file : string) l :
  parseReviewResponse response file = Ok l ->
  Forall (fun s => File s = file) l.
Proof.
  unfold parseReviewResponse, parseStructuredResponse.
  destruct (String.eqb response "NO_ISSUES" || String.eqb response "").
  { intros H; inversion H; constructor. }
  destruct (run file initState (splitLines response)) as [st| |] eqn:Hrun;
    try discriminate.
  intros H; inversion H; subst l.
  destruct (run_File file (splitLines response) initState st) as [HS HC];
    auto.
  { split; [constructor | intros c Hc; discriminate Hc]. }
  unfold finish, flush. destruct (current st) as [c|]; auto.
  destruct (String.eqb (Title c) ""); auto.
  apply Forall_app. split; auto.
Qed.

(** C2.  The reply made of one record in the documented format, with
    LINE=10, END_LINE=12, SEVERITY=warning, CONFIDENCE=medium, CATEGORY=bug,
    TITLE=t, DESCRIPTION=d, an ORIGINAL block foo/bar and a FIX block
    foo/baz, parses to exactly one suggestion carrying those values (and the
    file name the parser was given). *)
Theorem C2_roundtrip (file : string) :
  parseReviewResponse roundtrip_reply file = Ok [roundtrip_suggestion file].
Proof. vm_compute. reflexivity. Qed.

(** C3.  The parser returns a list of suggestions for every reply: it
    neither panics nor reports an error; the sentinel NO_ISSUES and the
    empty reply give the empty list. *)
Theorem C3_parser_total (response file : string) :
  (exists l, parseReviewResponse response file = Ok l)
  /\ parseReviewResponse "NO_ISSUES" file = Ok []
  /\ parseReviewResponse "" file = Ok [].
Proof.
  split; [apply parseReviewResponse_total | split; reflexivity].
Qed.

Lemma flush_titles sugs cur :
  Forall (fun s => Title s <> "") sugs ->
  Forall (fun s => Title s <> "") (flush sugs cur).
Proof.
  intros H. unfold flush. destruct cur as [c|]; [|assumption].
  destruct (String.eqb (Title c) "") eqn:E; [assumption|].
  apply String.eqb_neq in E. apply Forall_app. split; [assumption|].
  constructor; [assumption | constructor].
Qed.

Lemma run_titles file lines st st' :
  Forall (fun s => Title s <> "") (suggestions st) ->
  run file st lines = Ok st' ->
  Forall (fun s => Title s <> "") (suggestions st').
Proof.
  apply (run_invariant
           (fun st => Forall (fun s => Title s <> "") (suggestions st))).
  clear. intros st line st' HP Hs.
  destruct (step_cases _ _ _ _ Hs) as [[-> _]|(_ & _ & -> & _)];
    [assumption | now apply flush_titles].
Qed.

(** Lines that do not set the title leave a record without one untitled,
    and such a record is never emitted. *)
Lemma run_untitled file body : forall st st',
  Forall (fun l => hasPrefix l "TITLE:" = false) body ->
  (forall c, current st = Some c -> Title c = "") ->
  run file st body = Ok st' ->
  suggestions st' = suggestions st
  /\ (forall c, current st' = Some c -> Title c = "").
Proof.
  induction body as [|l body IH]; intros st st' Hall Hcur Hrun;
    simpl in Hrun.
  - inversion Hrun; subst; auto.
  - inversion Hall as [|? ? Hl Hall']; subst.
    destruct (step file st l) as [st1| |] eqn:Hs; try discriminate.
    assert (suggestions st1 = suggestions st
            /\ (forall c, current st1 = Some c -> Title c = "")) as [E1 C1].
    { destruct (step_cases _ _ _ _ Hs)
        as [[E [Hc|(c & c' & Hc & Hc' & Hw)]]|(_ & _ & E & Hc)].
      - split; [assumption|]. rewrite Hc. assumption.
      - split; [assumption|]. intros c0 H0. rewrite Hc' in H0.
        inversion H0; subst c0. specialize (Hcur _ Hc).
        destruct Hw as [->|[->|[_ ->]]]; simpl; auto.
        now rewrite parseField_Title.
      - split.
        + rewrite E. unfold flush. destruct (current st) as [c|]; auto.
          now rewrite (Hcur c eq_refl).
        + intros c0 H0. rewrite Hc in H0. inversion H0; reflexivity. }
    destruct (IH st1 st' Hall' C1 Hrun) as [E2 C2].
    split; [congruence | assumption].
Qed.

(** C4.  Every suggestion the parser emits has a non-empty title.  A record
    whose title is empty is dropped: after a separator, as long as no TITLE
    line follows, the result is what it was before the separator.  A LINE
    value that does not parse is stored as 0 and the record is still
    emitted. *)
Theorem C4_titles_and_line_fallback (response file : string) :
  (exists l, parseReviewResponse response file = Ok l
             /\ Forall (fun s => Title s <> "") l)
  /\ (forall pre body st0,
        run file initState pre = Ok st0 ->
        inMultiLine st0 = false ->
        Forall (fun l => hasPrefix l "TITLE:" = false) body ->
        exists st, run file initState (pre ++ "---" :: body) = Ok st
                   /\ finish st = finish st0)
  /\ parseReviewResponse untitled_reply file =
       Ok [mkSuggestion file 4 0 "" "" "kept" "" "" "" ""]
  /\ (forall line c lf,
        hasPrefix line "LINE:" = true ->
        Atoi (parseStringValue line "LINE:") = None ->
        parseField line c lf = (set_Line 0 c, lf))
  /\ parseReviewResponse bad_line_reply file =
       Ok [mkSuggestion file 0 0 "" "" "t" "" "" "" ""].
Proof.
  split; [|split; [|split; [|split]]].
  - unfold parseReviewResponse, parseStructuredResponse.
    destruct (String.eqb response "NO_ISSUES" || String.eqb response "");
      [exists []; split; [reflexivity | constructor]|].
    destruct (run_total file (splitLines response) initState wf_init)
      as (st & Hrun & _).
    rewrite Hrun. eexists; split; [reflexivity|].
    apply flush_titles. eapply run_titles; [|exact Hrun]. constructor.
  - intros pre body st0 Hpre Hin Hbody.
    rewrite run_app, Hpre. simpl.
    unfold step at 1. rewrite Hin. simpl.
    match goal with |- context [run file ?s body] => set (st1 := s) end.
    assert (wf st1) as Hwf1 by (intros H; discriminate H).
    destruct (run_total file body st1 Hwf1) as (st & Hrun & _).
    exists st. split; [assumption|].
    destruct (run_untitled file body st1 st Hbody) as [E C]; auto.
    { intros c Hc. inversion Hc; reflexivity. }
    unfold finish. rewrite E. simpl.
    unfold flush at 1. destruct (current st) as [c|]; [|reflexivity].
    now rewrite (C c eq_refl).
  - vm_compute. reflexivity.
  - intros line c lf Hp Ha. unfold parseField, parseIntValue.
    now rewrite Hp, Ha.
  - vm_compute. reflexivity.
Qed.

Lemma step_open file st c :
  inMultiLine st = false -> current st = Some c ->
  step file st "<<<" =
  Ok (mkState (suggestions st) (Some c) (lastField st) [] true (lastField st)).
Proof. intros Hin Hc. unfold step. rewrite Hin, Hc. reflexivity. Qed.

Lemma step_close file st c :
  inMultiLine st = true -> current st = Some c ->
  step file st ">>>" =
  Ok (mkState (suggestions st)
        (Some (writeField (multiLineField st)
                 (joinLines (multiLineContent st)) c))
        "" [] false (lastField st)).
Proof.
  intros Hin Hc. unfold step, writeField. rewrite Hin, Hc. simpl.
  destruct (String.eqb (multiLineField st) "ORIGINAL"); [reflexivity|].
  destruct (String.eqb (multiLineField st) "FIX"); reflexivity.
Qed.

Lemma run_lastField file lines st st' :
  (lastField st = "" \/ lastField st = "ORIGINAL" \/ lastField st = "FIX") ->
  run file st lines = Ok st' ->
  lastField st' = "" \/ lastField st' = "ORIGINAL" \/ lastField st' = "FIX".
Proof.
  apply (run_invariant
           (fun st => lastField st = "" \/ lastField st = "ORIGINAL"
                      \/ lastField st = "FIX")).
  clear. intros st line st' HP Hs. unfold step in Hs.
  destruct (inMultiLine st && String.eqb line ">>>").
  { destruct (String.eqb (multiLineField st) "ORIGINAL");
      [|destruct (String.eqb (multiLineField st) "FIX")];
      destruct (current st); inversion Hs; subst; simpl; assumption. }
  destruct (inMultiLine st); [inversion Hs; subst; simpl; assumption|].
  destruct (String.eqb line "---"); [inversion Hs; subst; simpl; auto|].
  destruct (current st) as [c|]; [|inversion Hs; subst; assumption].
  destruct (String.eqb line "<<<"); [inversion Hs; subst; simpl; assumption|].
  pose proof (parseField_lastField line c (lastField st)) as Hlf.
  destruct (parseField line c (lastField st)) as [c' lf'].
  inversion Hs; subst; simpl in *. rewrite Hlf.
  destruct (hasPrefix line "ORIGINAL:"); [auto|].
  destruct (hasPrefix line "FIX:"); auto.
Qed.

(** C5, as the code has it.  A record opened by a separator has an ending
    line of 0 for as long as no END_LINE line is read, whatever its starting
    line is: every suggestion emitted from there on has [EndLine = 0].  An
    END_LINE line stores the value it carries (0 when it does not parse);
    the parser compares it with nothing. *)
Theorem C5_end_line_absent_is_zero (file : string) (pre body : list string)
    (st0 : ParserState) :
  run file initState pre = Ok st0 ->
  inMultiLine st0 = false ->
  Forall (fun l => hasPrefix l "END_LINE:" = false) body ->
  (exists st, run file initState (pre ++ "---" :: body) = Ok st
     /\ (forall c, current st = Some c -> EndLine c = 0)
     /\ Forall (fun s => In s (finish st0) \/ EndLine s = 0) (finish st))
  /\ (forall line c lf,
        hasPrefix line "END_LINE:" = true ->
        parseField line c lf =
        (set_EndLine (parseIntValue line "END_LINE:") c, lf)).
Proof.
  intros Hpre Hin Hbody. split.
  - rewrite run_app, Hpre. simpl. unfold step at 1. rewrite Hin. simpl.
    fold (finish st0).
    match goal with |- context [run file ?s body] => set (st1 := s) end.
    assert (wf st1) as Hwf1 by (intros H; discriminate H).
    destruct (run_total file body st1 Hwf1) as (st & Hrun & _).
    exists st. split; [assumption|].
    set (P := fun st : ParserState =>
                (forall c, current st = Some c -> EndLine c = 0)
                /\ Forall (fun s => In s (finish st0) \/ EndLine s = 0)
                     (suggestions st)).
    assert (P st) as [HC HS].
    { apply (run_invariant_on P
               (fun l => hasPrefix l "END_LINE:" = false) file)
        with (lines := body) (st := st1); auto.
      - clear. intros st line st' Hl [HC HS] Hs.
        destruct (step_cases _ _ _ _ Hs)
          as [[E [Hc|(c & c' & Hc & Hc' & Hw)]]|(_ & _ & E & Hc)].
        + split; [rewrite Hc; assumption | rewrite E; assumption].
        + split; [|rewrite E; assumption].
          intros c0 H0. rewrite Hc' in H0. inversion H0; subst c0.
          specialize (HC _ Hc).
          destruct Hw as [->|[->|[_ ->]]]; simpl; auto.
          now rewrite parseField_EndLine.
        + split.
          * intros c0 H0. rewrite Hc in H0. inversion H0; reflexivity.
          * rewrite E. unfold flush. destruct (current st) as [c|]; auto.
            destruct (String.eqb (Title c) ""); auto.
            apply Forall_app. split; auto.
      - split.
        + intros c Hc. inversion Hc; reflexivity.
        + simpl. apply Forall_forall. intros s Hs. left.
          now apply list_elem_of_In. }
    split; [assumption|].
    unfold finish at 2. unfold flush. destruct (current st) as [c|]; auto.
    destruct (String.eqb (Title c) ""); auto.
    apply Forall_app. split; auto.
  - intros line c lf Hp. unfold parseField.
    rewrite (prefix_first _ _ _ "INE:" Hp "L"%char) by reflexivity.
    now rewrite Hp.
Qed.

(** The record of [no_end_line_reply], read by way of the theorem. *)
Lemma C5_end_line_absent_witness :
  exists st, run "f.go" initState ([] ++ "---" :: ["LINE: 10"; "TITLE: t"])
             = Ok st
     /\ (forall c, current st = Some c -> EndLine c = 0)
     /\ Forall (fun s => In s (finish initState) \/ EndLine s = 0) (finish st).
Proof.
  apply (C5_end_line_absent_is_zero "f.go" [] ["LINE: 10"; "TITLE: t"]
           initState).
  - reflexivity.
  - reflexivity.
  - repeat constructor.
Defined.

(** C5 as stated fails: without END_LINE the ending line is 0 and not the
    starting line, and an END_LINE below LINE is stored as it is. *)
Lemma C5_counterexample :
  (exists s, parseReviewResponse no_end_line_reply "f.go" = Ok [s]
      /\ Line s = 10 /\ EndLine s = 0
      /\ EndLine s <> Line s /\ EndLine s < Line s)
  /\ (exists s, parseReviewResponse low_end_line_reply "f.go" = Ok [s]
      /\ Line s = 10 /\ EndLine s = 3 /\ EndLine s < Line s).
Proof.
  split; eexists; (split; [vm_compute; reflexivity|]); simpl;
    repeat split; try reflexivity; lia.
Qed.

(** C6 as stated fails: the opener is honoured wherever it stands in a
    record.  After [---] and [TITLE: t] the line [<<<] opens a block although
    the line before it is neither ORIGINAL nor FIX (the lines inside are then
    lost); and a block that follows ORIGINAL at a distance still fills
    [OriginalCode]. *)
Lemma C6_counterexample :
  (exists st st',
      run "f.go" initState ["---"; "TITLE: t"] = Ok st
      /\ inMultiLine st = false
      /\ step "f.go" st "<<<" = Ok st'
      /\ inMultiLine st' = true
      /\ hasPrefix "TITLE: t" "ORIGINAL:" = false
      /\ hasPrefix "TITLE: t" "FIX:" = false)
  /\ parseReviewResponse stray_block_reply "f.go" =
       Ok [mkSuggestion "f.go" 7 0 "" "" "t" "" "" "" ""]
  /\ parseReviewResponse late_block_reply "f.go" =
       Ok [mkSuggestion "f.go" 0 0 "" "" "t" "" "x" "" ""].
Proof.
  split; [|split; vm_compute; reflexivity].
  eexists; eexists. split; [vm_compute; reflexivity|].
  split; [reflexivity|]. split; [vm_compute; reflexivity|].
  repeat split.
Qed.

(** A whole block, read in a record: its lines go to the remembered
    field, which stays remembered. *)
Lemma run_cons_open file st c body :
  inMultiLine st = false -> current st = Some c ->
  Forall (fun l => l <> ">>>") body ->
  run file st ("<<<" :: body ++ [">>>"]) =
  Ok (mkState (suggestions st)
        (Some (writeField (lastField st) (joinLines body) c))
        "" [] false (lastField st)).
Proof.
  intros Hin Hc Hbody. cbn [run]. rewrite (step_open file st c Hin Hc).
  rewrite run_app, run_in_block by (simpl; auto). cbn [run].
  rewrite (step_close file _ c) by reflexivity. reflexivity.
Qed.

(** A separator read outside a block starts a record that remembers no
    field. *)
Lemma step_separator_resets file st :
  inMultiLine st = false ->
  step file st "---" =
  Ok (mkState (flush (suggestions st) (current st)) (Some (newSuggestion file))
        (multiLineField st) (multiLineContent st) false "").
Proof. intros Hin. unfold step. rewrite Hin. reflexivity. Qed.

(** Through the lines of a record the parser stays in this record, and
    remembers what these lines name. *)
Lemma run_items file items : forall st c,
  inMultiLine st = false -> current st = Some c ->
  Forall item_ok items ->
  exists st' c',
    run file st (items_lines items) = Ok st'
    /\ inMultiLine st' = false /\ current st' = Some c'
    /\ lastField st' = remembered_from (lastField st) items.
Proof.
  induction items as [|it rest IH]; intros st c Hin Hc Hall.
  - exists st, c. repeat split; auto.
  - inversion Hall as [|? ? Hit Hrest]; subst.
    cbn [items_lines]. rewrite run_app. destruct it as [line|body].
    + destruct Hit as [Hsep Hopen]. cbn [item_lines run].
      unfold step. rewrite Hin, Hc. cbn [andb].
      apply String.eqb_neq in Hsep, Hopen. rewrite Hsep, Hopen.
      pose proof (parseField_lastField line c (lastField st)) as Hlf.
      destruct (parseField line c (lastField st)) as [c1 lf1].
      cbn [snd] in Hlf. subst lf1.
      destruct (IH (mkState (suggestions st) (Some c1) (multiLineField st)
                      (multiLineContent st) false
                      (if hasPrefix line "ORIGINAL:" then "ORIGINAL"
                       else if hasPrefix line "FIX:" then "FIX"
                       else lastField st)) c1 eq_refl eq_refl Hrest)
        as (st' & c' & Hrun & Hin' & Hc' & Hlf').
      exists st', c'. repeat split; assumption.
    + cbn [item_lines item_ok] in *.
      rewrite (run_cons_open file st c body Hin Hc Hit).
      match goal with
      | |- context [run file ?s (items_lines rest)] =>
          destruct (IH s (writeField (lastField st) (joinLines body) c)
                      eq_refl eq_refl Hrest)
            as (st' & c' & Hrun & Hin' & Hc' & Hlf')
      end.
      exists st', c'. repeat split; assumption.
Qed.

(** C6, as the code has it.  In a record and outside a block, [<<<] always
    opens a block; what it remembers is [lastField], the field of the latest
    ORIGINAL or FIX line of the record, or nothing.  The lines up to [>>>] are
    kept as they are, and [>>>] writes their join to the remembered field and
    to no other; with nothing remembered the record is left as it was.  The
    field remembered is that of the current record only: a separator forgets
    it, so that after the last separator read outside a block, whatever
    stood before it, [lastField] is what the lines of the record name, the
    lines inside its blocks not counted. *)
Theorem C6_block_protocol (file : string) (pre body : list string)
    (st : ParserState) (c : Suggestion) :
  run file initState pre = Ok st ->
  inMultiLine st = false ->
  current st = Some c ->
  Forall (fun l => l <> ">>>") body ->
  (lastField st = "" \/ lastField st = "ORIGINAL" \/ lastField st = "FIX")
  /\ step file st "<<<" =
       Ok (mkState (suggestions st) (Some c) (lastField st) [] true
             (lastField st))
  /\ run file initState (pre ++ "<<<" :: body) =
       Ok (mkState (suggestions st) (Some c) (lastField st) body true
             (lastField st))
  /\ run file initState (pre ++ "<<<" :: body ++ [">>>"]) =
       Ok (mkState (suggestions st)
             (Some (writeField (lastField st) (joinLines body) c))
             "" [] false (lastField st))
  /\ (forall v,
        writeField "ORIGINAL" v c =
          mkSuggestion (File c) (Line c) (EndLine c) (Severity c)
            (Confidence c) (Title c) (Description c) v (SuggestFix c)
            (Category c)
        /\ writeField "FIX" v c =
          mkSuggestion (File c) (Line c) (EndLine c) (Severity c)
            (Confidence c) (Title c) (Description c) (OriginalCode c) v
            (Category c)
        /\ writeField "" v c = c)
  /\ (forall line, line <> "---" -> line <> "<<<" ->
        exists st', step file st line = Ok st'
          /\ inMultiLine st' = false
          /\ lastField st' =
               if hasPrefix line "ORIGINAL:" then "ORIGINAL"
               else if hasPrefix line "FIX:" then "FIX"
               else lastField st)
  /\ (exists st1,
        step file st "---" = Ok st1
        /\ inMultiLine st1 = false
        /\ current st1 = Some (newSuggestion file)
        /\ lastField st1 = "")
  /\ (forall before st0 items,
        pre = before ++ "---" :: items_lines items ->
        run file initState before = Ok st0 ->
        inMultiLine st0 = false ->
        Forall item_ok items ->
        lastField st = remembered items).
Proof.
  intros Hpre Hin Hc Hbody.
  assert (Hopen := step_open file st c Hin Hc).
  assert (Hacc : run file initState (pre ++ "<<<" :: body) =
                 Ok (mkState (suggestions st) (Some c) (lastField st) body
                       true (lastField st))).
  { rewrite run_app, Hpre. simpl. rewrite Hopen.
    rewrite run_in_block by (simpl; auto). reflexivity. }
  split; [|split; [|split; [|split; [|split; [|split; [|split]]]]]].
  - eapply run_lastField; [|exact Hpre]. now left.
  - exact Hopen.
  - exact Hacc.
  - change ("<<<" :: body ++ [">>>"]) with (("<<<" :: body) ++ [">>>"]).
    rewrite app_assoc, run_app, Hacc. simpl.
    rewrite (step_close file _ c) by reflexivity. reflexivity.
  - intros v. destruct c; repeat split.
  - intros line Hsep Hopen'. unfold step. rewrite Hin, Hc. simpl.
    apply String.eqb_neq in Hsep, Hopen'. rewrite Hsep, Hopen'.
    pose proof (parseField_lastField line c (lastField st)) as Hlf.
    destruct (parseField line c (lastField st)) as [c' lf'].
    eexists; split; [reflexivity|]. split; [reflexivity|]. exact Hlf.
  - rewrite (step_separator_resets file st Hin). eexists.
    split; [reflexivity|]. repeat split.
  - intros before st0 items -> Hbefore Hin0 Hitems.
    rewrite run_app, Hbefore in Hpre. cbn [run] in Hpre.
    rewrite (step_separator_resets file st0 Hin0) in Hpre.
    match type of Hpre with
    | run file ?s _ = _ =>
        destruct (run_items file items s (newSuggestion file)
                    eq_refl eq_refl Hitems)
          as (st' & c' & Hrun & _ & _ & Hlf)
    end.
    rewrite Hrun in Hpre. inversion Hpre; subst. exact Hlf.
Qed.

(** The FIX block of a small record, read by way of the theorem. *)
Lemma C6_block_protocol_witness :
  run "f.go" initState
    (["---"; "TITLE: t"; "FIX:"] ++ "<<<" :: ["a"; "b"] ++ [">>>"]) =
  Ok (mkState []
        (Some (mkSuggestion "f.go" 0 0 "" "" "t" "" "" ("a" +:+ nl +:+ "b") ""))
        "" [] false "FIX").
Proof.
  pose proof (C6_block_protocol "f.go" ["---"; "TITLE: t"; "FIX:"] ["a"; "b"]
                (mkState [] (Some (mkSuggestion "f.go" 0 0 "" "" "t" "" "" "" ""))
                   "" [] false "FIX")
                (mkSuggestion "f.go" 0 0 "" "" "t" "" "" "" "")) as H.
  destruct H as (_ & _ & _ & H & _).
  - vm_compute. reflexivity.
  - reflexivity.
  - reflexivity.
  - repeat constructor; discriminate.
  - exact H.
Defined.

(** C10.  When the reply ends inside a block, the block was opened by some
    [<<<] line in a record; none of the lines after it closed it; the record
    is the one that stood before the opener, so the field being filled keeps
    its value and the lines of the block are lost; and the result is what
    flushing that record gives: the record is emitted when its title is not
    empty. *)
Theorem C10_unclosed_block (file : string) (lines : list string)
    (st : ParserState) :
  run file initState lines = Ok st ->
  inMultiLine st = true ->
  exists pre body st0 c,
    lines = pre ++ "<<<" :: body
    /\ run file initState pre = Ok st0
    /\ inMultiLine st0 = false
    /\ current st0 = Some c
    /\ Forall (fun l => l <> ">>>") body
    /\ st = mkState (suggestions st0) (Some c) (lastField st0) body true
              (lastField st0)
    /\ finish st = finish st0
    /\ finish st =
         (if String.eqb (Title c) "" then suggestions st0
          else suggestions st0 ++ [c]).
Proof.
  revert st. induction lines as [|l ls IH] using rev_ind; intros st Hrun Hin.
  - simpl in Hrun. inversion Hrun; subst. discriminate Hin.
  - rewrite run_app in Hrun.
    destruct (run file initState ls) as [st1| |] eqn:Hls; try discriminate.
    simpl in Hrun.
    destruct (step file st1 l) as [st2| |] eqn:Hs; try discriminate.
    inversion Hrun; subst st2. clear Hrun.
    destruct (inMultiLine st1) eqn:Hin1.
    + destruct (IH st1 eq_refl Hin1)
        as (pre & body & st0 & c & -> & Hpre & Hin0 & Hc & Hbody & -> & Hf & Hf').
      unfold step in Hs. simpl in Hs.
      destruct (String.eqb l ">>>") eqn:Hl.
      { destruct (String.eqb (lastField st0) "ORIGINAL");
          [|destruct (String.eqb (lastField st0) "FIX")];
          inversion Hs; subst; discriminate Hin. }
      inversion Hs; subst st. clear Hs.
      exists pre, (body ++ [l]), st0, c.
      apply String.eqb_neq in Hl.
      repeat split; auto.
      * now rewrite <- app_assoc.
      * apply Forall_app. split; auto.
    + unfold step in Hs. rewrite Hin1 in Hs. simpl in Hs.
      destruct (String.eqb l "---");
        [inversion Hs; subst; discriminate Hin|].
      destruct (current st1) as [c|] eqn:Hc;
        [|inversion Hs; subst; congruence].
      destruct (String.eqb l "<<<") eqn:Hl.
      * apply String.eqb_eq in Hl. subst l. inversion Hs; subst st. clear Hs.
        exists ls, [], st1, c. unfold finish. simpl. rewrite Hc.
        repeat split; auto.
      * destruct (parseField l c (lastField st1)).
        inversion Hs; subst; discriminate Hin.
Qed.

Lemma C10_unclosed_block_witness :
  exists pre body st0 c,
    splitLines unclosed_reply = pre ++ "<<<" :: body
    /\ run "f.go" initState pre = Ok st0
    /\ inMultiLine st0 = false
    /\ current st0 = Some c
    /\ Forall (fun l => l <> ">>>") body
    /\ mkState [] (Some (mkSuggestion "f.go" 0 0 "" "" "t" "" "" "old" ""))
         "FIX" ["new"; "LINE: 5"] true "FIX"
       = mkState (suggestions st0) (Some c) (lastField st0) body true
           (lastField st0)
    /\ finish (mkState [] (Some (mkSuggestion "f.go" 0 0 "" "" "t" "" "" "old" ""))
                 "FIX" ["new"; "LINE: 5"] true "FIX") = finish st0
    /\ finish (mkState [] (Some (mkSuggestion "f.go" 0 0 "" "" "t" "" "" "old" ""))
                 "FIX" ["new"; "LINE: 5"] true "FIX") =
         (if String.eqb (Title c) "" then suggestions st0
          else suggestions st0 ++ [c]).
Proof.
  apply (C10_unclosed_block "f.go" (splitLines unclosed_reply)).
  - vm_compute. reflexivity.
  - reflexivity.
Defined.

End ParserProps.

(** * Properties of the patch applier *)

Module PatchProps.

Import Review OS UI StringNotions StringProps PatchNotions.

(** What a call of [applyFix] comes to: nothing, when it returns before
    the write or when the file cannot be opened for writing; a file left
    with a part of the patched content, when the write breaks off; the
    patched file, and whatever [git add] makes of the staging area, when
    the write succeeds. *)
Lemma applyFix_outcomes sug w b w1 :
  applyFix sug w = (b, w1) ->
  (b = false /\ w1 = w)
  \/ (exists f n,
        b = false
        /\ files w !! File sug = Some f
        /\ readable f = true /\ writable f = false
        /\ torn w !! File sug = Some n
        /\ w1 = mkWorld
                  (<[File sug :=
                       mkFile (slice_to n (ReplaceFirst (content f)
                                             (OriginalCode sug)
                                             (SuggestFix sug)))
                         (mode f) (readable f) (writable f)]> (files w))
                  (index w) (torn w) (git_add w))
  \/ (exists f,
        b = true
        /\ files w !! File sug = Some f
        /\ readable f = true /\ writable f = true
        /\ files w1 =
             <[File sug :=
                 mkFile (ReplaceFirst (content f) (OriginalCode sug)
                           (SuggestFix sug))
                   (mode f) (readable f) (writable f)]> (files w)
        /\ torn w1 = torn w /\ git_add w1 = git_add w
        /\ (index w1 = index w
            \/ git_add w (File sug) (files w1) (index w) = Some (index w1))).
Proof.
  unfold applyFix. intros H.
  destruct (String.eqb (SuggestFix sug) "" || String.eqb (SuggestFix sug) "N/A");
    [inversion H; auto|].
  destruct (String.eqb (OriginalCode sug) ""
            || String.eqb (OriginalCode sug) "N/A"); [inversion H; auto|].
  unfold ReadFile, StatPerm, WriteFile in H.
  destruct (files w !! File sug) as [f|] eqn:Hf; [|inversion H; auto].
  destruct (readable f) eqn:Hr; [|inversion H; auto].
  destruct (negb (Contains (content f) (OriginalCode sug)));
    [inversion H; auto|].
  set (new := ReplaceFirst (content f) (OriginalCode sug) (SuggestFix sug))
    in *.
  destruct (String.eqb new (content f)); [inversion H; auto|].
  destruct (writable f) eqn:Hw.
  - right. right. exists f. unfold GitAdd in H. cbn [files index torn git_add] in H.
    destruct (git_add w (File sug) _ (index w)) as [staged|] eqn:Hadd;
      inversion H; subst; cbn [files index torn git_add];
      rewrite ?Hr, ?Hw; repeat split; auto.
  - destruct (torn w !! File sug) as [n|] eqn:Ht; [|inversion H; auto].
    right. left. exists f, n. inversion H; subst.
    rewrite ?Hr, ?Hw. repeat split; auto.
Qed.



Lemma applyFix_example_present :
  exists w', applyFix (example_fix "foo") example_world = (true, w')
    /\ ReadFile w' "a.txt" = Some ("abc" +:+ nl +:+ "bar" +:+ nl +:+ "xyz").
Proof. eexists. split; vm_compute; reflexivity. Qed.

Lemma applyFix_example_absent :
  applyFix (example_fix "notpresent") example_world = (false, example_world).
Proof. vm_compute. reflexivity. Qed.

(** C1.  For a suggestion whose original and fix snippets are neither empty
    nor the sentinel, and a file that can be read and written: when the
    original occurs and replacing its first occurrence changes the content,
    [applyFix] succeeds and the file holds the old content with exactly that
    occurrence replaced by the fix (same mode, other files untouched); when
    the original does not occur, or the replacement changes nothing,
    [applyFix] fails and the world, the file included, is unchanged. *)
Theorem C1_applyFix_contract (sug : Suggestion) (w : World) (f : FileEntry) :
  files w !! File sug = Some f ->
  readable f = true ->
  writable f = true ->
  OriginalCode sug <> "" -> OriginalCode sug <> "N/A" ->
  SuggestFix sug <> "" -> SuggestFix sug <> "N/A" ->
  (forall pre post,
      first_occurrence (OriginalCode sug) (content f) pre post ->
      pre +:+ SuggestFix sug +:+ post <> content f ->
      exists w', applyFix sug w = (true, w')
        /\ ReadFile w' (File sug) = Some (pre +:+ SuggestFix sug +:+ post)
        /\ files w' =
             <[File sug := mkFile (pre +:+ SuggestFix sug +:+ post) (mode f)
                             (readable f) (writable f)]> (files w))
  /\ (~ occurs (OriginalCode sug) (content f) -> applyFix sug w = (false, w))
  /\ (forall pre post,
        first_occurrence (OriginalCode sug) (content f) pre post ->
        pre +:+ SuggestFix sug +:+ post = content f ->
        applyFix sug w = (false, w)).
Proof.
  intros Hf Hr Hw Ho1 Ho2 Hx1 Hx2.
  apply String.eqb_neq in Ho1, Ho2, Hx1, Hx2.
  assert (Hread : ReadFile w (File sug) = Some (content f))
    by (unfold ReadFile; now rewrite Hf, Hr).
  split; [|split].
  - intros pre post Hfirst Hchg.
    unfold applyFix. rewrite Ho1, Ho2, Hx1, Hx2, Hread. simpl.
    assert (Hocc : Contains (content f) (OriginalCode sug) = true).
    { apply Contains_occurs. destruct Hfirst as [E _]. red; eauto. }
    rewrite Hocc. simpl.
    rewrite (ReplaceFirst_first _ _ _ _ _ Hfirst).
    apply String.eqb_neq in Hchg. rewrite Hchg.
    unfold StatPerm, WriteFile. rewrite Hf, Hw.
    unfold GitAdd. cbn [files index torn git_add].
    match goal with
    | |- context [git_add w ?a ?fs ?ix] => destruct (git_add w a fs ix)
    end.
    + eexists. split; [reflexivity|]. split; [|reflexivity].
      unfold ReadFile. simpl. rewrite lookup_insert_eq. simpl. now rewrite Hr.
    + eexists. split; [reflexivity|]. split; [|reflexivity].
      unfold ReadFile. simpl. rewrite lookup_insert_eq. simpl. now rewrite Hr.
  - intros Hno. unfold applyFix. rewrite Ho1, Ho2, Hx1, Hx2, Hread. simpl.
    destruct (Contains (content f) (OriginalCode sug)) eqn:Hocc;
      [|reflexivity].
    apply Contains_occurs in Hocc. contradiction.
  - intros pre post Hfirst Hsame.
    unfold applyFix. rewrite Ho1, Ho2, Hx1, Hx2, Hread. simpl.
    destruct (Contains (content f) (OriginalCode sug)); [|reflexivity].
    simpl. rewrite (ReplaceFirst_first _ _ _ _ _ Hfirst), Hsame.
    now rewrite String.eqb_refl.
Qed.

(** The example of the specification, by way of the theorem. *)
Lemma C1_applyFix_contract_witness :
  exists w', applyFix (example_fix "foo") example_world = (true, w')
    /\ ReadFile w' "a.txt" = Some (("abc" +:+ nl) +:+ "bar" +:+ (nl +:+ "xyz"))
    /\ files w' =
         <["a.txt" := mkFile (("abc" +:+ nl) +:+ "bar" +:+ (nl +:+ "xyz")) 420
                        true true]> (files example_world).
Proof.
  refine (proj1 (C1_applyFix_contract (example_fix "foo") example_world
                   example_file _ _ _ _ _ _ _)
            ("abc" +:+ nl) (nl +:+ "xyz") _ _);
    try reflexivity; try discriminate.
  apply (Index_first_inv "foo" (content example_file) 4 eq_refl).
Defined.

End PatchProps.

(** * Properties of the review session *)

Module SessionProps.

Import Review OS UI StringProps PatchNotions SessionNotions.

Local Arguments UI.loop : simpl never.
Local Arguments wrap : simpl never.
Local Arguments TrimSpace : simpl never.

Lemma wrap_small z : minInt <= z <= maxInt -> wrap z = z.
Proof.
  unfold wrap, minInt, maxInt. intros H.
  rewrite Z.mod_small; lia.
Qed.

Section WithLower.

Variable unicodeToLower : string -> string.

Abbreviation loop := (loop unicodeToLower).
Abbreviation Run := (Run unicodeToLower).
Abbreviation command := (command unicodeToLower).
Abbreviation is_cmd := (is_cmd unicodeToLower).
Abbreviation decide_commit := (decide_commit unicodeToLower).

Lemma loop_S fuel s w input :
  loop (S fuel) s w input =
  if negb (current s <? total s) then Finished s w input
  else
    match at_current s with
    | None => IndexPanic
    | Some suggestion =>
        let '(line, err, input1) := ReadString input in
        if err then loop fuel (advance s) w input1
        else if is_cmd line "f" "fix" then
          let '(applied, w1) := applyFix suggestion w in
          if applied then loop fuel (advance (count_fixed s)) w1 input1
          else
            let '(confirm, _, input2) := ReadString input1 in
            if String.eqb (command confirm) "y" then
              loop fuel (advance (count_skipped s)) w1 input2
            else loop fuel s w1 input2
        else if is_cmd line "s" "skip" then
          loop fuel (advance (count_skipped s)) w input1
        else if is_cmd line "v" "view" then loop fuel s w input1
        else if is_cmd line "q" "quit" then
          Returned (mkOutcome ActionAbort (fixed s) (skipped s)) w input1
        else loop fuel s w input1
    end.
Proof. reflexivity. Qed.

Lemma at_current_Some s :
  0 <= current s < total s -> exists sug, at_current s = Some sug.
Proof.
  intros [H0 H1]. unfold at_current.
  destruct (current s <? 0) eqn:E; [apply Z.ltb_lt in E; lia|].
  apply lookup_lt_is_Some_2. unfold total in H1. lia.
Qed.

Lemma loop_finished fuel s w input :
  total s <= current s -> loop (S fuel) s w input = Finished s w input.
Proof.
  intros H. rewrite loop_S.
  replace (current s <? total s) with false; [reflexivity|].
  symmetry. apply Z.ltb_ge. exact H.
Qed.

Lemma loop_fix_applied fuel s w input line input1 sug w1 :
  current s < total s ->
  at_current s = Some sug ->
  ReadString input = (line, false, input1) ->
  is_cmd line "f" "fix" = true ->
  applyFix sug w = (true, w1) ->
  loop (S fuel) s w input = loop fuel (advance (count_fixed s)) w1 input1.
Proof.
  intros Hlt Hsug Hread Hcmd Hfix. rewrite loop_S.
  apply Z.ltb_lt in Hlt. rewrite Hlt, Hsug, Hread.
  cbv beta iota zeta. rewrite Hcmd, Hfix. reflexivity.
Qed.

Lemma loop_skip fuel s w input line input1 sug :
  current s < total s ->
  at_current s = Some sug ->
  ReadString input = (line, false, input1) ->
  is_cmd line "f" "fix" = false ->
  is_cmd line "s" "skip" = true ->
  loop (S fuel) s w input = loop fuel (advance (count_skipped s)) w input1.
Proof.
  intros Hlt Hsug Hread Hf Hs. rewrite loop_S.
  apply Z.ltb_lt in Hlt. rewrite Hlt, Hsug, Hread.
  cbv beta iota zeta. rewrite Hf, Hs. reflexivity.
Qed.

Lemma loop_quit fuel s w input line input1 :
  0 <= current s < total s ->
  ReadString input = (line, false, input1) ->
  is_cmd line "f" "fix" = false ->
  is_cmd line "s" "skip" = false ->
  is_cmd line "v" "view" = false ->
  is_cmd line "q" "quit" = true ->
  loop (S fuel) s w input =
  Returned (mkOutcome ActionAbort (fixed s) (skipped s)) w input1.
Proof.
  intros Hcur Hread Hf Hs Hv Hq. rewrite loop_S.
  destruct (at_current_Some s Hcur) as [sug Hsug].
  destruct Hcur as [_ Hlt].
  apply Z.ltb_lt in Hlt. rewrite Hlt, Hsug, Hread.
  cbv beta iota zeta. rewrite Hf, Hs, Hv, Hq. reflexivity.
Qed.

Lemma cmd_fix : is_cmd ("fix" +:+ nl) "f" "fix" = true.
Proof. vm_compute. reflexivity. Qed.

Lemma cmd_skip :
  is_cmd ("skip" +:+ nl) "f" "fix" = false
  /\ is_cmd ("skip" +:+ nl) "s" "skip" = true.
Proof. split; vm_compute; reflexivity. Qed.

Lemma cmd_yes : is_cmd ("yes" +:+ nl) "y" "yes" = true.
Proof. vm_compute. reflexivity. Qed.

Lemma cmd_quit line :
  line = "quit" +:+ nl \/ line = "q" +:+ nl ->
  is_cmd line "f" "fix" = false /\ is_cmd line "s" "skip" = false
  /\ is_cmd line "v" "view" = false /\ is_cmd line "q" "quit" = true.
Proof. intros [->| ->]; repeat split; vm_compute; reflexivity. Qed.

Lemma ReadString_shorter input : forall line err rest,
  ReadString input = (line, err, rest) ->
  (err = false -> (String.length rest < String.length input)%nat)
  /\ (err = true -> rest = "").
Proof.
  induction input as [|c input IH]; intros line err rest H.
  - inversion H; subst. split; [discriminate | reflexivity].
  - cbn [ReadString] in H. destruct (Ascii.eqb c LF).
    + inversion H; subst. split; [intros _; simpl; lia | discriminate].
    + destruct (ReadString input) as [[l e] r].
      inversion H; subst. destruct (IH l err rest eq_refl) as [H1 H2].
      split; [intros E; specialize (H1 E); simpl; lia | assumption].
Qed.




(** C7.  Over two suggestions, [fix] (the patch applying) and then [skip]
    end the loop past the last suggestion with one fixed, one skipped and
    none remaining; [yes] at the commit prompt then returns commit with
    those counts.  At any suggestion of any session, [quit] (or [q])
    returns abort with the counts reached so far. *)
Theorem C7_session_trace (s1 s2 : Suggestion) (w w1 : World) (rest : string) :
  applyFix s1 w = (true, w1) ->
  (exists fin,
      loop (iterations (two s1 s2) (typed_fix_skip +:+ rest)) (two s1 s2) w
        (typed_fix_skip +:+ rest) = Finished fin w1 rest
      /\ current fin = 2 /\ fixed fin = 1 /\ skipped fin = 1
      /\ remaining fin = 0)
  /\ Run (two s1 s2) w (typed_fix_skip +:+ typed_yes +:+ rest) =
       Returned (mkOutcome ActionCommit 1 1) w1 rest
  /\ (forall s w' rest',
        0 <= current s < total s ->
        Run s w' (typed_quit +:+ rest') =
          Returned (mkOutcome ActionAbort (fixed s) (skipped s)) w' rest'
        /\ Run s w' (typed_q +:+ rest') =
          Returned (mkOutcome ActionAbort (fixed s) (skipped s)) w' rest').
Proof.
  intros Hfix.
  set (after_fix := mkSession 1 1 0 [s1; s2] ∅).
  set (after_skip := mkSession 2 1 1 [s1; s2] (<[1 := true]> ∅)).
  assert (Hloop : forall k tail,
             loop (S (S (S k))) (two s1 s2) w (typed_fix_skip +:+ tail) =
             Finished after_skip w1 tail).
  { intros k tail.
    rewrite (loop_fix_applied _ (two s1 s2) w (typed_fix_skip +:+ tail)
               ("fix" +:+ nl)
               ("skip" +:+ nl +:+ tail) s1 w1
               eq_refl eq_refl eq_refl cmd_fix Hfix).
    change (advance (count_fixed (two s1 s2))) with after_fix.
    rewrite (loop_skip _ after_fix w1 ("skip" +:+ nl +:+ tail)
               ("skip" +:+ nl) tail s2
               eq_refl eq_refl eq_refl (proj1 cmd_skip) (proj2 cmd_skip)).
    change (advance (count_skipped after_fix)) with after_skip.
    apply loop_finished. vm_compute. discriminate. }
  assert (Hfuel : forall tail, exists k,
             iterations (two s1 s2) (typed_fix_skip +:+ tail) = S (S (S k))).
  { intros tail. unfold iterations. rewrite slength_app.
    change (String.length typed_fix_skip) with 9%nat.
    change (Z.to_nat (total (two s1 s2) - current (two s1 s2))) with 2%nat.
    exists (9 + String.length tail)%nat. lia. }
  split; [|split].
  - exists after_skip. destruct (Hfuel rest) as [k ->].
    split; [apply Hloop|]. repeat split.
  - unfold Run. change (total (two s1 s2) =? 0) with false. cbv iota.
    destruct (Hfuel (typed_yes +:+ rest)) as [k ->].
    rewrite Hloop. unfold decide_commit.
    change (ReadString (typed_yes +:+ rest))
      with ("yes" +:+ nl, false, rest).
    cbv beta iota zeta. rewrite cmd_yes. reflexivity.
  - intros s w' rest' Hcur.
    assert ((total s =? 0) = false) as Ht by (apply Z.eqb_neq; lia).
    split; unfold Run, iterations; rewrite Ht.
    + destruct (cmd_quit ("quit" +:+ nl)) as (Hf & Hs & Hv & Hq); [now left|].
      rewrite (loop_quit _ s w' (typed_quit +:+ rest') ("quit" +:+ nl) rest'
                 Hcur eq_refl Hf Hs Hv Hq).
      reflexivity.
    + destruct (cmd_quit ("q" +:+ nl)) as (Hf & Hs & Hv & Hq); [now right|].
      rewrite (loop_quit _ s w' (typed_q +:+ rest') ("q" +:+ nl) rest'
                 Hcur eq_refl Hf Hs Hv Hq).
      reflexivity.
Qed.

End WithLower.


(** The trace on the file of the patch example, for a [strings.ToLower]
    that leaves other than ASCII letters alone. *)
Lemma C7_session_trace_witness :
  UI.Run (fun s => s)
    (two (example_fix "foo") (example_fix "xyz"))
    example_world (typed_fix_skip +:+ typed_yes +:+ "") =
  Returned (mkOutcome ActionCommit 1 1)
    (snd (applyFix (example_fix "foo") example_world))
    "".
Proof.
  refine (proj1 (proj2 (C7_session_trace (fun s => s) _ _ _ _ "" _))).
  vm_compute. reflexivity.
Defined.

End SessionProps.

(** * Properties of the review orchestrator *)

Module ReviewerProps.

Import Review ParserProps ReviewerNotions.

Section WithClient.

Variable ClientState : Type.
Variable Chat : ClientState -> string -> string -> ChatReply * ClientState.

Abbreviation reviewFile := (reviewFile ClientState Chat).
Abbreviation reviewLoop := (reviewLoop ClientState Chat).
Abbreviation Review := (Review ClientState Chat).

Lemma reviewFile_cases r cs change :
  (exists e cs', Chat cs (model r) (prompt_of r change) = (Failure e, cs')
                 /\ reviewFile r cs change = (Err e, cs'))
  \/ (exists response cs' sugs,
        Chat cs (model r) (prompt_of r change) = (Reply response, cs')
        /\ parseReviewResponse response (Git.Path change) = Ok sugs
        /\ Forall (fun s => File s = Git.Path change) sugs
        /\ reviewFile r cs change = (Ok sugs, cs')).
Proof.
  unfold Review.reviewFile, prompt_of.
  destruct (Chat cs (model r) _) as [[response|e] cs'].
  - right. destruct (parseReviewResponse_total response (Git.Path change))
      as [sugs Hs].
    exists response, cs', sugs. rewrite Hs. repeat split.
    eapply parseReviewResponse_File; eauto.
  - left. eauto.
Qed.

(** The loop started from a partial result is the loop started from the
    empty result, put behind that partial result. *)
Lemma reviewLoop_acc r changes : forall cs files sugs summary,
  reviewLoop r cs changes (mkReviewResult files sugs summary) =
  match reviewLoop r cs changes (mkReviewResult [] [] summary) with
  | Ok (result, cs') =>
      Ok (mkReviewResult (files ++ Files result) (sugs ++ Suggestions result)
            (Summary result), cs')
  | Err e => Err e
  | Panic => Panic
  end.
Proof.
  induction changes as [|change rest IH]; intros cs files sugs summary.
  - simpl. now rewrite !app_nil_r.
  - simpl. destruct (Git.IsBinary change).
    + rewrite IH. rewrite (IH cs [Git.Path change] []).
      destruct (reviewLoop r cs rest _) as [[res cs']| |]; simpl; auto.
      now rewrite <- app_assoc.
    + destruct (reviewFile_cases r cs change)
        as [(e & cs' & _ & ->)|(resp & cs' & l & _ & _ & _ & ->)].
      * rewrite IH. rewrite (IH cs' [Git.Path change] []).
        destruct (reviewLoop r cs' rest _) as [[res cs'']| |]; simpl; auto.
        now rewrite <- app_assoc.
      * rewrite IH. rewrite (IH cs' [Git.Path change] ([] ++ l)).
        destruct (reviewLoop r cs' rest _) as [[res cs'']| |]; simpl; auto.
        now rewrite <- !app_assoc.
Qed.

Lemma Review_cons r cs change rest :
  Review r cs (change :: rest) =
  if Git.IsBinary change then prepend (Git.Path change) [] (Review r cs rest)
  else match reviewFile r cs change with
       | (Ok sugs, cs') => prepend (Git.Path change) sugs (Review r cs' rest)
       | (Err _, cs') => prepend (Git.Path change) [] (Review r cs' rest)
       | (Panic, _) => Panic
       end.
Proof.
  unfold Review.Review, prepend. simpl.
  destruct (Git.IsBinary change).
  - rewrite reviewLoop_acc.
    destruct (reviewLoop r cs rest _) as [[res cs']| |]; reflexivity.
  - destruct (reviewFile r cs change) as [[sugs|e|] cs']; auto.
    + rewrite reviewLoop_acc.
      destruct (reviewLoop r cs' rest _) as [[res cs'']| |]; reflexivity.
    + rewrite reviewLoop_acc.
      destruct (reviewLoop r cs' rest _) as [[res cs'']| |]; reflexivity.
Qed.

Lemma Review_invariant r changes : forall cs,
  exists result cs',
    Review r cs changes = Ok (result, cs')
    /\ Files result = map Git.Path changes
    /\ Forall (fun s => In (File s) (Files result)) (Suggestions result).
Proof.
  induction changes as [|change rest IH]; intros cs.
  - exists (mkReviewResult [] [] ""), cs. repeat split. constructor.
  - rewrite Review_cons.
    assert (Hpre : forall cs1 sugs,
               Forall (fun s => File s = Git.Path change) sugs ->
               exists result cs',
                 prepend (Git.Path change) sugs (Review r cs1 rest)
                 = Ok (result, cs')
                 /\ Files result = map Git.Path (change :: rest)
                 /\ Forall (fun s => In (File s) (Files result))
                      (Suggestions result)).
    { intros cs1 sugs Hs.
      destruct (IH cs1) as (res & cs' & -> & HF & HS).
      eexists; eexists. split; [reflexivity|]. simpl.
      split; [now rewrite HF|].
      apply Forall_app. split.
      - eapply Forall_impl; [exact Hs|]. intros s ->. now left.
      - eapply Forall_impl; [exact HS|]. intros s Hin. now right. }
    destruct (Git.IsBinary change); [apply Hpre; constructor|].
    destruct (reviewFile_cases r cs change)
      as [(e & cs' & _ & ->)|(resp & cs' & l & _ & _ & Hl & ->)].
    + apply Hpre; constructor.
    + apply Hpre; exact Hl.
Qed.

(** C9.  For every list of changes and every assistant, [Review] returns a
    result; its [Files] are the paths of the changes, in order; the file of
    every suggestion is among them; and a change that is binary, or whose
    call to the assistant fails, adds its path and no suggestion, the
    result being otherwise that of the remaining changes. *)
Theorem C9_review_invariant (r : Reviewer) (cs : ClientState)
    (changes : list Git.FileChange) :
  (exists result cs',
      Review r cs changes = Ok (result, cs')
      /\ Files result = map Git.Path changes
      /\ Forall (fun s => In (File s) (Files result)) (Suggestions result))
  /\ (forall change rest,
        Git.IsBinary change = true ->
        Review r cs (change :: rest) =
        prepend (Git.Path change) [] (Review r cs rest))
  /\ (forall change rest e cs',
        Git.IsBinary change = false ->
        Chat cs (model r) (prompt_of r change) = (Failure e, cs') ->
        Review r cs (change :: rest) =
        prepend (Git.Path change) [] (Review r cs' rest))
  /\ (forall change rest response cs',
        Git.IsBinary change = false ->
        Chat cs (model r) (prompt_of r change) = (Reply response, cs') ->
        exists sugs,
          parseReviewResponse response (Git.Path change) = Ok sugs
          /\ Forall (fun s => File s = Git.Path change) sugs
          /\ Review r cs (change :: rest) =
             prepend (Git.Path change) sugs (Review r cs' rest)).
Proof.
  split; [apply Review_invariant|]. split; [|split].
  - intros change rest Hb. now rewrite Review_cons, Hb.
  - intros change rest e cs' Hb Hchat. rewrite Review_cons, Hb.
    destruct (reviewFile_cases r cs change)
      as [(e1 & cs1 & H1 & ->)|(resp & cs1 & l & H1 & _)];
      rewrite Hchat in H1; inversion H1; subst; reflexivity.
  - intros change rest response cs' Hb Hchat. rewrite Review_cons, Hb.
    destruct (reviewFile_cases r cs change)
      as [(e1 & cs1 & H1 & _)|(resp & cs1 & l & H1 & Hp & Hl & ->)];
      rewrite Hchat in H1; inversion H1; subst.
    exists l. auto.
Qed.

End WithClient.

End ReviewerProps.

(** * Properties of the change filter *)

Module FilterProps.

Import Git Cmd FilterNotions.

Local Arguments HasPrefix : simpl never.
Local Arguments HasSuffix : simpl never.
Local Arguments Contains : simpl never.
Local Arguments slice_from : simpl never.
Local Arguments slice_to : simpl never.
Local Arguments dirRule : simpl never.
Local Arguments ToSlash : simpl never.
Local Arguments Base : simpl never.
Local Arguments String.append : simpl never.

Section WithMatcher.

Variable Match : string -> string -> bool * bool.
Variable verbose : bool.

Abbreviation patternIgnores := (patternIgnores Match verbose).
Abbreviation ignoreLoop := (ignoreLoop Match verbose).
Abbreviation shouldIgnoreFile := (shouldIgnoreFile Match verbose).
Abbreviation filterLoop := (filterLoop Match verbose).
Abbreviation filterChanges := (filterChanges Match verbose).

Lemma patternIgnores_hit path base pattern :
  fst (patternIgnores path base pattern) = patternHit Match path base pattern.
Proof.
  unfold Cmd.patternIgnores, patternHit, starRule.
  destruct (Match (ToSlash pattern) path) as [m1 e1]; simpl.
  destruct m1; simpl; [reflexivity|].
  destruct (Match (ToSlash pattern) base) as [m2 e2]; simpl.
  destruct m2; simpl; [reflexivity|].
  destruct (dirRule (ToSlash pattern) path); simpl; [reflexivity|].
  destruct (Contains (ToSlash pattern) "**" && HasPrefix (ToSlash pattern) "**/");
    simpl; [|reflexivity].
  destruct (HasSuffix (slice_from 3 (ToSlash pattern)) "/*"); simpl;
    [reflexivity|].
  destruct (Match (slice_from 3 (ToSlash pattern)) base) as [m3 e3].
  reflexivity.
Qed.

Lemma ignoreLoop_hit path base patterns :
  fst (ignoreLoop path base patterns) =
  existsb (patternHit Match path base) patterns.
Proof.
  induction patterns as [|p ps IH]; simpl; [reflexivity|].
  rewrite <- patternIgnores_hit.
  destruct (patternIgnores path base p) as [hit out]; simpl.
  destruct hit; simpl; [reflexivity|].
  destruct (ignoreLoop path base ps) as [hit' out']. exact IH.
Qed.

Lemma filterLoop_keeps patterns maxSize changes :
  fst (filterLoop patterns maxSize changes) =
  List.filter (keeps Match patterns maxSize) changes.
Proof.
  induction changes as [|c cs IH]; simpl; [reflexivity|].
  unfold keeps at 1. rewrite <- ignoreLoop_hit.
  unfold Cmd.shouldIgnoreFile.
  destruct (ignoreLoop (ToSlash (Path c)) (Base (Path c)) patterns)
    as [ignored out]; simpl.
  destruct (filterLoop patterns maxSize cs) as [kept out']. simpl in IH.
  destruct ignored; simpl; [exact IH|].
  destruct (Z.of_nat (len (Content c)) >? maxSize); simpl;
    [exact IH | now rewrite IH].
Qed.

Lemma filter_sublist (f : FileChange -> bool) changes :
  sublist (List.filter f changes) changes.
Proof.
  induction changes as [|c cs IH]; simpl; [constructor|].
  destruct (f c); now constructor.
Qed.

End WithMatcher.

(** C8 as stated fails twice.  The pattern [[/*] is malformed, and yet it
    makes the filter drop the file [[/x.go]: whatever the matcher answers
    on it, the rule for patterns that end in [/*] applies to its text.  And
    with a configured maximum of 0 a file of five bytes is kept: 0 stands
    for the default maximum. *)
Lemma C8_counterexample :
  (forall Match verbose,
      fst (shouldIgnoreFile Match verbose "[/x.go" ["[/*"]) = true)
  /\ unclosed_class_matcher "[/*" "[/x.go" = (false, true)
  /\ unclosed_class_matcher "[/*" (Base "[/x.go") = (false, true)
  /\ fst (filterChanges unclosed_class_matcher false ["[/*"] 1000
            [bracket_change]) = []
  /\ Z.of_nat (len (Content small_change)) > 0
  /\ fst (filterChanges unclosed_class_matcher false [] 0 [small_change])
     = [small_change].
Proof.
  split; [|repeat split; vm_compute; reflexivity].
  intros Match verbose.
  unfold shouldIgnoreFile. rewrite ignoreLoop_hit. simpl.
  unfold patternHit.
  replace (dirRule (ToSlash "[/*") (ToSlash "[/x.go")) with true
    by (vm_compute; reflexivity).
  rewrite orb_true_r. reflexivity.
Qed.

(** C8, as the code has it.  The filter keeps, in their order, exactly the
    changes that no pattern hits and whose content is not longer than the
    maximum in force (the configured one, or 100000 when 0 is configured).
    A change whose path or base name matches a pattern is dropped, and so is
    one that is too long.  The errors that the matcher reports, and
    [verbose], have no part in what is kept: a test that reports one counts
    for what it answers, which is no match; the pattern can then only hit
    through the two rules on its text, for patterns that end in [/*] or
    start with [**/]. *)
Theorem C8_change_filter (Match : string -> string -> bool * bool)
    (verbose : bool) (patterns : list string) (configuredMax : Z)
    (changes : list FileChange) :
  let kept := fst (filterChanges Match verbose patterns configuredMax changes) in
  let maxSize := maxFileSize configuredMax in
  kept = List.filter (keeps Match patterns maxSize) changes
  /\ sublist kept changes
  /\ (forall change pattern,
        In pattern patterns ->
        fst (Match (ToSlash pattern) (ToSlash (Path change))) = true
        \/ fst (Match (ToSlash pattern) (Base (Path change))) = true ->
        ~ In change kept)
  /\ (forall change,
        Z.of_nat (len (Content change)) > maxSize -> ~ In change kept)
  /\ (configuredMax <> 0 -> maxSize = configuredMax)
  /\ (configuredMax = 0 -> maxSize = 100000)
  /\ (forall Match' verbose',
        (forall p n, fst (Match' p n) = fst (Match p n)) ->
        fst (filterChanges Match' verbose' patterns configuredMax changes)
        = kept)
  /\ (forall path base pattern,
        fst (Match (ToSlash pattern) path) = false ->
        fst (Match (ToSlash pattern) base) = false ->
        HasSuffix (ToSlash pattern) "/*" = false ->
        HasPrefix (ToSlash pattern) "**/" = false ->
        patternHit Match path base pattern = false).
Proof.
  intros kept maxSize. subst kept. unfold filterChanges. fold maxSize.
  rewrite filterLoop_keeps.
  split; [reflexivity|]. split; [apply filter_sublist|].
  split; [|split; [|split; [|split; [|split]]]].
  - intros change pattern Hp Hm Hin.
    apply filter_In in Hin as [_ Hk]. unfold keeps in Hk.
    apply andb_true_iff in Hk as [Hk _]. apply negb_true_iff in Hk.
    assert (existsb (patternHit Match (ToSlash (Path change))
                       (Base (Path change))) patterns = true) as Hex.
    { apply existsb_exists. exists pattern. split; [assumption|].
      unfold patternHit. destruct Hm as [-> | ->]; simpl;
        rewrite ?orb_true_r; reflexivity. }
    congruence.
  - intros change Hbig Hin.
    apply filter_In in Hin as [_ Hk]. unfold keeps in Hk.
    apply andb_true_iff in Hk as [_ Hk]. apply negb_true_iff in Hk.
    rewrite Z.gtb_ltb, Z.ltb_ge in Hk. lia.
  - intros Hne. unfold maxSize, Cmd.maxFileSize.
    apply Z.eqb_neq in Hne. now rewrite Hne.
  - intros ->. reflexivity.
  - intros Match' verbose' Hsame. rewrite filterLoop_keeps.
    apply filter_ext. intros c. unfold keeps. f_equal. f_equal.
    induction patterns as [|p ps IH]; simpl; [reflexivity|].
    rewrite IH. f_equal. unfold patternHit. now rewrite !Hsame.
  - intros path base pattern H1 H2 H3 H4. unfold patternHit, dirRule.
    rewrite H1, H2, H3, H4. simpl. now rewrite andb_false_r.
Qed.

(** X3.  Filtering what the filter kept keeps all of it. *)
Theorem filter_idempotent (Match : string -> string -> bool * bool)
    (verbose : bool) (patterns : list string) (configuredMax : Z)
    (changes : list FileChange) :
  fst (filterChanges Match verbose patterns configuredMax
         (fst (filterChanges Match verbose patterns configuredMax changes)))
  = fst (filterChanges Match verbose patterns configuredMax changes).
Proof.
  unfold filterChanges. rewrite !filterLoop_keeps.
  induction changes as [|c cs IH]; simpl; [reflexivity|].
  destruct (keeps Match patterns (maxFileSize configuredMax) c) eqn:Hk;
    simpl; [|exact IH].
  now rewrite Hk, IH.
Qed.

End FilterProps.


(** * What the session does to its counters and to the files *)

Module SessionInvariants.

Import Review OS UI StringProps PatchNotions SessionNotions PatchProps
  SessionProps.

Local Arguments UI.loop : simpl never.
Local Arguments wrap : simpl never.
Local Arguments TrimSpace : simpl never.

(** [applyFix] changes no permission bits, and neither creates nor removes
    a file: whether it succeeds, fails, or fails in the middle of the
    write. *)
Lemma applyFix_modes sug w b w1 :
  applyFix sug w = (b, w1) ->
  forall path, mode <$> (files w1 !! path) = mode <$> (files w !! path).
Proof.
  intros H path.
  assert (Hins : forall f e, files w !! File sug = Some f ->
             mode e = mode f ->
             mode <$> (<[File sug := e]> (files w) !! path)
             = mode <$> (files w !! path)).
  { intros f e Hf He. destruct (decide (File sug = path)) as [<-|Hne].
    - rewrite lookup_insert_eq, Hf. simpl. now rewrite He.
    - rewrite lookup_insert_ne by assumption. reflexivity. }
  destruct (applyFix_outcomes _ _ _ _ H)
    as [[_ ->]|[(f & n & _ & Hf & _ & _ & _ & ->)
               |(f & _ & Hf & _ & _ & -> & _)]].
  - reflexivity.
  - cbn [files]. now apply (Hins f).
  - now apply (Hins f).
Qed.

Lemma at_current_In s sug : at_current s = Some sug -> In sug (suggestions s).
Proof.
  unfold at_current. destruct (current s <? 0); [discriminate|].
  intros H. apply list_elem_of_In. eapply list_elem_of_lookup_2. exact H.
Qed.

Section WithLower.

Variable unicodeToLower : string -> string.

Abbreviation loop := (loop unicodeToLower).
Abbreviation Run := (Run unicodeToLower).
Abbreviation command := (command unicodeToLower).
Abbreviation is_cmd := (is_cmd unicodeToLower).
Abbreviation decide_commit := (decide_commit unicodeToLower).

(** A relation between sessions and worlds that every way through the body
    of the loop keeps, holds when the loop is over and for the counts that
    an early return carries. *)
Lemma loop_preserves (Inv : ReviewSession -> World -> Prop) :
  (forall s w, Inv s w -> current s < total s -> Inv (advance s) w) ->
  (forall s w, Inv s w -> current s < total s ->
               Inv (advance (count_skipped s)) w) ->
  (forall s w sug w1, Inv s w -> current s < total s ->
      at_current s = Some sug -> applyFix sug w = (true, w1) ->
      Inv (advance (count_fixed s)) w1) ->
  (forall s w sug w1, Inv s w -> current s < total s ->
      at_current s = Some sug -> applyFix sug w = (false, w1) ->
      Inv s w1 /\ Inv (advance (count_skipped s)) w1) ->
  forall fuel s w input,
    Inv s w ->
    match loop fuel s w input with
    | Returned o w' _ =>
        exists s', Inv s' w' /\ Fixed o = fixed s' /\ Skipped o = skipped s'
    | Finished s' w' _ => Inv s' w' /\ total s' <= current s'
    | IndexPanic => True
    | NoFuel => True
    end.
Proof.
  intros Hadv Hskip Hfix Hfail.
  induction fuel as [|fuel IH]; intros s w input HI; [exact I|].
  rewrite (loop_S unicodeToLower).
  destruct (current s <? total s) eqn:Hlt; simpl negb; cbv iota.
  2:{ apply Z.ltb_ge in Hlt. auto. }
  apply Z.ltb_lt in Hlt.
  destruct (at_current s) as [sug|] eqn:Hsug; [|exact I].
  destruct (ReadString input) as [[line err] input1].
  cbv beta iota zeta.
  destruct err; [apply IH; auto|].
  destruct (is_cmd line "f" "fix").
  { destruct (applyFix sug w) as [applied w1] eqn:Hap. destruct applied.
    - apply IH. eapply Hfix; eauto.
    - destruct (Hfail s w sug w1 HI Hlt Hsug Hap) as [Hs Hk].
      destruct (ReadString input1) as [[confirm e2] input2].
      destruct (String.eqb (command confirm) "y"); apply IH; auto. }
  destruct (is_cmd line "s" "skip"); [apply IH; auto|].
  destruct (is_cmd line "v" "view"); [apply IH; auto|].
  destruct (is_cmd line "q" "quit"); [|apply IH; auto].
  exists s. auto.
Qed.

Lemma Run_preserves (Inv : ReviewSession -> World -> Prop) :
  (forall s w, Inv s w -> current s < total s -> Inv (advance s) w) ->
  (forall s w, Inv s w -> current s < total s ->
               Inv (advance (count_skipped s)) w) ->
  (forall s w sug w1, Inv s w -> current s < total s ->
      at_current s = Some sug -> applyFix sug w = (true, w1) ->
      Inv (advance (count_fixed s)) w1) ->
  (forall s w sug w1, Inv s w -> current s < total s ->
      at_current s = Some sug -> applyFix sug w = (false, w1) ->
      Inv s w1 /\ Inv (advance (count_skipped s)) w1) ->
  forall s w input o w' rest,
    Inv s w ->
    Run s w input = Returned o w' rest ->
    (total s = 0 /\ Fixed o = 0 /\ Skipped o = 0 /\ w' = w)
    \/ (exists s', Inv s' w' /\ Fixed o = fixed s' /\ Skipped o = skipped s').
Proof.
  intros Hadv Hskip Hfix Hfail s w input o w' rest HI. unfold UI.Run.
  destruct (total s =? 0) eqn:Ht.
  { apply Z.eqb_eq in Ht. intros H. inversion H; subst. left. auto. }
  pose proof (loop_preserves Inv Hadv Hskip Hfix Hfail
                (iterations s input) s w input HI) as Hl.
  destruct (loop (iterations s input) s w input)
    as [o1 w1 i1|s1 w1 i1| |]; try discriminate.
  - intros H. inversion H; subst. right. exact Hl.
  - destruct Hl as [Hl _]. unfold UI.decide_commit.
    destruct (ReadString i1) as [[line e] i2].
    destruct (is_cmd line "y" "yes");
      [|destruct (is_cmd line "r" "re-review")];
      intros H; inversion H; subst; right; exists s1; auto.
Qed.

(** X4.  The counts that [Run] returns for a new session are not negative
    and add up to the number of suggestions at most. *)
Theorem Run_counts_bounded (result : ReviewResult) (w : World)
    (input : string) (o : SessionOutcome) (w' : World) (rest : string) :
  Z.of_nat (length (Suggestions result)) <= maxInt ->
  Run (NewReviewSession result) w input = Returned o w' rest ->
  0 <= Fixed o /\ 0 <= Skipped o
  /\ Fixed o + Skipped o <= Z.of_nat (length (Suggestions result)).
Proof.
  intros Hmax Hrun.
  set (T := Z.of_nat (length (Suggestions result))) in *.
  set (Inv := fun (s : ReviewSession) (_ : World) =>
                total s = T /\ 0 <= fixed s /\ 0 <= skipped s
                /\ fixed s + skipped s <= current s /\ current s <= total s).
  assert (Hw : forall z, 0 <= z < T -> wrap (z + 1) = z + 1).
  { intros z Hz. apply wrap_small. unfold minInt, maxInt in *. lia. }
  assert (Ha : forall s w0, Inv s w0 -> current s < total s ->
                            Inv (advance s) w0).
  { intros s w0 (Ht & H1 & H2 & H3 & H4) Hlt. unfold Inv, advance, int_add.
    unfold total in *. simpl. rewrite Hw by lia. repeat split; lia. }
  assert (Hs : forall s w0, Inv s w0 -> current s < total s ->
                            Inv (advance (count_skipped s)) w0).
  { intros s w0 (Ht & H1 & H2 & H3 & H4) Hlt.
    unfold Inv, advance, count_skipped, int_add.
    unfold total in *. simpl. rewrite !Hw by lia. repeat split; lia. }
  assert (Hf : forall s w0 sug w1, Inv s w0 -> current s < total s ->
             at_current s = Some sug -> applyFix sug w0 = (true, w1) ->
             Inv (advance (count_fixed s)) w1).
  { intros s w0 sug w1 (Ht & H1 & H2 & H3 & H4) Hlt _ _.
    unfold Inv, advance, count_fixed, int_add.
    unfold total in *. simpl. rewrite !Hw by lia. repeat split; lia. }
  assert (Hn : forall s w0 sug w1, Inv s w0 -> current s < total s ->
             at_current s = Some sug -> applyFix sug w0 = (false, w1) ->
             Inv s w1 /\ Inv (advance (count_skipped s)) w1).
  { intros s w0 sug w1 HI Hlt _ _. split; [exact HI | exact (Hs s w0 HI Hlt)]. }
  assert (H0 : Inv (NewReviewSession result) w).
  { unfold Inv, NewReviewSession, total. simpl. fold T. lia. }
  destruct (Run_preserves Inv Ha Hs Hf Hn _ _ _ _ _ _ H0 Hrun)
    as [(_ & -> & -> & _)|(s' & (Ht & H1 & H2 & H3 & H4) & -> & ->)].
  - unfold T. lia.
  - lia.
Qed.

(** X5.  A session changes no permission bits in the working tree, and
    neither creates nor removes a file there: at every path, what is there
    after [Run] has the mode of what was there before, and nothing is
    there where nothing was.  (What the session stages, and at which
    paths, is decided by [git add] and is not stated here.) *)
Theorem Run_frame (result : ReviewResult) (w : World)
    (input : string) (o : SessionOutcome) (w' : World) (rest : string) :
  Run (NewReviewSession result) w input = Returned o w' rest ->
  forall path, mode <$> (files w' !! path) = mode <$> (files w !! path).
Proof.
  intros Hrun.
  set (Inv := fun (s : ReviewSession) (w1 : World) =>
                forall path, mode <$> (files w1 !! path)
                             = mode <$> (files w !! path)).
  assert (Happly : forall s w0 sug b w1,
             Inv s w0 -> applyFix sug w0 = (b, w1) -> Inv s w1).
  { intros s w0 sug b w1 Hm Hap path.
    rewrite (applyFix_modes _ _ _ _ Hap path). apply Hm. }
  assert (H0 : Inv (NewReviewSession result) w).
  { intros path. reflexivity. }
  destruct (Run_preserves Inv) with (5 := H0) (6 := Hrun)
    as [(_ & _ & _ & ->)|(s' & Hm & _)]; auto.
  - intros s w0 sug w1 HI _ _ Hap.
    exact (Happly s w0 sug true w1 HI Hap).
  - intros s w0 sug w1 HI _ _ Hap.
    pose proof (Happly s w0 sug false w1 HI Hap). auto.
Qed.

End WithLower.

(** The session of the trace: one fixed, one skipped, of two. *)
Lemma Run_counts_bounded_witness :
  0 <= Fixed (mkOutcome ActionCommit 1 1)
  /\ 0 <= Skipped (mkOutcome ActionCommit 1 1)
  /\ Fixed (mkOutcome ActionCommit 1 1) + Skipped (mkOutcome ActionCommit 1 1)
     <= Z.of_nat (length (Suggestions
                            (mkReviewResult [] [example_fix "foo";
                                                example_fix "xyz"] ""))).
Proof.
  apply (Run_counts_bounded (fun s => s)
           (mkReviewResult [] [example_fix "foo"; example_fix "xyz"] "")
           example_world (typed_fix_skip +:+ typed_yes)
           (mkOutcome ActionCommit 1 1)
           (snd (applyFix (example_fix "foo") example_world)) "").
  - vm_compute. discriminate.
  - vm_compute. reflexivity.
Defined.

(** The same session: the patched file keeps its mode, and no file
    appears beside it. *)
Lemma Run_frame_witness :
  mode <$> (files (snd (applyFix (example_fix "foo") example_world))
              !! "a.txt")
  = mode <$> (files example_world !! "a.txt").
Proof.
  apply (Run_frame (fun s => s)
           (mkReviewResult [] [example_fix "foo"; example_fix "xyz"] "")
           example_world (typed_fix_skip +:+ typed_yes)
           (mkOutcome ActionCommit 1 1)
           (snd (applyFix (example_fix "foo") example_world)) "").
  vm_compute. reflexivity.
Defined.

End SessionInvariants.

(** * The record format, written and read back *)

Module RoundTrip.

Import Review StringProps ParserNotions RecordNotions ParserProps.

Local Arguments hasPrefix : simpl never.
Local Arguments TrimSpace : simpl never.
Local Arguments Atoi : simpl never.

Lemma noLF_app a b : noLF (a +:+ b) = noLF a && noLF b.
Proof.
  induction a as [|c a IH]; simpl; [reflexivity|].
  rewrite IH. now rewrite andb_assoc.
Qed.

Lemma SplitLF_cons_noLF l : forall rest,
  noLF l = true -> SplitLF (l +:+ nl +:+ rest) = l :: SplitLF rest.
Proof.
  induction l as [|c l IH]; intros rest H; simpl in *.
  - reflexivity.
  - apply andb_true_iff in H as [Hc Hl]. apply negb_true_iff in Hc.
    rewrite Hc. now rewrite IH.
Qed.

Lemma SplitLF_noLF l : noLF l = true -> SplitLF l = [l].
Proof.
  induction l as [|c l IH]; intros H; simpl in *; [reflexivity|].
  apply andb_true_iff in H as [Hc Hl]. apply negb_true_iff in Hc.
  rewrite Hc. now rewrite IH.
Qed.

(** Splitting what was joined gives the lines back. *)
Lemma SplitLF_JoinLF ls :
  ls <> [] -> Forall (fun l => noLF l = true) ls -> SplitLF (JoinLF ls) = ls.
Proof.
  induction ls as [|l ls IH]; intros Hne Hall; [congruence|].
  inversion Hall as [|? ? Hl Hls]; subst.
  destruct ls as [|l2 ls].
  - simpl. now apply SplitLF_noLF.
  - change (JoinLF (l :: l2 :: ls)) with (l +:+ nl +:+ JoinLF (l2 :: ls)).
    rewrite SplitLF_cons_noLF by assumption.
    f_equal. apply IH; [discriminate | assumption].
Qed.

Lemma SplitLF_lines s : Forall (fun l => noLF l = true) (SplitLF s).
Proof.
  induction s as [|c s IH]; simpl; [repeat constructor|].
  destruct (Ascii.eqb c LF) eqn:Hc; [constructor; [reflexivity | assumption]|].
  destruct (SplitLF s) as [|l ls]; [repeat constructor; simpl; now rewrite Hc|].
  inversion IH; subst. constructor; [|assumption].
  simpl. now rewrite Hc.
Qed.

Lemma SplitLF_nonempty s : SplitLF s <> [].
Proof.
  destruct s as [|c s]; simpl; [discriminate|].
  destruct (Ascii.eqb c LF); [discriminate|].
  destruct (SplitLF s); discriminate.
Qed.

(** Joining what was split gives the text back. *)
Lemma JoinLF_SplitLF s : JoinLF (SplitLF s) = s.
Proof.
  induction s as [|c s IH]; [reflexivity|]. simpl.
  pose proof (SplitLF_nonempty s) as Hne.
  destruct (Ascii.eqb c LF) eqn:Hc.
  - apply Ascii.eqb_eq in Hc. subst c.
    destruct (SplitLF s) as [|l ls] eqn:Hs; [congruence|].
    change (JoinLF ("" :: l :: ls)) with ("" +:+ nl +:+ JoinLF (l :: ls)).
    rewrite IH. reflexivity.
  - destruct (SplitLF s) as [|l ls] eqn:Hs; [congruence|].
    destruct ls; simpl in *; now rewrite <- IH.
Qed.

Lemma trimLeft_space l : trimLeftBytes (" "%char :: l) = trimLeftBytes l.
Proof. reflexivity. Qed.

Lemma TrimSpace_space v : TrimSpace (String " " v) = TrimSpace v.
Proof. unfold TrimSpace. simpl list_ascii_of_string. now rewrite trimLeft_space. Qed.

(** The value of a line [NAME: value]. *)
Lemma parseStringValue_field p v :
  parseStringValue (p +:+ String " " v) p = TrimSpace v.
Proof.
  unfold parseStringValue, len. rewrite slength_app. simpl String.length.
  destruct (Nat.leb_spec (String.length p + S (String.length v))
              (String.length p)) as [H|H]; [lia|].
  rewrite slice_from_app. apply TrimSpace_space.
Qed.

Lemma parseStringValue_bare p : parseStringValue p p = "".
Proof. unfold parseStringValue. now rewrite Nat.leb_refl. Qed.

Lemma parseIntValue_field p v n :
  TrimSpace v = v -> Atoi v = Some n ->
  parseIntValue (p +:+ String " " v) p = n.
Proof.
  intros Ht Ha. unfold parseIntValue. rewrite parseStringValue_field, Ht.
  now rewrite Ha.
Qed.

Lemma run_cons file st l rest st1 :
  step file st l = Ok st1 -> run file st (l :: rest) = run file st1 rest.
Proof. intros H. simpl. now rewrite H. Qed.

Lemma step_separator file st :
  inMultiLine st = false ->
  step file st "---" =
  Ok (mkState (flush (suggestions st) (current st)) (Some (newSuggestion file))
        (multiLineField st) (multiLineContent st) false "").
Proof. intros H. unfold step. rewrite H. reflexivity. Qed.

Lemma step_field file sugs c mf mc lf line :
  String.eqb line "---" = false -> String.eqb line "<<<" = false ->
  step file (mkState sugs (Some c) mf mc false lf) line =
  Ok (mkState sugs (Some (fst (parseField line c lf))) mf mc false
        (snd (parseField line c lf))).
Proof.
  intros H1 H2. unfold step. cbn [inMultiLine current andb lastField
    suggestions multiLineField multiLineContent].
  rewrite H1, H2. now destruct (parseField line c lf).
Qed.

Ltac prefix_tests :=
  repeat match goal with
         | |- context [hasPrefix ?l ?p] =>
             let b := eval vm_compute in (hasPrefix l p) in
             change (hasPrefix l p) with b
         end;
  cbv iota.

Lemma field_LINE v c lf :
  parseField ("LINE: " +:+ v) c lf = (set_Line (parseIntValue ("LINE:" +:+ String " " v) "LINE:") c, lf).
Proof. unfold parseField. prefix_tests. reflexivity. Qed.

Lemma field_END_LINE v c lf :
  parseField ("END_LINE: " +:+ v) c lf =
  (set_EndLine (parseIntValue ("END_LINE:" +:+ String " " v) "END_LINE:") c, lf).
Proof. unfold parseField. prefix_tests. reflexivity. Qed.

Lemma field_SEVERITY v c lf :
  parseField ("SEVERITY: " +:+ v) c lf = (set_Severity (TrimSpace v) c, lf).
Proof.
  unfold parseField. prefix_tests.
  now rewrite <- (parseStringValue_field "SEVERITY:" v).
Qed.

Lemma field_CONFIDENCE v c lf :
  parseField ("CONFIDENCE: " +:+ v) c lf = (set_Confidence (TrimSpace v) c, lf).
Proof.
  unfold parseField. prefix_tests.
  now rewrite <- (parseStringValue_field "CONFIDENCE:" v).
Qed.

Lemma field_CATEGORY v c lf :
  parseField ("CATEGORY: " +:+ v) c lf = (set_Category (TrimSpace v) c, lf).
Proof.
  unfold parseField. prefix_tests.
  now rewrite <- (parseStringValue_field "CATEGORY:" v).
Qed.

Lemma field_TITLE v c lf :
  parseField ("TITLE: " +:+ v) c lf = (set_Title (TrimSpace v) c, lf).
Proof.
  unfold parseField. prefix_tests.
  now rewrite <- (parseStringValue_field "TITLE:" v).
Qed.

Lemma field_DESCRIPTION v c lf :
  parseField ("DESCRIPTION: " +:+ v) c lf = (set_Description (TrimSpace v) c, lf).
Proof.
  unfold parseField. prefix_tests.
  now rewrite <- (parseStringValue_field "DESCRIPTION:" v).
Qed.

Lemma field_ORIGINAL c lf : parseField "ORIGINAL:" c lf = (c, "ORIGINAL").
Proof. vm_compute. reflexivity. Qed.

Lemma field_FIX c lf : parseField "FIX:" c lf = (c, "FIX").
Proof. vm_compute. reflexivity. Qed.

Lemma numc_plain c : numc c = true -> plain c.
Proof.
  destruct c as [[] [] [] [] [] [] [] []]; vm_compute; intros H;
    try discriminate H; repeat split.
Qed.

Lemma trimLeft_plain c r : plain c -> trimLeftBytes (c :: r) = c :: r.
Proof.
  intros (Hs & _ & H194 & H225 & H226 & H227 & _).
  cbn [trimLeftBytes]. rewrite Hs.
  destruct r as [|d r2]; [reflexivity|]. rewrite H194. cbn [andb].
  destruct r2 as [|e r3]; [reflexivity|].
  now rewrite H225, H226, H227.
Qed.

Lemma trimRight_plain c r : plain c -> trimRightBytesRev (c :: r) = c :: r.
Proof.
  intros (Hs & _ & _ & _ & _ & _ & H133 & H160 & H128 & H159 & He).
  cbn [trimRightBytesRev]. rewrite Hs.
  destruct r as [|d r2]; [reflexivity|]. rewrite H133, H160.
  cbn [orb]. rewrite andb_false_r.
  destruct r2 as [|e r3]; [reflexivity|].
  rewrite H128, H159, He. now rewrite !andb_false_r.
Qed.

Lemma TrimSpace_plain s :
  s <> "" -> Forall plain (list_ascii_of_string s) -> TrimSpace s = s.
Proof.
  intros Hne Hall. unfold TrimSpace.
  destruct (list_ascii_of_string s) as [|c r] eqn:Hl.
  - destruct s; [congruence | discriminate].
  - rewrite trimLeft_plain by now inversion Hall.
    destruct (rev (c :: r)) as [|h t] eqn:Hr.
    + apply (f_equal (@rev _)) in Hr. rewrite rev_involutive in Hr.
      discriminate.
    + rewrite trimRight_plain.
      * rewrite <- Hr, rev_involutive, <- Hl.
        apply string_of_list_ascii_of_string.
      * assert (Hin : In h (c :: r)).
        { apply in_rev. rewrite Hr. now left. }
        rewrite List.Forall_forall in Hall. now apply Hall.
Qed.

Lemma noLF_plain s : Forall plain (list_ascii_of_string s) -> noLF s = true.
Proof.
  induction s as [|c s IH]; intros H; [reflexivity|]. simpl in *.
  inversion H as [|? ? (_ & Hc & _) Hs]; subst.
  rewrite Hc. now apply IH.
Qed.

Lemma digits_plain s : forall acc n,
  digits acc s = Some n -> Forall plain (list_ascii_of_string s).
Proof.
  induction s as [|c s IH]; intros acc n H; simpl in *; [constructor|].
  destruct (digit c) as [d|] eqn:Hd; [|discriminate].
  constructor; [|now apply (IH _ _ H)].
  apply numc_plain. unfold numc. rewrite Hd. now rewrite orb_true_r.
Qed.

(** A text that [strconv.Atoi] accepts is one line and has no white space
    around it. *)
Lemma Atoi_field_value v n : Atoi v = Some n -> field_value v.
Proof.
  intros H. assert (Hne : v <> "") by (intros ->; discriminate).
  assert (Hall : Forall plain (list_ascii_of_string v)).
  { unfold Atoi in H. destruct v as [|c s']; [discriminate|].
    destruct (isb c 45 || isb c 43) eqn:Hsign.
    - replace (if isb c 45 || isb c 43 then s' else String c s') with s' in H
        by now rewrite Hsign.
      destruct s' as [|c2 s2]; [discriminate|].
      destruct (digits 0 (String c2 s2)) as [m|] eqn:Hd; [|discriminate].
      simpl list_ascii_of_string. constructor.
      + apply numc_plain. unfold numc. now rewrite Hsign.
      + apply (digits_plain _ _ _ Hd).
    - replace (if isb c 45 || isb c 43 then s' else String c s')
        with (String c s') in H by now rewrite Hsign.
      destruct (digits 0 (String c s')) as [m|] eqn:Hd; [|discriminate].
      apply (digits_plain _ _ _ Hd). }
  split; [now apply noLF_plain | now apply TrimSpace_plain].
Qed.

Ltac block_opens :=
  match goal with
  | |- context [run ?f ?st ("<<<" :: ?rest)] =>
      rewrite (run_cons f st "<<<" rest _ (step_open f st _ eq_refl eq_refl))
  end.

Ltac block_closes :=
  match goal with
  | |- context [run ?f ?st (">>>" :: ?rest)] =>
      rewrite (run_cons f st ">>>" rest _ (step_close f st _ eq_refl eq_refl))
  end.

Ltac block_body H :=
  match goal with
  | |- context [run ?f ?st (?body ++ ?rest)] =>
      rewrite (run_app f body st rest), (run_in_block f body st eq_refl H)
  end.

Lemma run_record file line endLine s st :
  inMultiLine st = false ->
  writable file (line, endLine, s) ->
  run file st (record_lines line endLine s) =
  Ok (mkState (flush (suggestions st) (current st) ++ [s])
        (Some (newSuggestion file)) "" [] false "").
Proof.
  intros Hin (Hf & Hl & He & Hsev & Hconf & Hcat & Htit & Hdesc & Hne
              & Horig & Hfix).
  destruct (Atoi_field_value _ _ Hl) as [_ Hlt].
  destruct (Atoi_field_value _ _ He) as [_ Het].
  destruct Hsev as [_ Hsev]. destruct Hconf as [_ Hconf].
  destruct Hcat as [_ Hcat]. destruct Htit as [_ Htit].
  destruct Hdesc as [_ Hdesc].
  unfold record_lines. cbn [app].
  rewrite (run_cons _ _ _ _ _ (step_separator file st Hin)).
  rewrite (run_cons _ _ _ _ _
             (step_field file _ _ _ _ _ ("LINE: " +:+ line) eq_refl eq_refl)).
  rewrite field_LINE, (parseIntValue_field "LINE:" _ _ Hlt Hl).
  cbn [fst snd].
  rewrite (run_cons _ _ _ _ _
             (step_field file _ _ _ _ _ ("END_LINE: " +:+ endLine)
                eq_refl eq_refl)).
  rewrite field_END_LINE, (parseIntValue_field "END_LINE:" _ _ Het He).
  cbn [fst snd].
  rewrite (run_cons _ _ _ _ _
             (step_field file _ _ _ _ _ ("SEVERITY: " +:+ Severity s)
                eq_refl eq_refl)).
  rewrite field_SEVERITY, Hsev. cbn [fst snd].
  rewrite (run_cons _ _ _ _ _
             (step_field file _ _ _ _ _ ("CONFIDENCE: " +:+ Confidence s)
                eq_refl eq_refl)).
  rewrite field_CONFIDENCE, Hconf. cbn [fst snd].
  rewrite (run_cons _ _ _ _ _
             (step_field file _ _ _ _ _ ("CATEGORY: " +:+ Category s)
                eq_refl eq_refl)).
  rewrite field_CATEGORY, Hcat. cbn [fst snd].
  rewrite (run_cons _ _ _ _ _
             (step_field file _ _ _ _ _ ("TITLE: " +:+ Title s)
                eq_refl eq_refl)).
  rewrite field_TITLE, Htit. cbn [fst snd].
  rewrite (run_cons _ _ _ _ _
             (step_field file _ _ _ _ _ ("DESCRIPTION: " +:+ Description s)
                eq_refl eq_refl)).
  rewrite field_DESCRIPTION, Hdesc. cbn [fst snd].
  rewrite (run_cons _ _ _ _ _
             (step_field file _ _ _ _ _ "ORIGINAL:" eq_refl eq_refl)).
  rewrite field_ORIGINAL. cbn [fst snd].
  block_opens.
  cbn [suggestions lastField].
  block_body Horig.
  cbn [suggestions current multiLineField multiLineContent lastField app].
  block_closes.
  cbn [suggestions current multiLineField multiLineContent lastField].
  unfold joinLines. rewrite JoinLF_SplitLF.
  rewrite (run_cons _ _ _ _ _
             (step_field file _ _ _ _ _ "FIX:" eq_refl eq_refl)).
  rewrite field_FIX. cbn [fst snd].
  block_opens.
  cbn [suggestions lastField].
  block_body Hfix.
  cbn [suggestions current multiLineField multiLineContent lastField app].
  block_closes.
  cbn [suggestions current multiLineField multiLineContent lastField].
  rewrite JoinLF_SplitLF.
  match goal with
  | |- context [run ?f ?st0 ("---" :: ?rest)] =>
      rewrite (run_cons f st0 "---" rest _ (step_separator f st0 eq_refl))
  end.
  cbn [run suggestions current multiLineField multiLineContent].
  f_equal. f_equal.
  unfold flush at 1. cbn [writeField String.eqb Ascii.eqb].
  destruct s as [sf sl se ssev sconf stit sdesc sorig sfix scat].
  cbn in Hf, Hne |- *. subst sf.
  destruct (String.eqb stit "") eqn:Ht.
  - apply String.eqb_eq in Ht. congruence.
  - reflexivity.
Qed.

Lemma record_lines_noLF file line endLine s :
  writable file (line, endLine, s) ->
  Forall (fun l => noLF l = true) (record_lines line endLine s).
Proof.
  intros (_ & Hl & He & [Hsev _] & [Hconf _] & [Hcat _] & [Htit _]
          & [Hdesc _] & _).
  destruct (Atoi_field_value _ _ Hl) as [Hlt _].
  destruct (Atoi_field_value _ _ He) as [Het _].
  unfold record_lines.
  repeat (apply Forall_app; split);
    try apply SplitLF_lines;
    repeat (apply Forall_cons; split);
    try apply Forall_nil; try reflexivity;
    rewrite noLF_app; assumption.
Qed.

Lemma reply_lines_noLF file rs :
  Forall (writable file) rs ->
  Forall (fun l => noLF l = true) (concat (map lines_of rs)).
Proof.
  induction 1 as [|[[line endLine] s] rs Hr _ IH];
    cbn [map concat lines_of]; [constructor|].
  apply Forall_app; split; [|assumption].
  now apply (record_lines_noLF file).
Qed.

Lemma run_records file rs : forall st,
  inMultiLine st = false ->
  Forall (writable file) rs ->
  exists st',
    run file st (concat (map lines_of rs)) = Ok st'
    /\ inMultiLine st' = false
    /\ finish st' = finish st ++ map snd rs.
Proof.
  induction rs as [|[[line endLine] s] rs IH]; intros st Hin Hall.
  - exists st. simpl. rewrite app_nil_r. auto.
  - inversion Hall as [|? ? Hr Hrs]; subst.
    cbn [map concat lines_of]. rewrite run_app.
    rewrite (run_record file line endLine s st Hin Hr).
    destruct (IH (mkState (flush (suggestions st) (current st) ++ [s])
                    (Some (newSuggestion file)) "" [] false "")
                eq_refl Hrs) as (st' & Hrun & Hin' & Hfin).
    exists st'. split; [assumption|]. split; [assumption|].
    rewrite Hfin. unfold finish at 1. cbn [suggestions current flush
      newSuggestion Title String.eqb]. cbn [map snd].
    unfold finish. now rewrite <- app_assoc.
Qed.

Lemma reply_of_cons r rs :
  exists t, reply_of (r :: rs) = "---" +:+ nl +:+ t.
Proof.
  destruct r as [[line endLine] s]. unfold reply_of.
  cbn [map concat lines_of]. unfold record_lines. cbn [app].
  eexists. reflexivity.
Qed.

(** X7.  Round trip of the record format.  A reply that lists any number
    of records in the format the prompt documents (separator, the seven
    one-line fields, the two code blocks between [<<<] and [>>>], closing
    separator) is parsed into exactly those suggestions, in order, each
    with all its ten values: provided the two numerals are accepted by
    [strconv.Atoi], the one-line values are on one line with no white space
    around them, the title is not empty, and no line of a code text is
    [>>>]. *)
Theorem reply_roundtrip (file : string)
    (rs : list (string * string * Suggestion)) :
  Forall (writable file) rs ->
  parseReviewResponse (reply_of rs) file = Ok (map snd rs).
Proof.
  intros Hall. destruct rs as [|r rs]; [reflexivity|].
  unfold parseReviewResponse.
  destruct (reply_of_cons r rs) as [t Ht].
  replace (String.eqb (reply_of (r :: rs)) "NO_ISSUES") with false
    by (rewrite Ht; reflexivity).
  replace (String.eqb (reply_of (r :: rs)) "") with false
    by (rewrite Ht; reflexivity).
  cbn [orb]. unfold parseStructuredResponse, splitLines, reply_of.
  rewrite SplitLF_JoinLF.
  - destruct (run_records file (r :: rs) initState eq_refl Hall)
      as (st' & Hrun & _ & Hfin).
    rewrite Hrun, Hfin. reflexivity.
  - destruct r as [[line endLine] s]. cbn [map concat lines_of].
    unfold record_lines. cbn [app]. discriminate.
  - now apply (reply_lines_noLF file).
Qed.

Lemma reply_roundtrip_witness :
  parseReviewResponse
    (reply_of [("10", "12", roundtrip_suggestion "a.go");
               ("+7", "7", mkSuggestion "a.go" 7 7 "error" "high" "u" ""
                             "" (">>> x" +:+ nl +:+ "") "security")])
    "a.go"
  = Ok [roundtrip_suggestion "a.go";
        mkSuggestion "a.go" 7 7 "error" "high" "u" ""
          "" (">>> x" +:+ nl +:+ "") "security"].
Proof.
  apply (reply_roundtrip "a.go"
           [("10", "12", roundtrip_suggestion "a.go");
            ("+7", "7", mkSuggestion "a.go" 7 7 "error" "high" "u" ""
                          "" (">>> x" +:+ nl +:+ "") "security")]).
  repeat constructor; try (vm_compute; reflexivity); discriminate.
Defined.

End RoundTrip.

(** * The review session: what an outcome accounts for *)

Module SessionAccounts.

Import Review OS UI StringProps RecordNotions AccountNotions SessionProps.
Import Terminal.

Local Arguments Terminal.loop : simpl never.
Local Arguments wrap : simpl never.
Local Arguments TrimSpace : simpl never.

Lemma ReadString_noLF input :
  noLF input = true -> UI.ReadString input = (input, true, "").
Proof.
  induction input as [|c input IH]; intros H; [reflexivity|].
  simpl in H. apply andb_true_iff in H as [Hc Hn].
  apply negb_true_iff in Hc. cbn [UI.ReadString]. rewrite Hc.
  now rewrite (IH Hn).
Qed.

(** What a read does to standard input: no part comes back; an error is
    an end of input met; a line read whole leaves the parts as many and
    takes a byte. *)
Lemma ReadString_parts stdin line err stdin' :
  ReadString stdin = (line, err, stdin') ->
  (size stdin' <= size stdin)%nat
  /\ (length stdin' <= length stdin)%nat
  /\ (err = true ->
      ((length stdin' < length stdin)%nat \/ stdin' = [])
      /\ (stdin = [] -> line = ""))
  /\ (err = false ->
      length stdin' = length stdin /\ stdin <> []
      /\ (size stdin' < size stdin)%nat).
Proof.
  destruct stdin as [|part more]; cbn [ReadString].
  - intros H. inversion H; subst. repeat split; auto; discriminate.
  - destruct (UI.ReadString part) as [[l e] rest] eqn:HR.
    pose proof (ReadString_shorter _ _ _ _ HR) as [Hshort _].
    destruct e; intros H; inversion H; subst; cbn [size length].
    + split; [lia|]. split; [lia|]. split; [|discriminate].
      intros _. split; [left; lia | discriminate].
    + specialize (Hshort eq_refl).
      split; [lia|]. split; [lia|]. split; [discriminate|].
      intros _. split; [reflexivity|]. split; [discriminate | lia].
Qed.

Section WithLower.

Variable unicodeToLower : string -> string.

Abbreviation loop := (Terminal.loop unicodeToLower).
Abbreviation Run := (Terminal.Run unicodeToLower).
Abbreviation command := (command unicodeToLower).
Abbreviation is_cmd := (is_cmd unicodeToLower).
Abbreviation decide_commit := (Terminal.decide_commit unicodeToLower).

Lemma loop_step fuel s w stdin :
  loop (S fuel) s w stdin =
  if negb (current s <? total s) then Finished s w stdin
  else
    match at_current s with
    | None => IndexPanic
    | Some suggestion =>
        let '(line, err, stdin1) := ReadString stdin in
        if err then loop fuel (advance s) w stdin1
        else if is_cmd line "f" "fix" then
          let '(applied, w1) := applyFix suggestion w in
          if applied then loop fuel (advance (count_fixed s)) w1 stdin1
          else
            let '(confirm, _, stdin2) := ReadString stdin1 in
            if String.eqb (command confirm) "y" then
              loop fuel (advance (count_skipped s)) w1 stdin2
            else loop fuel s w1 stdin2
        else if is_cmd line "s" "skip" then
          loop fuel (advance (count_skipped s)) w stdin1
        else if is_cmd line "v" "view" then loop fuel s w stdin1
        else if is_cmd line "q" "quit" then
          Returned (mkOutcome ActionAbort (fixed s) (skipped s)) w stdin1
        else loop fuel s w stdin1
    end.
Proof. reflexivity. Qed.

(** The loop ends, on every standard input, and reads no suggestion past
    the list. *)
Lemma loop_ends fuel : forall s w stdin,
  0 <= current s -> total s <= maxInt ->
  (size stdin + Z.to_nat (total s - current s) < fuel)%nat ->
  (exists o w' rest, loop fuel s w stdin = Returned o w' rest)
  \/ (exists s' w' rest, loop fuel s w stdin = Finished s' w' rest).
Proof.
  induction fuel as [|fuel IH]; intros s w stdin H0 Hmax Hfuel; [lia|].
  rewrite loop_step.
  destruct (current s <? total s) eqn:Hlt; [|right; simpl; eauto].
  apply Z.ltb_lt in Hlt. simpl negb. cbv iota.
  destruct (at_current_Some s (conj H0 Hlt)) as [sug ->].
  assert (Hnext : wrap (current s + 1) = current s + 1).
  { apply wrap_small. unfold minInt, maxInt in *. lia. }
  destruct (ReadString stdin) as [[line err] stdin1] eqn:HR.
  destruct (ReadString_parts _ _ _ _ HR) as (Hsz & _ & _ & Hok).
  cbv beta iota zeta.
  assert (Hadv : forall s1 w1 in1,
             current s1 = current s -> total s1 = total s ->
             (size in1 <= size stdin)%nat ->
             (exists o w' rest, loop fuel (advance s1) w1 in1
                                = Returned o w' rest)
             \/ (exists s' w' rest, loop fuel (advance s1) w1 in1
                                    = Finished s' w' rest)).
  { intros s1 w1 in1 Hc Ht Hl. apply IH.
    - unfold advance, int_add. simpl. rewrite Hc, Hnext. lia.
    - unfold advance, total in *. simpl.
      exact (eq_ind_r (fun z => z <= maxInt) Hmax Ht).
    - unfold advance, int_add, total in *. simpl. rewrite Hc, Hnext.
      simpl in Ht. rewrite Ht. lia. }
  assert (Hstay : forall w1 in1,
             (size in1 < size stdin)%nat ->
             (exists o w' rest, loop fuel s w1 in1 = Returned o w' rest)
             \/ (exists s' w' rest, loop fuel s w1 in1
                                    = Finished s' w' rest)).
  { intros w1 in1 Hl. apply IH; auto. lia. }
  destruct err.
  { apply Hadv; auto. }
  destruct (Hok eq_refl) as (_ & _ & Hless).
  destruct (is_cmd line "f" "fix").
  { destruct (applyFix sug w) as [applied w1]. destruct applied.
    - apply Hadv; auto; lia.
    - destruct (ReadString stdin1) as [[confirm e2] stdin2] eqn:HR2.
      destruct (ReadString_parts _ _ _ _ HR2) as (Hsz2 & _).
      destruct (String.eqb (command confirm) "y").
      + apply Hadv; auto; lia.
      + apply Hstay; lia. }
  destruct (is_cmd line "s" "skip"); [apply Hadv; auto; lia|].
  destruct (is_cmd line "v" "view"); [apply Hstay; lia|].
  destruct (is_cmd line "q" "quit"); [left; eauto|].
  apply Hstay; lia.
Qed.

(** [Run] returns an outcome for a new session, on every standard
    input. *)
Lemma Run_ends (result : ReviewResult) (w : World) (stdin : list string) :
  Z.of_nat (length (Suggestions result)) <= maxInt ->
  exists o w' stdin',
    Run (NewReviewSession result) w stdin = Returned o w' stdin'.
Proof.
  intros Hmax. unfold Terminal.Run.
  set (s0 := NewReviewSession result).
  destruct (total s0 =? 0); [eauto|].
  destruct (loop_ends (iterations s0 stdin) s0 w stdin)
    as [(o & w' & r & ->)|(s' & w' & r & ->)].
  - simpl. lia.
  - exact Hmax.
  - unfold iterations. lia.
  - eauto.
  - unfold Terminal.decide_commit.
    destruct (ReadString r) as [[line e] r'].
    destruct (is_cmd line "y" "yes");
      [|destruct (is_cmd line "r" "re-review")]; eauto.
Qed.

(** With no part of standard input left the commit prompt is answered by
    the empty line, which aborts. *)
Lemma decide_commit_eof s w :
  decide_commit s w [] =
  Returned (mkOutcome ActionAbort (fixed s) (skipped s)) w [].
Proof. reflexivity. Qed.

Lemma decide_commit_parts s w stdin o w' stdin' :
  decide_commit s w stdin = Returned o w' stdin' ->
  Fixed o = fixed s /\ Skipped o = skipped s
  /\ (length stdin' <= length stdin)%nat.
Proof.
  unfold Terminal.decide_commit.
  destruct (ReadString stdin) as [[line e] i2] eqn:HR.
  destruct (ReadString_parts _ _ _ _ HR) as (_ & Hle & _).
  destruct (is_cmd line "y" "yes");
    [|destruct (is_cmd line "r" "re-review")];
    intros H; inversion H; subst; auto.
Qed.

Lemma loop_accounts L stdin0 :
  Z.of_nat (length L) <= maxInt ->
  forall fuel s w stdin,
    accounted L stdin0 s stdin ->
    match loop fuel s w stdin with
    | Returned o _ _ => Action_ o = ActionAbort
    | Finished s' _ stdin' =>
        accounted L stdin0 s' stdin' /\ total s' <= current s'
    | IndexPanic => True
    | NoFuel => True
    end.
Proof.
  intros Hmax.
  assert (Hw : forall z, 0 <= z < Z.of_nat (length L) -> wrap (z + 1) = z + 1).
  { intros z Hz. apply wrap_small. unfold minInt, maxInt in *. lia. }
  induction fuel as [|fuel IH]; intros s w stdin (HL & Hlen & HA); [exact I|].
  rewrite loop_step.
  destruct (current s <? total s) eqn:Hlt; simpl negb; cbv iota.
  2:{ apply Z.ltb_ge in Hlt. split; [repeat split|]; assumption. }
  apply Z.ltb_lt in Hlt.
  destruct (at_current s) as [sug|] eqn:Hsug; [|exact I].
  assert (Hskip : forall stdin', accounted L stdin0 s stdin' ->
                    accounted L stdin0 (advance (count_skipped s)) stdin').
  { intros stdin' (_ & Hl & [Hsp|(H1 & H2 & H3 & H4)]);
      (split; [exact HL|]); (split; [exact Hl|]); [now left|right].
    unfold counted, advance, count_skipped, int_add, total in *. simpl.
    rewrite HL in *. rewrite !Hw by lia. lia. }
  assert (Hfix : forall stdin', accounted L stdin0 s stdin' ->
                    accounted L stdin0 (advance (count_fixed s)) stdin').
  { intros stdin' (_ & Hl & [Hsp|(H1 & H2 & H3 & H4)]);
      (split; [exact HL|]); (split; [exact Hl|]); [now left|right].
    unfold counted, advance, count_fixed, int_add, total in *. simpl.
    rewrite HL in *. rewrite !Hw by lia. lia. }
  (* a read keeps the relation between the session and standard input *)
  assert (Hread : forall i1 line err i2,
            ReadString i1 = (line, err, i2) ->
            accounted L stdin0 s i1 ->
            accounted L stdin0 s i2
            /\ (err = true -> spent stdin0 i2)).
  { intros i1 line err i2 HR (_ & Hl & HA1).
    destruct (ReadString_parts _ _ _ _ HR) as (_ & Hle & Herr & Hok).
    assert (Hsp : err = true -> spent stdin0 i2).
    { intros E. destruct (Herr E) as [[Hshort| ->] _];
        [left; lia | now right]. }
    split; [|exact Hsp].
    split; [exact HL|]. split; [lia|].
    destruct HA1 as [[Hshort|Hnil]|Hc]; [| |now right].
    - left. left. lia.
    - destruct err; [left; now apply Hsp|].
      destruct (Hok eq_refl) as (_ & Hne & _). contradiction. }
  destruct (ReadString stdin) as [[line err] stdin1] eqn:HR.
  destruct (Hread _ _ _ _ HR (conj HL (conj Hlen HA))) as [HA1 Hsp1].
  cbv beta iota zeta.
  destruct err.
  { apply IH. destruct HA1 as (_ & Hl1 & _).
    split; [exact HL|]. split; [exact Hl1|]. left. now apply Hsp1. }
  destruct (is_cmd line "f" "fix").
  { destruct (applyFix sug w) as [applied w1] eqn:Hap. destruct applied.
    - apply IH. now apply Hfix.
    - destruct (ReadString stdin1) as [[confirm e2] stdin2] eqn:HR2.
      destruct (Hread _ _ _ _ HR2 HA1) as [HA2 _].
      destruct (String.eqb (command confirm) "y"); apply IH; auto. }
  destruct (is_cmd line "s" "skip"); [apply IH; auto|].
  destruct (is_cmd line "v" "view"); [apply IH; auto|].
  destruct (is_cmd line "q" "quit"); [reflexivity|apply IH; auto].
Qed.

(** X8.  An outcome other than abort accounts for every suggestion, as
    long as no end of input was met.  [Run] returns an outcome on every
    standard input.  When it is commit or re-review, and standard input is
    a file or a pipe (a single part, whose end is final), or is a terminal
    on which no end of input was met during the session (as many parts
    left as there were), every suggestion has been counted once, as fixed
    or as skipped.  A read that fails passes a suggestion over without
    counting it; on a file or a pipe the commit prompt then reads the
    empty line and aborts, while on a terminal the session can still be
    committed. *)
Theorem Run_accounts_for_all (result : ReviewResult) (w : World)
    (stdin : list string) :
  Z.of_nat (length (Suggestions result)) <= maxInt ->
  exists o w' stdin',
    Run (NewReviewSession result) w stdin = Returned o w' stdin'
    /\ (Action_ o <> ActionAbort ->
        (length stdin <= 1)%nat \/ length stdin' = length stdin ->
        0 <= Fixed o /\ 0 <= Skipped o
        /\ Fixed o + Skipped o = Z.of_nat (length (Suggestions result))).
Proof.
  intros Hmax.
  destruct (Run_ends result w stdin Hmax) as (o & w' & stdin' & Hrun).
  exists o, w', stdin'. split; [exact Hrun|]. intros Hact Hparts.
  unfold Terminal.Run in Hrun.
  set (s0 := NewReviewSession result) in *.
  destruct (total s0 =? 0) eqn:Ht.
  { apply Z.eqb_eq in Ht. inversion Hrun; subst. simpl.
    unfold total, s0 in Ht. simpl in Ht. lia. }
  assert (H0 : accounted (Suggestions result) stdin s0 stdin).
  { split; [reflexivity|]. split; [lia|]. right.
    unfold counted, s0, total. simpl. lia. }
  pose proof (loop_accounts (Suggestions result) stdin Hmax
                (iterations s0 stdin) s0 w stdin H0) as Hl.
  destruct (loop (iterations s0 stdin) s0 w stdin)
    as [o1 w1 i1|s1 w1 i1| |]; try discriminate.
  - inversion Hrun; subst. contradiction.
  - destruct Hl as [(HL & Hlen & HA) Hge].
    destruct (decide_commit_parts _ _ _ _ _ _ Hrun) as (Hf & Hk & Hle).
    assert (Hc : counted s1).
    { destruct HA as [Hsp|Hc]; [|exact Hc]. exfalso.
      assert (Hnil : i1 = []).
      { destruct Hsp as [Hshort|Hnil]; [|exact Hnil].
        destruct Hparts as [Hone|Hsame]; [|lia].
        destruct i1; [reflexivity | simpl in *; lia]. }
      subst i1. rewrite decide_commit_eof in Hrun.
      inversion Hrun; subst. now contradiction Hact. }
    destruct Hc as (H1 & H2 & H3 & H4).
    rewrite Hf, Hk. unfold total in *. rewrite HL in *. lia.
Qed.

Lemma loop_eof w : forall n s fuel,
  0 <= current s -> current s + Z.of_nat n = total s -> total s <= maxInt ->
  (n < fuel)%nat ->
  loop fuel s w [] =
  Finished (mkSession (total s) (fixed s) (skipped s) (suggestions s)
              (skippedMap s)) w [].
Proof.
  induction n as [|n IH]; intros s fuel H0 Hn Hmax Hfuel;
    (destruct fuel as [|fuel]; [lia|]).
  - rewrite loop_step.
    replace (current s <? total s) with false
      by (symmetry; apply Z.ltb_ge; lia).
    cbn [negb]. destruct s as [c f k l m]. unfold total in *. simpl in *.
    f_equal. f_equal. lia.
  - rewrite loop_step.
    assert (Hlt : current s < total s) by lia.
    destruct (at_current_Some s (conj H0 Hlt)) as [sug Hsug].
    apply Z.ltb_lt in Hlt. rewrite Hlt, Hsug. cbn [negb ReadString].
    cbv beta iota zeta.
    assert (Hc : current (advance s) = current s + 1).
    { unfold advance, int_add. simpl. apply wrap_small.
      apply Z.ltb_lt in Hlt. unfold minInt, maxInt in *. lia. }
    rewrite (IH (advance s) fuel); [reflexivity| | | |lia].
    + rewrite Hc. lia.
    + rewrite Hc. unfold total, advance in *. simpl. lia.
    + exact Hmax.
Qed.

(** X9.  On a file or a pipe without a complete line nothing is
    committed.  When standard input is empty or closed, or is a single
    part that holds no line feed (a last line that was not ended, whatever
    it says), a session with at least one suggestion ends in abort with
    both counts at zero, and has written nothing. *)
Theorem Run_without_a_line (result : ReviewResult) (w : World)
    (stdin : list string) :
  Suggestions result <> [] ->
  Z.of_nat (length (Suggestions result)) <= maxInt ->
  (length stdin <= 1)%nat ->
  Forall (fun part => noLF part = true) stdin ->
  Run (NewReviewSession result) w stdin =
  Returned (mkOutcome ActionAbort 0 0) w [].
Proof.
  intros Hne Hmax Hone Hall. unfold Terminal.Run.
  set (s0 := NewReviewSession result).
  assert (Hpos : 0 < total s0).
  { unfold total, s0. simpl. destruct (Suggestions result); [congruence|].
    simpl. lia. }
  replace (total s0 =? 0) with false by (symmetry; apply Z.eqb_neq; lia).
  assert (Hread : exists line, ReadString stdin = (line, true, [])).
  { destruct stdin as [|part [|p2 more]]; [eexists; reflexivity| |simpl in Hone; lia].
    inversion Hall as [|? ? Hp _]; subst. cbn [ReadString].
    rewrite (ReadString_noLF part Hp). eexists; reflexivity. }
  destruct Hread as [line Hread].
  unfold iterations. rewrite loop_step.
  destruct (at_current_Some s0 (conj (Z.le_refl 0) Hpos)) as [sug Hsug].
  replace (current s0 <? total s0) with true
    by (symmetry; apply Z.ltb_lt; exact Hpos).
  rewrite Hsug, Hread. cbn [negb]. cbv beta iota zeta.
  assert (Hc : current (advance s0) = 1) by reflexivity.
  assert (Ht : total (advance s0) = total s0) by reflexivity.
  rewrite (loop_eof w (Z.to_nat (total s0 - 1)) (advance s0)).
  - apply decide_commit_eof.
  - rewrite Hc. lia.
  - rewrite Hc, Ht. lia.
  - rewrite Ht. exact Hmax.
  - change (current s0) with 0. lia.
Qed.

End WithLower.

Lemma Run_accounts_for_all_witness :
  exists o w' stdin',
    Terminal.Run (fun s => s)
      (NewReviewSession
         (mkReviewResult []
            [PatchNotions.example_fix "foo"; PatchNotions.example_fix "xyz"]
            ""))
      PatchNotions.example_world
      [SessionNotions.typed_fix_skip +:+ SessionNotions.typed_yes]
    = Returned o w' stdin'
    /\ (Action_ o <> ActionAbort ->
        (1 <= 1)%nat \/ length stdin' = 1%nat ->
        0 <= Fixed o /\ 0 <= Skipped o /\ Fixed o + Skipped o = 2).
Proof.
  apply (Run_accounts_for_all (fun s => s)
           (mkReviewResult []
              [PatchNotions.example_fix "foo"; PatchNotions.example_fix "xyz"]
              "")
           PatchNotions.example_world
           [SessionNotions.typed_fix_skip +:+ SessionNotions.typed_yes]).
  vm_compute. discriminate.
Defined.

Lemma Run_without_a_line_witness :
  Terminal.Run (fun s => s)
    (NewReviewSession
       (mkReviewResult [] [PatchNotions.example_fix "foo"] ""))
    PatchNotions.example_world ["fix"]
  = Returned (mkOutcome ActionAbort 0 0) PatchNotions.example_world [].
Proof.
  apply (Run_without_a_line (fun s => s)
           (mkReviewResult [] [PatchNotions.example_fix "foo"] "")
           PatchNotions.example_world ["fix"]).
  - discriminate.
  - vm_compute. discriminate.
  - simpl. lia.
  - repeat constructor.
Defined.

(** On a terminal the end of input is not final: an end of input at the
    first prompt passes the suggestion uncounted, and the line typed
    afterwards answers the commit prompt. *)
Example Run_after_end_of_input :
  Terminal.Run (fun s => s)
    (NewReviewSession
       (mkReviewResult [] [PatchNotions.example_fix "foo"] ""))
    PatchNotions.example_world [""; SessionNotions.typed_yes]
  = Returned (mkOutcome ActionCommit 0 0) PatchNotions.example_world [""].
Proof. vm_compute. reflexivity. Qed.

End SessionAccounts.

(** ** A file or a pipe is a standard input of one part

    The session of [UI] and the session of [Terminal] are the same
    program read against two descriptions of standard input.  On an input
    of one part they agree: what [UI.Run] returns, [Terminal.Run] returns
    on the list of that part alone. *)

Module SinglePart.

Import Review OS UI StringProps AccountNotions SessionProps.

Local Arguments wrap : simpl never.
Local Arguments TrimSpace : simpl never.

Lemma ReadString_as_parts input stdin line err rest :
  as_parts input stdin ->
  UI.ReadString input = (line, err, rest) ->
  exists stdin',
    Terminal.ReadString stdin = (line, err, stdin') /\ as_parts rest stdin'.
Proof.
  intros [->|[-> ->]] HR.
  - cbn [Terminal.ReadString]. rewrite HR.
    destruct (ReadString_shorter _ _ _ _ HR) as [_ Heof].
    destruct err.
    + rewrite (Heof eq_refl). exists []. split; [reflexivity|].
      right. now split.
    + exists [rest]. split; [reflexivity | now left].
  - cbn [UI.ReadString] in HR. inversion HR; subst.
    exists []. split; [reflexivity|]. right. now split.
Qed.

Section WithLower.

Variable unicodeToLower : string -> string.

Lemma loop_as_parts fuel : forall fuel' s w input stdin,
  (fuel <= fuel')%nat -> as_parts input stdin ->
  ends_alike (UI.loop unicodeToLower fuel s w input)
             (Terminal.loop unicodeToLower fuel' s w stdin).
Proof.
  induction fuel as [|fuel IH]; intros fuel' s w input stdin Hf Hp;
    [exact I|].
  destruct fuel' as [|fuel']; [lia|].
  assert (Hf' : (fuel <= fuel')%nat) by lia.
  cbn [UI.loop Terminal.loop].
  destruct (negb (current s <? total s)).
  { exists stdin. now split. }
  destruct (at_current s) as [suggestion|]; [|reflexivity].
  destruct (UI.ReadString input) as [[line err] input1] eqn:HR.
  destruct (ReadString_as_parts _ _ _ _ _ Hp HR) as (stdin1 & -> & Hp1).
  destruct err; [now apply IH|].
  destruct (is_cmd unicodeToLower line "f" "fix").
  { destruct (applyFix suggestion w) as [applied w1].
    destruct applied; [now apply IH|].
    destruct (UI.ReadString input1) as [[confirm e2] input2] eqn:HR2.
    destruct (ReadString_as_parts _ _ _ _ _ Hp1 HR2) as (stdin2 & -> & Hp2).
    destruct (String.eqb (command unicodeToLower confirm) "y");
      now apply IH. }
  destruct (is_cmd unicodeToLower line "s" "skip"); [now apply IH|].
  destruct (is_cmd unicodeToLower line "v" "view"); [now apply IH|].
  destruct (is_cmd unicodeToLower line "q" "quit"); [|now apply IH].
  exists stdin1. now split.
Qed.

Lemma decide_commit_as_parts s w input stdin :
  as_parts input stdin ->
  ends_alike (UI.decide_commit unicodeToLower s w input)
             (Terminal.decide_commit unicodeToLower s w stdin).
Proof.
  intros Hp. unfold UI.decide_commit, Terminal.decide_commit.
  destruct (UI.ReadString input) as [[line err] input1] eqn:HR.
  destruct (ReadString_as_parts _ _ _ _ _ Hp HR) as (stdin1 & -> & Hp1).
  destruct (is_cmd unicodeToLower line "y" "yes");
    [|destruct (is_cmd unicodeToLower line "r" "re-review")];
    exists stdin1; now split.
Qed.

(** What the session returns on the bytes of a file or a pipe, it returns
    on the standard input of that one part. *)
Lemma Run_single_part s w input o w' rest :
  UI.Run unicodeToLower s w input = UI.Returned o w' rest ->
  exists stdin',
    Terminal.Run unicodeToLower s w [input] = Terminal.Returned o w' stdin'.
Proof.
  unfold UI.Run, Terminal.Run. destruct (total s =? 0).
  { intros H. inversion H; subst. eexists. reflexivity. }
  assert (Hf : (UI.iterations s input <= Terminal.iterations s [input])%nat).
  { unfold UI.iterations, Terminal.iterations. cbn [Terminal.size]. lia. }
  pose proof (loop_as_parts _ _ s w input [input] Hf (or_introl eq_refl))
    as Hl.
  destruct (UI.loop unicodeToLower (UI.iterations s input) s w input)
    as [o1 w1 i1|s1 w1 i1| |]; cbn [ends_alike] in Hl; intros H.
  - destruct Hl as (stdin1 & -> & _). inversion H; subst. now exists stdin1.
  - destruct Hl as (stdin1 & -> & Hp1).
    pose proof (decide_commit_as_parts s1 w1 i1 stdin1 Hp1) as Hd.
    rewrite H in Hd. destruct Hd as (stdin2 & -> & _). now exists stdin2.
  - discriminate H.
  - discriminate H.
Qed.

End WithLower.

End SinglePart.

(** * The response parser: how many suggestions a reply can give *)

Module ParserBounds.

Import Review ParserNotions BoundNotions ParserProps.

Local Arguments hasPrefix : simpl never.

Lemma flush_records sugs cur :
  (length (flush sugs cur)
   <= length sugs + match cur with Some _ => 1 | None => 0 end)%nat.
Proof.
  destruct cur as [c|]; simpl; [|lia].
  destruct (String.eqb (Title c) ""); [lia|].
  rewrite length_app. simpl. lia.
Qed.

(** Only a separator line adds a record, and it adds one. *)
Lemma step_records file st line st' :
  step file st line = Ok st' ->
  (records st' <= records st + separators [line])%nat.
Proof.
  unfold step, records. cbn [separators].
  destruct (inMultiLine st) eqn:Hin; cbn [andb].
  - destruct (String.eqb line ">>>").
    + destruct (String.eqb (multiLineField st) "ORIGINAL");
        [|destruct (String.eqb (multiLineField st) "FIX")];
        destruct (current st); intros H; inversion H; subst; simpl; lia.
    + intros H; inversion H; subst; simpl. lia.
  - destruct (String.eqb line "---").
    + intros H; inversion H; subst. cbn [suggestions current].
      pose proof (flush_records (suggestions st) (current st)). lia.
    + destruct (current st) as [c|] eqn:Hc.
      * destruct (String.eqb line "<<<").
        -- intros H; inversion H; subst; simpl. lia.
        -- destruct (parseField line c (lastField st)) as [c' lf'].
           intros H; inversion H; subst; simpl. lia.
      * intros H; inversion H; subst. rewrite Hc. lia.
Qed.

Lemma run_records_bound file lines : forall st st',
  run file st lines = Ok st' ->
  (records st' <= records st + separators lines)%nat.
Proof.
  induction lines as [|line rest IH]; intros st st' H.
  - inversion H; subst. simpl. lia.
  - cbn [run] in H. destruct (step file st line) as [st1| |] eqn:Hs;
      try discriminate.
    pose proof (step_records _ _ _ _ Hs) as H1.
    pose proof (IH _ _ H) as H2. cbn [separators] in *. lia.
Qed.

(** X10.  A reply gives at most as many suggestions as it has separator
    lines: every suggestion comes from a record opened by a [---] line, so
    a reply without one (free prose, an apology, a bare list of fields)
    gives none. *)
Theorem suggestions_bounded_by_separators (response file : string) :
  exists l,
    parseReviewResponse response file = Ok l
    /\ (length l <= separators (splitLines response))%nat
    /\ (separators (splitLines response) = O -> l = []).
Proof.
  assert (H : exists l, parseReviewResponse response file = Ok l
                        /\ (length l <= separators (splitLines response))%nat).
  { unfold parseReviewResponse, parseStructuredResponse.
    destruct (String.eqb response "NO_ISSUES" || String.eqb response "").
    { exists []. split; [reflexivity | simpl; lia]. }
    destruct (run_total file (splitLines response) initState wf_init)
      as (st & Hrun & _).
    rewrite Hrun. exists (finish st). split; [reflexivity|].
    pose proof (run_records_bound _ _ _ _ Hrun) as Hb.
    pose proof (flush_records (suggestions st) (current st)) as Hf.
    unfold finish. unfold records in Hb. simpl in Hb. lia. }
  destruct H as (l & Hl & Hb). exists l. split; [exact Hl|].
  split; [exact Hb|]. intros H0. rewrite H0 in Hb.
  destruct l; [reflexivity | simpl in Hb; lia].
Qed.

End ParserBounds.

(** * The response parser: text before the first record *)

Module ParserPreamble.

Import Review ParserNotions RecordNotions ParserProps RoundTrip.

Local Arguments hasPrefix : simpl never.

Lemma SplitLF_app_nl a b : SplitLF (a +:+ nl +:+ b) = SplitLF a ++ SplitLF b.
Proof.
  induction a as [|c a IH]; [reflexivity|].
  cbn [String.append SplitLF]. fold (a +:+ nl +:+ b). rewrite IH.
  destruct (Ascii.eqb c LF); [reflexivity|].
  pose proof (SplitLF_nonempty a) as Hne.
  destruct (SplitLF a) as [|l ls]; [congruence | reflexivity].
Qed.

(** Before the first separator a line changes nothing. *)
Lemma run_outside file lines st :
  current st = None -> inMultiLine st = false ->
  Forall (fun l => l <> "---") lines ->
  run file st lines = Ok st.
Proof.
  intros Hc Hin. induction 1 as [|l ls Hl _ IH]; [reflexivity|].
  cbn [run]. unfold step. rewrite Hin, Hc. cbn [andb].
  apply String.eqb_neq in Hl. rewrite Hl. exact IH.
Qed.

Lemma noLF_app_nl a b : noLF (a +:+ nl +:+ b) = false.
Proof.
  rewrite noLF_app. change (nl +:+ b) with (String LF b).
  cbn [noLF]. rewrite Ascii.eqb_refl. apply andb_false_r.
Qed.

(** X19.  Text before the first record is ignored.  When the reply
    starts with lines none of which is the separator (an introduction, a
    sentence of thanks, stray field lines), the suggestions are those of
    the reply without these lines. *)
Theorem preamble_ignored (prose reply file : string) :
  Forall (fun l => l <> "---") (SplitLF prose) ->
  parseReviewResponse (prose +:+ nl +:+ reply) file
  = parseReviewResponse reply file.
Proof.
  intros Hprose.
  assert (Hstruct : parseStructuredResponse (prose +:+ nl +:+ reply) file
                    = parseStructuredResponse reply file).
  { unfold parseStructuredResponse, splitLines.
    rewrite SplitLF_app_nl, run_app.
    now rewrite (run_outside file _ initState eq_refl eq_refl Hprose). }
  unfold parseReviewResponse at 1.
  assert (Hno : forall t, noLF t = true ->
                  String.eqb (prose +:+ nl +:+ reply) t = false).
  { intros t Ht. apply String.eqb_neq. intros E.
    rewrite <- E, noLF_app_nl in Ht. discriminate. }
  rewrite (Hno "NO_ISSUES" eq_refl), (Hno "" eq_refl). cbn [orb].
  rewrite Hstruct. unfold parseReviewResponse.
  destruct (String.eqb reply "NO_ISSUES") eqn:E1.
  { apply String.eqb_eq in E1. subst reply. vm_compute. reflexivity. }
  destruct (String.eqb reply "") eqn:E2.
  { apply String.eqb_eq in E2. subst reply. vm_compute. reflexivity. }
  reflexivity.
Qed.

Lemma preamble_ignored_witness :
  parseReviewResponse
    (("Here is what I found." +:+ nl +:+ "TITLE: not a record") +:+ nl
     +:+ roundtrip_reply) "a.go"
  = parseReviewResponse roundtrip_reply "a.go".
Proof.
  apply (preamble_ignored
           ("Here is what I found." +:+ nl +:+ "TITLE: not a record")
           roundtrip_reply "a.go").
  vm_compute. repeat constructor; intros H; discriminate H.
Defined.

End ParserPreamble.

(** * The response parser: line endings *)

Module ParserLineEndings.

Import Review ParserNotions RecordNotions LineEndNotions ParserProps
  RoundTrip ParserPreamble.

Local Arguments hasPrefix : simpl never.

Lemma line_with_CR l : l +:+ CR <> "---".
Proof.
  destruct l as [|a [|b [|c [|d l]]]]; cbn; intros H; inversion H.
Qed.

Lemma noLF_with_CR l : noLF l = true -> noLF (l +:+ CR) = true.
Proof. intros H. rewrite noLF_app, H. reflexivity. Qed.

(** All the lines but the last end in a carriage return. *)
Lemma withCR_split lines :
  lines <> [] ->
  Forall (fun l => noLF l = true) lines ->
  exists pre l,
    withCR lines = pre ++ [l]
    /\ Forall (fun x => x <> "---") pre
    /\ Forall (fun x => noLF x = true) (withCR lines).
Proof.
  induction lines as [|a rest IH]; [congruence|]. intros _ Hall.
  inversion Hall as [|? ? Ha Hrest]; subst.
  destruct rest as [|b rest].
  - exists [], a. repeat split; [constructor | now constructor].
  - destruct (IH ltac:(discriminate) Hrest) as (pre & l & E & Hpre & Hn).
    exists ((a +:+ CR) :: pre), l.
    change (withCR (a :: b :: rest)) with ((a +:+ CR) :: withCR (b :: rest)).
    rewrite E. repeat split.
    + constructor; [apply line_with_CR | exact Hpre].
    + rewrite <- E. constructor; [now apply noLF_with_CR | exact Hn].
Qed.

(** X20.  Line endings.  The separator is recognised only as the exact
    line [---]: a reply whose lines are ended by a carriage return and a
    line feed gives no suggestion at all, whatever its lines are, records
    in the documented format included. *)
Theorem crlf_reply_gives_nothing (lines : list string) (file : string) :
  Forall (fun l => noLF l = true) lines ->
  parseReviewResponse (JoinLF (withCR lines)) file = Ok [].
Proof.
  intros Hall. destruct lines as [|a rest]; [reflexivity|].
  destruct (withCR_split (a :: rest) ltac:(discriminate) Hall)
    as (pre & l & E & Hpre & Hn).
  unfold parseReviewResponse.
  destruct (String.eqb _ "NO_ISSUES" || String.eqb _ ""); [reflexivity|].
  unfold parseStructuredResponse, splitLines.
  rewrite SplitLF_JoinLF; [|rewrite E; now destruct pre|exact Hn].
  rewrite E, run_app.
  rewrite (run_outside file pre initState eq_refl eq_refl Hpre).
  cbn [run]. unfold step. cbn [inMultiLine initState andb current].
  destruct (String.eqb l "---"); reflexivity.
Qed.

Lemma crlf_reply_gives_nothing_witness :
  parseReviewResponse
    (JoinLF (withCR (SplitLF roundtrip_reply))) "a.go" = Ok [].
Proof.
  apply (crlf_reply_gives_nothing (SplitLF roundtrip_reply) "a.go").
  match goal with
  | |- Forall _ ?x => let l := eval vm_compute in x in change x with l
  end.
  repeat constructor.
Defined.

End ParserLineEndings.

(** * The change filter: directory patterns, and the list of patterns *)

Module FilterRules.

Import Git Cmd StringNotions FilterNotions StringProps FilterProps.

Local Arguments HasPrefix : simpl never.
Local Arguments HasSuffix : simpl never.
Local Arguments Contains : simpl never.
Local Arguments slice_from : simpl never.
Local Arguments slice_to : simpl never.
Local Arguments dirRule : simpl never.
Local Arguments ToSlash : simpl never.
Local Arguments Base : simpl never.
Local Arguments String.append : simpl never.

Lemma HasSuffix_app (a b : string) : HasSuffix (a +:+ b) b = true.
Proof.
  unfold HasSuffix, len. rewrite slength_app.
  replace (String.length a + String.length b - String.length b)%nat
    with (String.length a) by lia.
  rewrite slice_from_app, String.eqb_refl.
  replace (String.length b <=? String.length a + String.length b)%nat
    with true by (symmetry; apply Nat.leb_le; lia).
  reflexivity.
Qed.

Lemma slice_to_suffix (a b : string) :
  slice_to (len (a +:+ b) - len b) (a +:+ b) = a.
Proof.
  unfold len. rewrite slength_app.
  replace (String.length a + String.length b - String.length b)%nat
    with (String.length a) by lia.
  apply slice_to_app.
Qed.

(** Under [dir/], at the top or below. *)
Lemma under_dir (dir path : string) :
  (exists rest, path = dir +:+ "/" +:+ rest)
  \/ (exists pre rest, path = pre +:+ "/" +:+ dir +:+ "/" +:+ rest) ->
  HasPrefix path (dir +:+ "/") = true
  \/ Contains path ("/" +:+ dir +:+ "/") = true.
Proof.
  intros [[rest ->]|(pre & rest & ->)].
  - left. rewrite <- sapp_assoc. apply HasPrefix_app.
  - right. apply Contains_occurs. exists pre, rest.
    now rewrite !sapp_assoc.
Qed.

Lemma dirRule_under (dir path : string) :
  HasPrefix path (dir +:+ "/") = true
  \/ Contains path ("/" +:+ dir +:+ "/") = true ->
  dirRule (dir +:+ "/*") path = true.
Proof.
  intros H. unfold dirRule. rewrite HasSuffix_app.
  change 2%nat with (len "/*"). rewrite slice_to_suffix.
  destruct H as [-> | ->]; [reflexivity | apply orb_true_r].
Qed.

Lemma patternHit_dir Match (dir path base : string) :
  HasPrefix path (dir +:+ "/") = true
  \/ Contains path ("/" +:+ dir +:+ "/") = true ->
  patternHit Match path base (dir +:+ "/*") = true.
Proof.
  intros H. unfold patternHit. unfold ToSlash at 3.
  rewrite (dirRule_under dir path H). now rewrite orb_true_r.
Qed.

Lemma patternHit_star_dir Match (dir path base : string) :
  HasPrefix path (dir +:+ "/") = true
  \/ Contains path ("/" +:+ dir +:+ "/") = true ->
  patternHit Match path base ("**/" +:+ dir +:+ "/*") = true.
Proof.
  intros H. unfold patternHit. unfold ToSlash.
  replace (Contains ("**/" +:+ dir +:+ "/*") "**") with true.
  2:{ symmetry. apply Contains_occurs. exists "", ("/" +:+ dir +:+ "/*").
      reflexivity. }
  replace (HasPrefix ("**/" +:+ dir +:+ "/*") "**/") with true
    by (symmetry; apply HasPrefix_app).
  replace (slice_from 3 ("**/" +:+ dir +:+ "/*")) with (dir +:+ "/*")
    by reflexivity.
  rewrite HasSuffix_app.
  change 2%nat with (len "/*"). rewrite slice_to_suffix.
  cbn [andb].
  destruct H as [-> | ->]; now rewrite !orb_true_r.
Qed.

(** X11.  Directory patterns reach every depth.  A pattern [dir/*] or
    [**/dir/*] in the list excludes every path under a directory [dir],
    whether [dir] is the first element of the path or a later one, and
    however deep the file lies below it: for every answer of
    [filepath.Match] (whose [*] does not cross a slash). *)
Theorem directory_patterns_reach_every_depth
    (Match : string -> string -> bool * bool) (verbose : bool)
    (dir path : string) (patterns : list string) :
  In (dir +:+ "/*") patterns \/ In ("**/" +:+ dir +:+ "/*") patterns ->
  (exists rest, path = dir +:+ "/" +:+ rest)
  \/ (exists pre rest, path = pre +:+ "/" +:+ dir +:+ "/" +:+ rest) ->
  fst (shouldIgnoreFile Match verbose path patterns) = true.
Proof.
  intros Hin Hpath. unfold shouldIgnoreFile. rewrite ignoreLoop_hit.
  apply existsb_exists. apply under_dir in Hpath.
  destruct Hin as [Hin|Hin]; eexists; (split; [exact Hin|]).
  - now apply patternHit_dir.
  - now apply patternHit_star_dir.
Qed.

Lemma directory_patterns_reach_every_depth_witness :
  fst (shouldIgnoreFile unclosed_class_matcher false
         "web/node_modules/a/b/c.js" ["*.min.js"; "node_modules/*"]) = true.
Proof.
  apply (directory_patterns_reach_every_depth unclosed_class_matcher false
           "node_modules" "web/node_modules/a/b/c.js"
           ["*.min.js"; "node_modules/*"]).
  - left. right. left. reflexivity.
  - right. exists "web", "a/b/c.js". reflexivity.
Defined.

Lemma filter_mono (f g : FileChange -> bool) changes :
  (forall c, g c = true -> f c = true) ->
  sublist (List.filter g changes) (List.filter f changes).
Proof.
  intros H. induction changes as [|c cs IH]; simpl; [constructor|].
  destruct (g c) eqn:Hg.
  - rewrite (H c Hg). now constructor.
  - destruct (f c); [now constructor | exact IH].
Qed.

Lemma keeps_mono Match ps qs maxSize c :
  incl ps qs -> keeps Match qs maxSize c = true ->
  keeps Match ps maxSize c = true.
Proof.
  intros Hincl. unfold keeps. intros H.
  apply andb_true_iff in H as [Hq Hsize]. rewrite Hsize, andb_true_r.
  apply negb_true_iff in Hq. apply negb_true_iff.
  destruct (existsb _ ps) eqn:Hp; [|reflexivity].
  apply existsb_exists in Hp as (p & Hin & Hhit).
  rewrite <- Hq. symmetry. apply existsb_exists. exists p.
  split; [now apply Hincl | exact Hhit].
Qed.

(** X12.  What the list of patterns counts for.  Adding ignore patterns
    never keeps a file that was dropped: the changes kept under a longer
    list are among those kept under the shorter one, in the same order.
    Two lists with the same patterns keep the same changes, in whatever
    order and however often the patterns are listed. *)
Theorem more_patterns_keep_less
    (Match : string -> string -> bool * bool) (verbose : bool)
    (ps qs : list string) (configuredMax : Z) (changes : list FileChange) :
  incl ps qs ->
  sublist (fst (filterChanges Match verbose qs configuredMax changes))
          (fst (filterChanges Match verbose ps configuredMax changes))
  /\ (incl qs ps ->
      fst (filterChanges Match verbose qs configuredMax changes)
      = fst (filterChanges Match verbose ps configuredMax changes)).
Proof.
  intros Hpq. unfold filterChanges. rewrite !filterLoop_keeps. split.
  - apply filter_mono. intros c. now apply keeps_mono.
  - intros Hqp. apply filter_ext. intros c.
    destruct (keeps Match qs (maxFileSize configuredMax) c) eqn:Hq.
    + symmetry. now apply (keeps_mono Match ps qs).
    + destruct (keeps Match ps (maxFileSize configuredMax) c) eqn:Hp;
        [|reflexivity].
      rewrite <- Hq. now apply (keeps_mono Match qs ps).
Qed.

Lemma more_patterns_keep_less_witness :
  sublist
    (fst (filterChanges unclosed_class_matcher false ["*.md"; "[/*"] 0
            [bracket_change; small_change]))
    (fst (filterChanges unclosed_class_matcher false ["[/*"; "[/*"] 0
            [bracket_change; small_change])).
Proof.
  refine (proj1 (more_patterns_keep_less unclosed_class_matcher false
                   ["[/*"; "[/*"] ["*.md"; "[/*"] 0
                   [bracket_change; small_change] _)).
  intros p [<-|[<-|[]]]; right; left; reflexivity.
Defined.

End FilterRules.

(** * The reviewer: the requests it makes *)

Module ReviewerRequests.

Import Review ParserProps ReviewerNotions RequestNotions ReviewerProps.

Section WithClient.

Variable ClientState : Type.
Variable Chat : ClientState -> string -> string -> ChatReply * ClientState.

Abbreviation Logged := (ClientState * list (string * string))%type.
Abbreviation chat' := (recorded ClientState Chat).

Lemma reviewFile_recorded r cs log change :
  reviewFile Logged chat' r (cs, log) change =
  (fst (reviewFile ClientState Chat r cs change),
   (snd (reviewFile ClientState Chat r cs change),
    log ++ [(model r, prompt_of r change)])).
Proof.
  unfold reviewFile, recorded, prompt_of. simpl.
  destruct (Chat cs (model r) _) as [[response|e] cs']; reflexivity.
Qed.

Lemma Review_recorded r changes : forall cs log,
  exists result cs',
    Review ClientState Chat r cs changes = Ok (result, cs')
    /\ Review Logged chat' r (cs, log) changes =
       Ok (result,
           (cs', log ++ map (fun c => (model r, prompt_of r c))
                          (reviewed changes))).
Proof.
  induction changes as [|change rest IH]; intros cs log.
  - exists (mkReviewResult [] [] ""), cs. simpl. now rewrite app_nil_r.
  - rewrite !Review_cons. unfold reviewed. cbn [List.filter].
    destruct (Git.IsBinary change); cbn [negb].
    + destruct (IH cs log) as (res & cs' & -> & ->).
      eexists; eexists. split; reflexivity.
    + rewrite reviewFile_recorded.
      destruct (reviewFile_cases ClientState Chat r cs change)
        as [(e & cs1 & _ & ->)|(resp & cs1 & l & _ & _ & _ & ->)];
        cbn [fst snd];
        destruct (IH cs1 (log ++ [(model r, prompt_of r change)]))
          as (res & cs' & -> & ->);
        eexists; eexists; (split; [reflexivity|]);
        cbn [prepend map]; now rewrite <- app_assoc.
Qed.

(** X13.  The requests of a review.  [Review] calls the assistant once for
    every change that is not binary, in the order of the changes, each time
    with the reviewer's model and the prompt built for that change, and
    makes no other call: a binary change is never sent, and a call that
    fails is neither repeated nor does it stop the calls that follow.
    Recording the calls changes nothing in the result. *)
Theorem Review_requests (r : Reviewer) (cs : ClientState)
    (log : list (string * string)) (changes : list Git.FileChange) :
  exists result cs',
    Review ClientState Chat r cs changes = Ok (result, cs')
    /\ Review Logged chat' r (cs, log) changes =
       Ok (result,
           (cs', log ++ map (fun c => (model r, prompt_of r c))
                          (reviewed changes))).
Proof. apply Review_recorded. Qed.

End WithClient.

End ReviewerRequests.

(** * The model names *)

Module ModelNames.

Import Copilot ModelNotions.

Section WithLower.

Variable unicodeToLower : string -> string.

Abbreviation mapModelName := (mapModelName unicodeToLower).

Lemma mapModelName_image model : In (mapModelName model) apiNames.
Proof.
  unfold Copilot.mapModelName.
  repeat match goal with
         | |- context [if ?b then _ else _] => destruct b
         end;
    unfold apiNames; cbn [In];
    repeat first [left; reflexivity | right].
Qed.

(** X14.  The names that [mapModelName] returns are names it accepts, and
    it maps each of them to itself: with one exception.  The name it
    returns for the Grok aliases, [grok-code-fast-1], is not among its own
    cases, so that asking for this model by its proper name selects the
    default model [gpt-4o-mini]. *)
Theorem mapModelName_twice (model : string) :
  mapModelName (mapModelName model) =
  if String.eqb (mapModelName model) "grok-code-fast-1" then "gpt-4o-mini"
  else mapModelName model.
Proof.
  pose proof (mapModelName_image model) as H. unfold apiNames in H.
  cbn [In] in H.
  repeat (destruct H as [<-|H]; [vm_compute; reflexivity|]).
  destruct H.
Qed.

End WithLower.

End ModelNames.

(** * The staged changes *)

Module StagedProps.

Import Git GitStaged StagedNotions.

Local Arguments HasPrefix : simpl never.
Local Arguments space_at : simpl never.

(** White space that is at hand stays at hand when more bytes follow. *)
Lemma space_at_app x l : space_at x = true -> space_at (x ++ l) = true.
Proof.
  unfold space_at.
  destruct x as [|c [|d [|e x]]]; cbn [app]; intros H.
  - discriminate.
  - rewrite orb_false_r in H. now rewrite H.
  - rewrite orb_false_r in H. apply orb_true_iff in H as [-> | ->];
      [reflexivity|]. cbn [orb]. now rewrite orb_true_r.
  - exact H.
Qed.

Lemma spaces_in_nil a : spaces_in a [] = has_space a.
Proof.
  induction a as [|c a IH]; [reflexivity|].
  cbn [spaces_in has_space]. now rewrite app_nil_r, IH.
Qed.

Lemma spaces_in_snoc a c r :
  spaces_in (a ++ [c]) r = spaces_in a (c :: r) || space_at (c :: r).
Proof.
  induction a as [|x a IH].
  - cbn [app spaces_in]. now rewrite orb_false_r.
  - cbn [app spaces_in]. rewrite IH.
    change (x :: (a ++ [c]) ++ r) with ((x :: a ++ [c]) ++ r).
    change (x :: a ++ c :: r) with ((x :: a) ++ c :: r).
    replace ((x :: a ++ [c]) ++ r) with ((x :: a) ++ c :: r)
      by (cbn [app]; now rewrite <- app_assoc).
    now rewrite orb_assoc.
Qed.

(** What holds no white space when more follows holds none alone. *)
Lemma spaces_in_alone a l : spaces_in a l = false -> has_space a = false.
Proof.
  rewrite <- spaces_in_nil.
  induction a as [|c a IH]; [reflexivity|].
  cbn [spaces_in]. rewrite app_nil_r. intros H.
  apply orb_false_iff in H as [H1 H2]. rewrite (IH H2), orb_false_r.
  destruct (space_at (c :: a)) eqn:E; [|reflexivity].
  rewrite <- H1. symmetry. exact (space_at_app (c :: a) l E).
Qed.

Lemma emit_fields cur l :
  spaces_in (rev cur) l = false ->
  Forall (fun f => f <> "" /\ no_space f = true) (emit cur).
Proof.
  intros H. destruct cur as [|c cur]; [constructor|].
  unfold emit. constructor; [|constructor]. split.
  - intros E. apply (f_equal list_ascii_of_string) in E.
    rewrite list_ascii_of_string_of_list_ascii in E.
    apply (f_equal (@rev _)) in E. rewrite rev_involutive in E.
    discriminate E.
  - unfold no_space. rewrite list_ascii_of_string_of_list_ascii.
    now rewrite (spaces_in_alone _ _ H).
Qed.

(** Every field is a non-empty string without white space. *)
Lemma fieldsFrom_fields : forall n l cur,
  (length l <= n)%nat ->
  spaces_in (rev cur) l = false ->
  Forall (fun f => f <> "" /\ no_space f = true) (fieldsFrom cur l).
Proof.
  induction n as [|n IH]; intros l cur Hn Hcur.
  - destruct l; [|simpl in Hn; lia]. now apply (emit_fields cur []).
  - destruct l as [|c r]; [now apply (emit_fields cur [])|].
    simpl in Hn.
    assert (Hnew : forall r', (length r' <= n)%nat ->
              Forall (fun f => f <> "" /\ no_space f = true)
                (emit cur ++ fieldsFrom [] r')).
    { intros r' Hr'. apply Forall_app. split;
        [now apply (emit_fields cur (c :: r)) | now apply IH]. }
    assert (Hgo : space_at (c :: r) = false ->
              Forall (fun f => f <> "" /\ no_space f = true)
                (fieldsFrom (c :: cur) r)).
    { intros Hno. apply IH; [lia|]. cbn [rev].
      now rewrite spaces_in_snoc, Hcur, Hno. }
    cbn [fieldsFrom]. unfold space_at in Hgo.
    destruct (asciiSpace c) eqn:Hc; [apply Hnew; lia|].
    cbn [orb] in Hgo.
    destruct r as [|d r2]; [now apply Hgo|].
    destruct (isb c 194 && (isb d 133 || isb d 160));
      [apply Hnew; simpl in Hn; lia|].
    cbn [orb] in Hgo.
    destruct r2 as [|e r3]; [now apply Hgo|].
    match goal with
    | |- context [if ?b then _ else _] => destruct b
    end; [apply Hnew; simpl in Hn; lia | now apply Hgo].
Qed.

Lemma Fields_fields s :
  Forall (fun f => f <> "" /\ no_space f = true) (Fields s).
Proof. apply (fieldsFrom_fields _ _ [] (Nat.le_refl _)). reflexivity. Qed.

Lemma last_In {A} (l : list A) (d : A) : l <> [] -> In (List.last l d) l.
Proof.
  induction l as [|a l IH]; [congruence|]. intros _.
  destruct l as [|b l]; [now left|]. right. apply IH. discriminate.
Qed.

Section WithGit.

Variable unicodeToLower : string -> string.
Variable numstat : string -> option string.
Variable stagedDiff : string -> option string.
Variable stagedContent : string -> option string.

Abbreviation isBinaryFile := (isBinaryFile unicodeToLower numstat).
Abbreviation stagedChange :=
  (stagedChange unicodeToLower numstat stagedDiff stagedContent).
Abbreviation stagedLoop :=
  (stagedLoop unicodeToLower numstat stagedDiff stagedContent).
Abbreviation GetStagedChanges :=
  (GetStagedChanges unicodeToLower numstat stagedDiff stagedContent).

Lemma stagedChange_ok line c :
  stagedChange line = Some c ->
  listed line c /\ staged_ok c /\ IsBinary c = isBinaryFile (Path c).
Proof.
  unfold GitStaged.stagedChange, listed.
  destruct (String.eqb line ""); [discriminate|].
  pose proof (Fields_fields line) as HF.
  destruct (Fields line) as [|p0 [|p1 rest]]; try discriminate.
  rewrite List.Forall_forall in HF.
  assert (H0 : p0 <> "" /\ no_space p0 = true) by (apply HF; now left).
  assert (H1 : p1 <> "" /\ no_space p1 = true)
    by (apply HF; right; now left).
  assert (Hlast : List.last (p0 :: p1 :: rest) "" <> ""
                  /\ no_space (List.last (p0 :: p1 :: rest) "") = true).
  { apply HF. apply last_In. discriminate. }
  set (path0 := List.last (p0 :: p1 :: rest) "") in *.
  assert (Hcase :
    exists status oldPath path,
      (if HasPrefix p0 "R"
       then match rest with
            | p2 :: _ => ("R", p1, p2)
            | [] => ("R", "", path0)
            end
       else (p0, "", path0)) = (status, oldPath, path)
      /\ status <> "" /\ no_space status = true
      /\ path <> "" /\ no_space path = true
      /\ (if HasPrefix p0 "R" then
            status = "R"
            /\ match rest with
               | p2 :: _ => oldPath = p1 /\ path = p2
               | [] => oldPath = "" /\ path = p1
               end
          else status = p0 /\ oldPath = "" /\ path = path0)).
  { destruct (HasPrefix p0 "R") eqn:HR.
    - destruct rest as [|p2 rest'].
      + exists "R", "", path0. destruct Hlast.
        repeat split; auto; discriminate.
      + assert (H2 : p2 <> "" /\ no_space p2 = true).
        { apply HF. right. right. now left. }
        exists "R", p1, p2. destruct H2.
        repeat split; auto; discriminate.
    - exists p0, "", path0. destruct H0, Hlast.
      repeat split; auto. }
  destruct Hcase as (status & oldPath & path & -> & Hs1 & Hs2 & Hp1 & Hp2 & HL).
  destruct (String.eqb status "D") eqn:HD; [discriminate|].
  apply String.eqb_neq in HD.
  destruct (isBinaryFile path) eqn:Hbin;
    intros H; inversion H; subst; cbn [Status Path OldPath IsBinary];
    rewrite ?Hbin;
    (split; [exists p0, p1, rest; split; [reflexivity | exact HL]|]);
    (split; [|reflexivity]);
    unfold staged_ok; cbn [Status Path IsBinary Diff Content];
    repeat split; auto; discriminate.
Qed.

Lemma stagedLoop_ok lines :
  exists used,
    sublist used lines
    /\ Forall2 listed used (stagedLoop lines)
    /\ Forall staged_ok (stagedLoop lines)
    /\ Forall (fun c => IsBinary c = isBinaryFile (Path c))
         (stagedLoop lines).
Proof.
  induction lines as [|line rest IH]; cbn [GitStaged.stagedLoop].
  - exists []. repeat split; constructor.
  - destruct IH as (used & Hsub & Hl & Hok & Hb).
    destruct (stagedChange line) as [c|] eqn:Hc.
    + destruct (stagedChange_ok line c Hc) as (H1 & H2 & H3).
      exists (line :: used). repeat split; constructor; assumption.
    + exists used. repeat split; try assumption. now constructor.
Qed.

(** X15.  What [GetStagedChanges] returns.  Whenever the listing command
    succeeds the function returns a list.  Its changes come from lines of
    the listing, in their order, each from a line of its own: the status
    is the first field of the line, or [R] when that field starts with R;
    the path is the last field (the third one of a rename, the second
    being the old path).  No change has the status [D] (deletions are left
    out); status and path are not empty and hold no white space, in the
    sense of [unicode.IsSpace] (they are fields of the line: a file name
    with a blank in it is cut at the blank); a change is binary exactly
    when [isBinaryFile] says so of its path, and a binary change has
    neither diff nor content: whatever the commands answer. *)
Theorem staged_changes_well_formed (output : string) :
  exists changes used,
    GetStagedChanges (inl output) = Ok changes
    /\ sublist used (SplitLF (TrimSpace output))
    /\ Forall2 listed used changes
    /\ Forall staged_ok changes
    /\ Forall (fun c => IsBinary c = isBinaryFile (Path c)) changes.
Proof.
  unfold GitStaged.GetStagedChanges.
  destruct (len output =? 0)%nat.
  - exists [], []. repeat split; try constructor. apply sublist_nil_l.
  - destruct (stagedLoop_ok (SplitLF (TrimSpace output)))
      as (used & Hsub & Hl & Hok & Hb).
    eexists. exists used. split; [reflexivity|]. auto.
Qed.

End WithGit.

End StagedProps.

(** * The detection of coding standards *)

Module StandardsProps.

Import Standards StandardsNotions.

Local Arguments wrap : simpl never.

Lemma known_not_wordpress :
  Forall (fun e => Name (snd e) <> "WordPress") KnownStandards.
Proof. unfold KnownStandards. repeat constructor; discriminate. Qed.

(** The two indicators under which the map lists WordPress. *)
Lemma wordpress_indicator indicator framework :
  In (indicator, framework) FrameworkIndicators ->
  Name framework = "WordPress" ->
  (indicator = "wp-config.php" \/ indicator = "wp-content")
  /\ Type_ framework = "framework".
Proof.
  unfold FrameworkIndicators. cbn [In]. intros H HN.
  repeat (destruct H as [H|H];
          [inversion H; subst; cbn in HN |- *;
           first [discriminate HN | auto]|]).
  destruct H.
Qed.

Section Detecting.

Variable present : string -> bool.

(** With one of its two indicators there, the count is not zero, and the
    headers are not looked at. *)
Lemma isWordPressProject_counts themeHeader pluginHeader indicator :
  indicator = "wp-config.php" \/ indicator = "wp-content" ->
  present indicator = true ->
  isWordPressProject present themeHeader pluginHeader
  = (indicators present >=? 2).
Proof.
  intros Hi Hp. unfold isWordPressProject, indicators, wpIndicators.
  cbn [countLoop].
  destruct Hi as [-> | ->]; rewrite Hp;
    destruct (present "wp-config.php"), (present "wp-content"),
             (present "wp-includes"), (present "wp-admin"),
             (present "style.css");
    try discriminate Hp; reflexivity.
Qed.

Section Orders.

Variable themeHeader : bool.
Variable pluginHeader : bool.
Variable knownOrder : list (string * CodingStandard).
Variable frameworkOrder : list (string * CodingStandard).

Abbreviation customLoop := (customLoop present).
Abbreviation knownLoop := (knownLoop present).
Abbreviation frameworkLoop :=
  (frameworkLoop present themeHeader pluginHeader).
Abbreviation DetectStandards :=
  (DetectStandards present themeHeader pluginHeader knownOrder
     frameworkOrder).

Lemma frameworkLoop_headers entries : forall acc,
  Forall (fun e => In e FrameworkIndicators) entries ->
  frameworkLoop entries acc =
  Standards.frameworkLoop present false false entries acc.
Proof.
  induction entries as [|[indicator framework] rest IH]; intros acc Hall;
    [reflexivity|].
  inversion Hall as [|? ? Hin Hrest]; subst. cbn [Standards.frameworkLoop].
  destruct (bool_decide (Name framework ∈ snd acc)); [now apply IH|].
  destruct (present indicator) eqn:Hp; [|now apply IH].
  destruct (String.eqb (Name framework) "WordPress") eqn:HW;
    [|now apply IH].
  apply String.eqb_eq in HW.
  destruct (wordpress_indicator _ _ Hin HW) as [Hi _].
  rewrite !(isWordPressProject_counts _ _ indicator Hi Hp).
  destruct (indicators present >=? 2); now apply IH.
Qed.

Lemma customLoop_backed customs : forall acc,
  backed present acc -> backed present (customLoop customs acc).
Proof.
  induction customs as [|c rest IH]; intros acc H; [exact H|].
  cbn [Standards.customLoop].
  destruct (present c); [|now apply IH].
  apply IH. intros s Hs HN HT. cbn [fst] in Hs.
  apply in_app_or in Hs as [Hs|[<-|[]]]; [now apply (H s)|].
  discriminate HT.
Qed.

Lemma knownLoop_backed entries : forall acc,
  Forall (fun e => In e KnownStandards) entries ->
  backed present acc -> backed present (knownLoop entries acc).
Proof.
  induction entries as [|[filename standard] rest IH]; intros acc Hall H;
    [exact H|].
  inversion Hall as [|? ? Hin Hrest]; subst. cbn [Standards.knownLoop].
  destruct (bool_decide (Name standard ∈ snd acc)); [now apply IH|].
  destruct (present filename); [|now apply IH].
  apply IH; [exact Hrest|]. intros s Hs HN HT. cbn [fst] in Hs.
  apply in_app_or in Hs as [Hs|[<-|[]]]; [now apply (H s)|].
  pose proof known_not_wordpress as HK.
  rewrite List.Forall_forall in HK. specialize (HK _ Hin).
  now contradiction HK.
Qed.

Lemma frameworkLoop_backed entries : forall acc,
  Forall (fun e => In e FrameworkIndicators) entries ->
  backed present acc -> backed present (frameworkLoop entries acc).
Proof.
  induction entries as [|[indicator framework] rest IH]; intros acc Hall H;
    [exact H|].
  inversion Hall as [|? ? Hin Hrest]; subst.
  cbn [Standards.frameworkLoop].
  destruct (bool_decide (Name framework ∈ snd acc)); [now apply IH|].
  destruct (present indicator) eqn:Hp; [|now apply IH].
  destruct (String.eqb (Name framework) "WordPress") eqn:HW.
  - apply String.eqb_eq in HW.
    destruct (wordpress_indicator _ _ Hin HW) as [Hi _].
    rewrite (isWordPressProject_counts _ _ indicator Hi Hp).
    destruct (indicators present >=? 2) eqn:Hc; [|now apply IH].
    apply IH; [exact Hrest|]. intros s Hs HN HT. cbn [fst] in Hs.
    apply in_app_or in Hs as [Hs|[<-|[]]]; [now apply (H s)|].
    apply Z.geb_le in Hc. exact Hc.
  - apply String.eqb_neq in HW.
    apply IH; [exact Hrest|]. intros s Hs HN HT. cbn [fst] in Hs.
    apply in_app_or in Hs as [Hs|[<-|[]]]; [now apply (H s)|].
    now contradiction HW.
Qed.

Lemma names_seen_add acc std :
  names_seen acc -> names_seen (fst acc ++ [std], {[Name std]} ∪ snd acc).
Proof.
  intros H x. cbn [fst snd]. rewrite map_app, in_app_iff, elem_of_union.
  rewrite elem_of_singleton, (H x). cbn [map In]. split.
  - intros [->|Hx]; [right; now left | now left].
  - intros [Hx|[<-|[]]]; [now right | now left].
Qed.

Lemma customLoop_listed customs : forall acc,
  names_seen acc ->
  names_seen (customLoop customs acc)
  /\ map ConfigFile (fst (customLoop customs acc))
     = map ConfigFile (fst acc) ++ List.filter present customs
  /\ (Forall (fun s => Type_ s = "custom") (fst acc) ->
      Forall (fun s => Type_ s = "custom") (fst (customLoop customs acc))).
Proof.
  induction customs as [|c rest IH]; intros acc H.
  - cbn [Standards.customLoop List.filter]. rewrite app_nil_r. auto.
  - cbn [Standards.customLoop List.filter].
    destruct (present c); [|now apply IH].
    match goal with
    | |- context [customLoop rest (fst acc ++ [?std], _)] =>
        destruct (IH _ (names_seen_add acc std H)) as (H1 & H2 & H3)
    end.
    split; [exact H1|]. split.
    + rewrite H2. cbn [fst]. rewrite map_app. cbn [map ConfigFile].
      now rewrite <- app_assoc.
    + intros HT. apply H3. cbn [fst]. apply Forall_app. split; [exact HT|].
      now constructor.
Qed.

Abbreviation listed := (listed present knownOrder frameworkOrder).
Abbreviation found := (found present knownOrder frameworkOrder).

Lemma listed_add custom acc std :
  listed custom acc -> Name std ∉ snd acc -> found std ->
  listed custom (fst acc ++ [std], {[Name std]} ∪ snd acc).
Proof.
  intros (detected & Hl & Hnd & Hc & Hfrom & Hseen) Hnew Hstd.
  assert (Hfresh : ~ In (Name std) (map Name (fst acc))).
  { intros Hin. apply Hnew. now apply Hseen. }
  exists (detected ++ [std]). split; [|split; [|split; [|split]]].
  - cbn [fst]. rewrite Hl. now rewrite <- app_assoc.
  - rewrite Hl, map_app in Hfresh.
    rewrite map_app. cbn [map]. apply NoDup_app. split; [exact Hnd|].
    split; [|apply NoDup_singleton].
    intros x Hx Hx'. apply list_elem_of_In in Hx, Hx'.
    destruct Hx' as [<-|[]]. apply Hfresh. apply in_or_app. now right.
  - rewrite Hl, map_app in Hfresh.
    apply Forall_app. split; [exact Hc|]. constructor; [|constructor].
    intros Hin. apply Hfresh. apply in_or_app. now left.
  - apply Forall_app. split; [exact Hfrom|].
    constructor; [exact Hstd | constructor].
  - now apply names_seen_add.
Qed.

Lemma knownLoop_listed custom entries : forall acc,
  incl entries knownOrder ->
  listed custom acc -> listed custom (knownLoop entries acc).
Proof.
  induction entries as [|[filename standard] rest IH]; intros acc Hin H;
    [exact H|].
  assert (Hrest : incl rest knownOrder).
  { intros e He. apply Hin. now right. }
  cbn [Standards.knownLoop]. case_bool_decide as Hseen; [now apply IH|].
  destruct (present filename) eqn:Hp; [|now apply IH].
  apply IH; [exact Hrest|].
  apply (listed_add custom acc (set_ConfigFile filename standard));
    [exact H | exact Hseen|].
  left. exists filename, standard. repeat split; auto. apply Hin. now left.
Qed.

Lemma frameworkLoop_listed custom entries : forall acc,
  incl entries frameworkOrder ->
  listed custom acc -> listed custom (frameworkLoop entries acc).
Proof.
  induction entries as [|[indicator framework] rest IH]; intros acc Hin H;
    [exact H|].
  assert (Hrest : incl rest frameworkOrder).
  { intros e He. apply Hin. now right. }
  assert (Hadd : present indicator = true ->
                 Name framework ∉ snd acc ->
                 listed custom (fst acc ++ [framework],
                                {[Name framework]} ∪ snd acc)).
  { intros Hp Hseen. apply listed_add; [exact H | exact Hseen|].
    right. exists indicator. split; [|exact Hp]. apply Hin. now left. }
  cbn [Standards.frameworkLoop]. case_bool_decide as Hseen; [now apply IH|].
  destruct (present indicator) eqn:Hp; [|now apply IH].
  destruct (String.eqb (Name framework) "WordPress");
    [destruct (isWordPressProject present themeHeader pluginHeader);
     [|now apply IH]|];
    apply IH; auto.
Qed.

(** Names once seen stay seen, and the name of every known configuration
    file that is there is seen at the end. *)
Lemma knownLoop_seen entries : forall acc,
  (forall x, x ∈ snd acc -> x ∈ snd (knownLoop entries acc))
  /\ (forall filename standard,
        In (filename, standard) entries -> present filename = true ->
        Name standard ∈ snd (knownLoop entries acc)).
Proof.
  induction entries as [|[filename standard] rest IH]; intros acc.
  - split; [auto | intros ? ? []].
  - cbn [Standards.knownLoop].
    assert (Hgo : forall acc',
              (forall x, x ∈ snd acc -> x ∈ snd acc') ->
              (present filename = true -> Name standard ∈ snd acc') ->
              (forall x, x ∈ snd acc -> x ∈ snd (knownLoop rest acc'))
              /\ (forall f st, In (f, st) ((filename, standard) :: rest) ->
                    present f = true ->
                    Name st ∈ snd (knownLoop rest acc'))).
    { intros acc' Hmono Hhead. destruct (IH acc') as [Hm Hc]. split.
      - intros x Hx. apply Hm, Hmono, Hx.
      - intros f st [E|Hin] Hp; [|exact (Hc f st Hin Hp)].
        inversion E; subst. apply Hm, Hhead, Hp. }
    case_bool_decide as Hseen; [apply Hgo; auto|].
    destruct (present filename) eqn:Hp.
    + apply Hgo; cbn [snd].
      * intros x Hx. apply elem_of_union. now right.
      * intros _. apply elem_of_union. left. now apply elem_of_singleton.
    + apply Hgo; [auto | discriminate].
Qed.

Lemma frameworkLoop_seen entries : forall acc,
  (forall x, x ∈ snd acc -> x ∈ snd (frameworkLoop entries acc))
  /\ (forall indicator framework,
        In (indicator, framework) entries -> present indicator = true ->
        (Name framework = "WordPress" ->
         isWordPressProject present themeHeader pluginHeader = true) ->
        Name framework ∈ snd (frameworkLoop entries acc)).
Proof.
  induction entries as [|[indicator framework] rest IH]; intros acc.
  - split; [auto | intros ? ? []].
  - cbn [Standards.frameworkLoop].
    assert (Hgo : forall acc',
              (forall x, x ∈ snd acc -> x ∈ snd acc') ->
              (present indicator = true ->
               (Name framework = "WordPress" ->
                isWordPressProject present themeHeader pluginHeader = true) ->
               Name framework ∈ snd acc') ->
              (forall x, x ∈ snd acc -> x ∈ snd (frameworkLoop rest acc'))
              /\ (forall i fw, In (i, fw) ((indicator, framework) :: rest) ->
                    present i = true ->
                    (Name fw = "WordPress" ->
                     isWordPressProject present themeHeader pluginHeader
                     = true) ->
                    Name fw ∈ snd (frameworkLoop rest acc'))).
    { intros acc' Hmono Hhead. destruct (IH acc') as [Hm Hc]. split.
      - intros x Hx. apply Hm, Hmono, Hx.
      - intros i fw [E|Hin] Hp Hwp; [|exact (Hc i fw Hin Hp Hwp)].
        inversion E; subst. apply Hm, Hhead; assumption. }
    assert (Hadded : forall x, x ∈ snd acc ->
                       x ∈ snd (fst acc ++ [framework],
                               {[Name framework]} ∪ snd acc)).
    { intros x Hx. cbn [snd]. apply elem_of_union. now right. }
    assert (Hnew : Name framework ∈ snd (fst acc ++ [framework],
                                       {[Name framework]} ∪ snd acc)).
    { cbn [snd]. apply elem_of_union. left. now apply elem_of_singleton. }
    case_bool_decide as Hseen; [apply Hgo; auto|].
    destruct (present indicator) eqn:Hp; [|apply Hgo; [auto | discriminate]].
    destruct (String.eqb (Name framework) "WordPress") eqn:HW.
    + apply String.eqb_eq in HW.
      destruct (isWordPressProject present themeHeader pluginHeader) eqn:Hwp.
      * apply Hgo; auto.
      * apply Hgo; [auto|]. intros _ H. specialize (H HW). discriminate H.
    + apply Hgo; auto.
Qed.

(** X17.  Every standard that is there is listed, and once.  Whatever
    order the two maps are read in, the result of [DetectStandards] is the
    custom files that are there, in the order configured, followed by
    standards taken from the two maps (a known configuration file that is
    there, an indicator that is there), whose names are pairwise different
    and different from the name of every custom entry.  The name of every
    known configuration file that is there is in the result, and so is
    that of every framework whose indicator is there (for WordPress, when
    [isWordPressProject] holds): a tool with several configuration files
    in the project ([.eslintrc] and [.eslintrc.json], say) appears, and
    appears once among the standards detected, or not among them when a
    custom entry bears its name. *)
Theorem standards_listed_once (customStandards : list string) :
  exists custom detected,
    DetectStandards customStandards = custom ++ detected
    /\ map ConfigFile custom = List.filter present customStandards
    /\ Forall (fun s => Type_ s = "custom") custom
    /\ NoDup (map Name detected)
    /\ Forall (fun s => ~ In (Name s) (map Name custom)) detected
    /\ Forall found detected
    /\ (forall filename standard,
          In (filename, standard) knownOrder -> present filename = true ->
          In (Name standard) (map Name (custom ++ detected)))
    /\ (forall indicator framework,
          In (indicator, framework) frameworkOrder ->
          present indicator = true ->
          (Name framework = "WordPress" ->
           isWordPressProject present themeHeader pluginHeader = true) ->
          In (Name framework) (map Name (custom ++ detected))).
Proof.
  destruct (customLoop_listed customStandards ([], ∅)) as (H1 & H2 & H3).
  { intros x. cbn [fst snd map In]. split; [|intros []].
    intros Hx. now apply elem_of_empty in Hx. }
  set (acc0 := customLoop customStandards ([], ∅)) in *.
  assert (H0 : listed (fst acc0) acc0).
  { exists []. rewrite app_nil_r. split; [reflexivity|].
    split; [apply NoDup_nil_2|]. split; [constructor|].
    split; [constructor | exact H1]. }
  set (acc1 := knownLoop knownOrder acc0).
  set (acc2 := frameworkLoop frameworkOrder acc1).
  assert (Hl2 : listed (fst acc0) acc2).
  { apply frameworkLoop_listed; [apply incl_refl|].
    apply knownLoop_listed; [apply incl_refl | exact H0]. }
  destruct Hl2 as (detected & Hl & Hnd & Hc & Hfrom & Hseen).
  destruct (knownLoop_seen knownOrder acc0) as [_ Hk].
  destruct (frameworkLoop_seen frameworkOrder acc1) as [Hm Hf].
  exists (fst acc0), detected.
  change (DetectStandards customStandards) with (fst acc2).
  split; [exact Hl|]. split; [exact H2|].
  split; [apply H3; constructor|]. split; [exact Hnd|].
  split; [exact Hc|]. split; [exact Hfrom|]. rewrite <- Hl. split.
  - intros filename standard Hin Hp. apply Hseen, Hm.
    exact (Hk filename standard Hin Hp).
  - intros indicator framework Hin Hp Hwp. apply Hseen.
    exact (Hf indicator framework Hin Hp Hwp).
Qed.

End Orders.

End Detecting.

(** X16.  When WordPress is reported.  Whatever order the two maps are
    read in, the checks of [isWordPressProject] for a [Theme Name:] or a
    [Plugin Name:] header have no part in what [DetectStandards] returns:
    the function is only called once [wp-config.php] or [wp-content] has
    been found, and then its count is not zero.  WordPress is listed as a
    framework only when at least two of the five indicators are there. *)
Theorem wordpress_needs_two_indicators (present : string -> bool)
    (themeHeader pluginHeader : bool)
    (knownOrder frameworkOrder : list (string * CodingStandard))
    (customStandards : list string) :
  Forall (fun e => In e KnownStandards) knownOrder ->
  Forall (fun e => In e FrameworkIndicators) frameworkOrder ->
  DetectStandards present themeHeader pluginHeader knownOrder frameworkOrder
    customStandards
  = DetectStandards present false false knownOrder frameworkOrder
      customStandards
  /\ (forall s,
        In s (DetectStandards present themeHeader pluginHeader knownOrder
                frameworkOrder customStandards) ->
        Name s = "WordPress" -> Type_ s = "framework" ->
        2 <= indicators present).
Proof.
  intros Hk Hf. unfold DetectStandards. split.
  - now rewrite frameworkLoop_headers.
  - apply frameworkLoop_backed; [exact Hf|].
    apply knownLoop_backed; [exact Hk|].
    apply customLoop_backed. intros s [].
Qed.

Lemma wordpress_needs_two_indicators_witness :
  DetectStandards wp_root true true KnownStandards FrameworkIndicators []
  = DetectStandards wp_root false false KnownStandards FrameworkIndicators [].
Proof.
  refine (proj1 (wordpress_needs_two_indicators wp_root true true
                   KnownStandards FrameworkIndicators [] _ _)).
  - unfold KnownStandards.
    repeat (constructor;
            [cbn [In]; repeat first [left; reflexivity | right]|]).
    constructor.
  - unfold FrameworkIndicators.
    repeat (constructor;
            [cbn [In]; repeat first [left; reflexivity | right]|]).
    constructor.
Defined.

End StandardsProps.

(** * The review session: when it writes *)

Module SessionWrites.

Import Review OS UI StringProps PatchNotions SessionNotions PatchProps
  SessionProps SessionInvariants.

Local Arguments UI.loop : simpl never.
Local Arguments wrap : simpl never.
Local Arguments TrimSpace : simpl never.

Section WithLower.

Variable unicodeToLower : string -> string.

Abbreviation Run := (Run unicodeToLower).

(** X18.  No fix counted, nothing staged, and nothing written unless a
    write broke off.  When [Run] returns with [Fixed] at zero the staging
    area is exactly as it was before the session.  If moreover every file
    that a suggestion names can be written (no write fails), the files are
    as they were too: skipping, viewing, quitting, a wrong key and a fix
    that does not apply write nothing. *)
Theorem Run_no_fix_no_write (result : ReviewResult) (w : World)
    (input : string) (o : SessionOutcome) (w' : World) (rest : string) :
  Z.of_nat (length (Suggestions result)) <= maxInt ->
  Run (NewReviewSession result) w input = Returned o w' rest ->
  Fixed o = 0 ->
  index w' = index w
  /\ ((forall sug f, In sug (Suggestions result) ->
                     files w !! File sug = Some f -> writable f = true) ->
      w' = w).
Proof.
  intros Hmax Hrun Hzero.
  set (T := Z.of_nat (length (Suggestions result))) in *.
  set (Hwr := forall sug f, In sug (Suggestions result) ->
                files w !! File sug = Some f -> writable f = true).
  set (Inv := fun (s : ReviewSession) (w1 : World) =>
                suggestions s = Suggestions result
                /\ 0 <= fixed s /\ fixed s <= current s
                /\ current s <= T
                /\ (fixed s = 0 -> index w1 = index w /\ (Hwr -> w1 = w))).
  assert (Hw : forall z, 0 <= z < T -> wrap (z + 1) = z + 1).
  { intros z Hz. apply wrap_small. unfold minInt, maxInt in *. lia. }
  assert (HT : forall s w0, Inv s w0 -> total s = T).
  { intros s w0 (Hs & _). unfold total, T. now rewrite Hs. }
  assert (Ha : forall s w0, Inv s w0 -> current s < total s ->
                            Inv (advance s) w0).
  { intros s w0 HI Hlt. pose proof (HT s w0 HI) as Ht.
    destruct HI as (Hs & H1 & H2 & H3 & H4).
    unfold Inv, advance, int_add. cbn [suggestions fixed current].
    rewrite Hw by lia.
    split; [exact Hs|]. split; [lia|]. split; [lia|]. split; [lia|].
    exact H4. }
  assert (Hs : forall s w0, Inv s w0 -> current s < total s ->
                            Inv (advance (count_skipped s)) w0).
  { intros s w0 HI Hlt. pose proof (HT s w0 HI) as Ht.
    destruct HI as (Hs & H1 & H2 & H3 & H4).
    unfold Inv, advance, count_skipped, int_add.
    cbn [suggestions fixed current]. rewrite !Hw by lia.
    split; [exact Hs|]. split; [lia|]. split; [lia|]. split; [lia|].
    exact H4. }
  assert (Hf : forall s w0 sug w1, Inv s w0 -> current s < total s ->
             at_current s = Some sug -> applyFix sug w0 = (true, w1) ->
             Inv (advance (count_fixed s)) w1).
  { intros s w0 sug w1 HI Hlt _ _. pose proof (HT s w0 HI) as Ht.
    destruct HI as (Hs0 & H1 & H2 & H3 & H4).
    unfold Inv, advance, count_fixed, int_add.
    cbn [suggestions fixed current]. rewrite !Hw by lia.
    split; [exact Hs0|]. split; [lia|]. split; [lia|]. split; [lia|].
    intros Hz. lia. }
  assert (Hn : forall s w0 sug w1, Inv s w0 -> current s < total s ->
             at_current s = Some sug -> applyFix sug w0 = (false, w1) ->
             Inv s w1 /\ Inv (advance (count_skipped s)) w1).
  { intros s w0 sug w1 HI Hlt Hsug Hap.
    assert (HI1 : Inv s w1).
    { destruct HI as (Hs0 & H1 & H2 & H3 & H4).
      split; [exact Hs0|]. repeat (split; [assumption|]).
      intros Hz. destruct (H4 Hz) as [Hix Hsame].
      destruct (applyFix_outcomes _ _ _ _ Hap)
        as [[_ ->]|[(f & n & _ & Hfile & _ & Hno & _ & ->)|(f & Hb & _)]];
        [auto| |discriminate Hb].
      split; [exact Hix|]. intros Hall.
      rewrite (Hsame Hall) in Hfile.
      apply at_current_In in Hsug. rewrite Hs0 in Hsug.
      rewrite (Hall sug f Hsug Hfile) in Hno. discriminate Hno. }
    split; [exact HI1 | exact (Hs s w1 HI1 Hlt)]. }
  assert (H0 : Inv (NewReviewSession result) w).
  { unfold Inv, NewReviewSession. cbn [suggestions fixed current].
    split; [reflexivity|]. split; [lia|]. split; [lia|].
    split; [unfold T; lia|]. auto. }
  destruct (Run_preserves unicodeToLower Inv Ha Hs Hf Hn _ _ _ _ _ _ H0 Hrun)
    as [(_ & _ & _ & ->)|(s' & (_ & _ & _ & _ & H4) & Hfx & _)].
  - auto.
  - apply H4. now rewrite <- Hfx.
Qed.

End WithLower.

(** A session in which the one fix does not apply and is skipped. *)
Lemma Run_no_fix_no_write_witness :
  index example_world = index example_world
  /\ ((forall sug f,
         In sug [example_fix "notpresent"] ->
         files example_world !! File sug = Some f -> writable f = true) ->
      example_world = example_world).
Proof.
  exact (Run_no_fix_no_write (fun s => s)
           (mkReviewResult [] [example_fix "notpresent"] "")
           example_world
           ("fix" +:+ nl +:+ "y" +:+ nl +:+ "yes" +:+ nl)
           (mkOutcome ActionCommit 0 1) example_world ""
           ltac:(vm_compute; discriminate)
           ltac:(vm_compute; reflexivity)
           eq_refl).
Defined.

End SessionWrites.

(** * The review session: nothing is written unasked *)

Module SessionConsent.

Import Review OS UI StringProps ConsentNotions SessionProps.

Local Arguments UI.loop : simpl never.
Local Arguments wrap : simpl never.
Local Arguments TrimSpace : simpl never.

(** A line that was read whole is the first line of the input. *)
Lemma ReadString_split input : forall line rest,
  ReadString input = (line, false, rest) ->
  exists l, line = l +:+ nl /\ SplitLF input = l :: SplitLF rest.
Proof.
  induction input as [|c input IH]; intros line rest H; [discriminate|].
  cbn [ReadString SplitLF] in *. destruct (Ascii.eqb c LF) eqn:Hc.
  - inversion H; subst. exists "". split; reflexivity.
  - destruct (ReadString input) as [[line' err] rest'].
    inversion H; subst.
    destruct (IH line' rest eq_refl) as (l & -> & ->).
    exists (String c l). split; reflexivity.
Qed.

Section WithLower.

Variable unicodeToLower : string -> string.

Abbreviation loop := (loop unicodeToLower).
Abbreviation Run := (Run unicodeToLower).
Abbreviation command := (command unicodeToLower).
Abbreviation is_cmd := (is_cmd unicodeToLower).
Abbreviation decide_commit := (decide_commit unicodeToLower).
Abbreviation never_fix := (never_fix unicodeToLower).

Lemma never_fix_eof : never_fix "".
Proof. repeat constructor. Qed.

Lemma never_fix_read input line rest :
  never_fix input -> ReadString input = (line, false, rest) ->
  is_cmd line "f" "fix" = false /\ never_fix rest.
Proof.
  intros H Hread. destruct (ReadString_split _ _ _ Hread) as (l & -> & Hs).
  unfold ConsentNotions.never_fix in H. rewrite Hs in H.
  inversion H; subst. auto.
Qed.

Lemma loop_unasked w : forall fuel s input,
  fixed s = 0 -> never_fix input ->
  match loop fuel s w input with
  | Returned o w' _ => Fixed o = 0 /\ w' = w
  | Finished s' w' _ => fixed s' = 0 /\ w' = w
  | IndexPanic => True
  | NoFuel => True
  end.
Proof.
  induction fuel as [|fuel IH]; intros s input Hf Hin; [exact I|].
  rewrite (loop_S unicodeToLower).
  destruct (current s <? total s); simpl negb; cbv iota; [|auto].
  destruct (at_current s) as [sug|]; [|exact I].
  destruct (ReadString input) as [[line err] input1] eqn:Hread.
  cbv beta iota zeta.
  destruct err.
  { destruct (ReadString_shorter _ _ _ _ Hread) as [_ He].
    rewrite (He eq_refl). apply IH; [exact Hf | apply never_fix_eof]. }
  destruct (never_fix_read _ _ _ Hin Hread) as [Hno Hrest].
  rewrite Hno.
  destruct (is_cmd line "s" "skip"); [apply IH; auto|].
  destruct (is_cmd line "v" "view"); [apply IH; auto|].
  destruct (is_cmd line "q" "quit"); [|apply IH; auto].
  simpl. auto.
Qed.

(** X21.  Nothing is written unasked.  If no line of the input reads as
    [f] or [fix], then whatever else is typed, [Run] counts no fix and
    leaves the files and the staging area exactly as they were. *)
Theorem Run_writes_only_on_fix (result : ReviewResult) (w : World)
    (input : string) (o : SessionOutcome) (w' : World) (rest : string) :
  never_fix input ->
  Run (NewReviewSession result) w input = Returned o w' rest ->
  Fixed o = 0 /\ w' = w.
Proof.
  intros Hin Hrun. unfold UI.Run in Hrun.
  set (s0 := NewReviewSession result) in *.
  destruct (total s0 =? 0).
  { inversion Hrun; subst. auto. }
  pose proof (loop_unasked w (iterations s0 input) s0 input eq_refl Hin)
    as Hl.
  destruct (loop (iterations s0 input) s0 w input)
    as [o1 w1 i1|s1 w1 i1| |]; try discriminate.
  - inversion Hrun; subst. exact Hl.
  - destruct Hl as [Hf ->]. unfold UI.decide_commit in Hrun.
    destruct (ReadString i1) as [[line e] i2].
    destruct (is_cmd line "y" "yes");
      [|destruct (is_cmd line "r" "re-review")];
      inversion Hrun; subst; auto.
Qed.

End WithLower.

Lemma Run_writes_only_on_fix_witness :
  0 = 0 /\ PatchNotions.example_world = PatchNotions.example_world.
Proof.
  refine (Run_writes_only_on_fix (fun s => s)
            (mkReviewResult []
               [PatchNotions.example_fix "foo"; PatchNotions.example_fix "xyz"]
               "")
            PatchNotions.example_world
            ("view" +:+ nl +:+ "Skip" +:+ nl +:+ "fixx" +:+ nl
             +:+ "s" +:+ nl +:+ "yes" +:+ nl)
            (mkOutcome ActionCommit 0 2)
            PatchNotions.example_world "" _ _).
  - unfold ConsentNotions.never_fix.
    match goal with
    | |- Forall _ ?x => let l := eval vm_compute in x in change x with l
    end.
    repeat (constructor; [vm_compute; reflexivity|]). constructor.
  - vm_compute. reflexivity.
Defined.

End SessionConsent.
